(** * PyAEDT-Motor: a shallow embedding of the wrapper code and its properties

    The repository is a Python automation layer over Ansys Electronics
    Desktop (AEDT).  This development embeds the parts of it that contain
    logic of their own:

    - [PostProcessor] and [SolutionData]: the list conversions of
      [SolutionData], its constructor, its setters and its [data_...]
      methods (pyaedt/modules/PostProcessor.py);
    - [Object3d]: [EdgeTypePrimitive.fillet] and [EdgeTypePrimitive.chamfer]
      (pyaedt/modeler/Object3d.py), over an abstract external editor;
    - [Object3dColor], [Padstack] and [CircuitComponent]: the colour and
      the transparency of [Object3d], the layers and the argument list of
      [Padstack], and the property changes of [CircuitComponent]
      (pyaedt/modeler/Object3d.py);
    - [EdbApp] and [EdbExport]: the constructor of [Edb], its DLL
      initialisation, the database methods it calls, the cached core
      accessors and the export options file (pyaedt/edb.py), over an
      abstract external world;
    - [Siwave]: the source classes, the DC setup template and the
      terminals that [EdbSiwave] creates (pyaedt/edb_core/siwave.py);
    - [Variables]: the engineering-unit [Variable] class, which is exercised
      by _unittest/test_09_VariableManager.py.

    Python floats are modelled as real numbers: every numeric statement
    below is in exact real arithmetic.

    Part I holds the definitions, Part II the theorems. *)

From Stdlib Require Import Reals Lra List String ZArith Bool.
From stdpp Require Import base gmap strings list pretty.
Import ListNotations.

Set Warnings "-register-all".

(* ===================================================================== *)
(** * Part I: definitions *)
(* ===================================================================== *)

(** ** Python values, exceptions and a state-and-exception monad *)

Module Py.

(** The exceptions the embedded code can raise. *)
Inductive exn : Type :=
| TypeError
| AttributeError
| IndexError
| AssertionError
| NameError
| ExternalError.

(** Outcome of running a Python function body. *)
Inductive result (A : Type) : Type :=
| Ok (a : A)
| Raise (e : exn).
Arguments Ok {A} a.
Arguments Raise {A} e.

(** A computation over a mutable store [S] that may raise.  The store
    survives an exception, as the effects of a Python body do. *)
Definition M (S A : Type) : Type := S -> result A * S.

Definition ret {S A} (a : A) : M S A := fun s => (Ok a, s).

Definition bind {S A B} (m : M S A) (k : A -> M S B) : M S B :=
  fun s =>
    match m s with
    | (Ok a, s') => k a s'
    | (Raise e, s') => (Raise e, s')
    end.

Definition raise {S A} (e : exn) : M S A := fun s => (Raise e, s).

Definition get {S} : M S S := fun s => (Ok s, s).

Definition modify {S} (f : S -> S) : M S unit := fun s => (Ok tt, f s).

(** [try: m except: h] with a bare [except]. *)
Definition try_except {S A} (m : M S A) (h : exn -> M S A) : M S A :=
  fun s =>
    match m s with
    | (Ok a, s') => (Ok a, s')
    | (Raise e, s') => h e s'
    end.

(** A triple for computations that may raise: from a store that
    satisfies [P], a normal return leaves a store that satisfies [Q], and
    an exception one that satisfies [E]. *)
Definition hoare {S A} (P : S -> Prop) (m : M S A) (Q E : S -> Prop) : Prop :=
  forall s, P s ->
    match m s with
    | (Ok _, s') => Q s'
    | (Raise _, s') => E s'
    end.

(** From a store that satisfies [P], the computation returns normally,
    and leaves a store that satisfies [Q]. *)
Definition returns {S A} (P : S -> Prop) (m : M S A) (Q : S -> Prop) : Prop :=
  forall s, P s -> exists (a : A) (s' : S), m s = (Ok a, s') /\ Q s'.

(** From a store that satisfies [P], the computation raises an exception
    that satisfies [E]. *)
Definition raises {S A} (P : S -> Prop) (m : M S A) (E : exn -> Prop) : Prop :=
  forall s, P s -> exists (e : exn) (s' : S), m s = (Raise e, s') /\ E e.

Declare Scope py_scope.
Delimit Scope py_scope with py.
Notation "x <- m ;; k" := (bind m (fun x => k))
  (at level 100, m at next level, right associativity) : py_scope.
Notation "m ;;; k" := (bind m (fun _ => k))
  (at level 100, right associativity) : py_scope.

End Py.

(** ** pyaedt/modules/PostProcessor.py: [SolutionData] *)

Module PostProcessor.

(** The queries [SolutionData] sends to the solution object that AEDT
    returned ([GetSweepValues], [GetRealDataValues], [GetImagDataValues]). *)
Inductive EngineQuery : Type :=
| GetSweepValues (sweep : string)
| GetRealDataValues (expression : string)
| GetImagDataValues (expression : string).

(** The external engine, as far as [SolutionData] sees it: an answer to
    each query. *)
Definition Engine : Type := EngineQuery -> list R.

(** A returned list is obtained directly from the engine when it is the
    engine's answer to some query. *)
Definition obtained_from_engine (engine : Engine) (values : list R) : Prop :=
  exists q : EngineQuery, engine q = values.

Section SolutionData.
Local Open Scope R_scope.

(** [AEDT_units] is imported from pyaedt/application/Variables.py, which
    is not part of the sources at hand: a dictionary from a unit system
    to a dictionary from a unit to its scale factor. *)
Variable AEDT_units : gmap string (gmap string R).

(** [return [i*2*math.pi/360 for i in input_list]] *)
Definition to_degrees (input_list : list R) : list R :=
  List.map (fun i => i * 2 * PI / 360) input_list.

(** [return [i*360/(2*math.pi) for i in input_list]] *)
Definition to_radians (input_list : list R) : list R :=
  List.map (fun i => i * 360 / (2 * PI)) input_list.

(** [sol = datalist
     if dataunits in AEDT_units and units in AEDT_units[dataunits]:
         sol = [i * AEDT_units[dataunits][units] for i in datalist]
     return sol] *)
Definition _convert_list_to_SI
    (datalist : list R) (dataunits units : string) : list R :=
  match AEDT_units !! dataunits with
  | Some table =>
      match table !! units with
      | Some factor => List.map (fun i => i * factor) datalist
      | None => datalist
      end
  | None => datalist
  end.

(** The list post-processing operations of [SolutionData]. *)
Inductive PostOp : Type :=
| ToDegrees
| ToRadians
| ConvertListToSI (dataunits units : string).

(** Running an operation on an instance that holds the engine handle. *)
Definition run_post_op (engine : Engine) (op : PostOp) (input : list R)
  : list R :=
  match op with
  | ToDegrees => to_degrees input
  | ToRadians => to_radians input
  | ConvertListToSI dataunits units =>
      _convert_list_to_SI input dataunits units
  end.

(** The constant an operation scales every element by. *)
Definition scale_factor (op : PostOp) : R :=
  match op with
  | ToDegrees => 2 * PI / 360
  | ToRadians => 360 / (2 * PI)
  | ConvertListToSI dataunits units =>
      match AEDT_units !! dataunits with
      | Some table =>
          match table !! units with
          | Some factor => factor
          | None => 1
          end
      | None => 1
      end
  end.

End SolutionData.

(** An engine that answers every query with the empty list. *)
Definition silent_engine : Engine := fun _ => [].

End PostProcessor.

(** ** pyaedt/modules/PostProcessor.py: the state of [SolutionData] *)

Module SolutionData.
Import PostProcessor.

(** The exceptions of the methods below. *)
Inductive error : Type :=
| IndexError
| KeyError
| ValueError
| TypeError
| AttributeError.

#[export] Instance R_eq_decision : EqDecision R := Req_dec_T.

Section Dictionary.
Context {K V : Type} `{EqDecision K}.

(** A dictionary that keeps the order in which its keys were inserted. *)
Definition Dict : Type := list (K * V).

(** [d[k]]; [None] stands for [KeyError]. *)
Fixpoint item (k : K) (d : Dict) : option V :=
  match d with
  | [] => None
  | (k', v) :: d' => if bool_decide (k' = k) then Some v else item k d'
  end.

(** [d[k] = v]: the value of a key that is there is replaced where it is,
    a new key goes to the end. *)
Fixpoint assign (k : K) (v : V) (d : Dict) : Dict :=
  match d with
  | [] => [(k, v)]
  | (k', v') :: d' =>
      if bool_decide (k' = k) then (k', v) :: d'
      else (k', v') :: assign k v d'
  end.

(** [list(dict.fromkeys(l))]: the elements of [l] without the repetitions,
    in the order of their first occurrences. *)
Definition fromkeys (l : list K) : list K :=
  fold_left (fun d k => if bool_decide (k ∈ d) then d else d ++ [k]) l [].

(** [l.index(k)]; [None] stands for [ValueError]. *)
Fixpoint index (k : K) (l : list K) : option nat :=
  match l with
  | [] => None
  | k' :: l' =>
      if bool_decide (k' = k) then Some O
      else match index k l' with
           | Some i => Some (S i)
           | None => None
           end
  end.

End Dictionary.

Arguments Dict K V : clear implicits.

(** The solution object AEDT returns for one variation: the numeric
    queries are those of [Engine]; [GetSweepUnits] and
    [GetImagDataValues] are called inside [try], and may raise. *)
Record Variation : Type := {
  engine : Engine;
  GetSweepNames : list string;
  GetDataExpressions : list string;
  GetSweepUnits : string -> option string;
  imaginary_part_available : string -> bool;
  GetDataUnits : string -> string
}.

(** A key of the solution dictionaries: the tuple of the values of the
    sweeps, in which a nominal value may be [None]. *)
Abbreviation Point := (list (option R)).

(** The attributes of a [SolutionData]; [solutions_data_real] is [None]
    when it holds [False]. *)
Record State : Type := {
  _original_data : list Variation;
  number_of_variations : Z;
  _nominal_variation : option Variation;
  _sweeps : Dict string (list R);
  _sweeps_names : list string;
  _primary_sweep : string;
  nominal_sweeps : Dict string (option R);
  units_sweeps : Dict string string;
  solutions_data_real : option (Dict string (Dict Point R));
  solutions_data_imag : Dict string (Dict Point R);
  solutions_data_mag : Dict string (Dict Point R);
  units_data : Dict string string;
  printed : list string
}.

(** The setter of [nominal_variation]. *)
Definition nominal_variation_setter (val : Z) (s : State)
  : (unit + error) * State :=
  if (0 <=? val)%Z && (val <=? number_of_variations s)%Z then
    match _original_data s !! Z.to_nat val with
    | Some variation =>
        (inl tt,
         {| _original_data := _original_data s;
            number_of_variations := number_of_variations s;
            _nominal_variation := Some variation;
            _sweeps := _sweeps s; _sweeps_names := _sweeps_names s;
            _primary_sweep := _primary_sweep s;
            nominal_sweeps := nominal_sweeps s;
            units_sweeps := units_sweeps s;
            solutions_data_real := solutions_data_real s;
            solutions_data_imag := solutions_data_imag s;
            solutions_data_mag := solutions_data_mag s;
            units_data := units_data s; printed := printed s |})
    | None => (inr IndexError, s)
    end
  else
    (inl tt,
     {| _original_data := _original_data s;
        number_of_variations := number_of_variations s;
        _nominal_variation := _nominal_variation s;
        _sweeps := _sweeps s; _sweeps_names := _sweeps_names s;
        _primary_sweep := _primary_sweep s;
        nominal_sweeps := nominal_sweeps s;
        units_sweeps := units_sweeps s;
        solutions_data_real := solutions_data_real s;
        solutions_data_imag := solutions_data_imag s;
        solutions_data_mag := solutions_data_mag s;
        units_data := units_data s;
        printed := printed s ++ [pretty val +:+ " not in Variations"] |}).

(** The setter of [primary_sweep]. *)
Definition primary_sweep_setter (ps : string) (s : State) : State :=
  if bool_decide (ps ∈ List.map fst (_sweeps s)) then
    {| _original_data := _original_data s;
       number_of_variations := number_of_variations s;
       _nominal_variation := _nominal_variation s;
       _sweeps := _sweeps s; _sweeps_names := _sweeps_names s;
       _primary_sweep := ps;
       nominal_sweeps := nominal_sweeps s;
       units_sweeps := units_sweeps s;
       solutions_data_real := solutions_data_real s;
       solutions_data_imag := solutions_data_imag s;
       solutions_data_mag := solutions_data_mag s;
       units_data := units_data s; printed := printed s |}
  else s.

(** [SolutionData.expressions], on the nominal variation. *)
Definition expressions (variation : Variation) : list string :=
  fromkeys (GetDataExpressions variation).

(** The body of [update_sweeps]: the new value of [_sweeps]. *)
Definition update_sweeps (variation : Variation) (_sweeps_names : list string)
  : Dict string (list R) :=
  fold_left
    (fun sweeps el =>
       assign el (fromkeys (engine variation (GetSweepValues el))) sweeps)
    _sweeps_names [].

(** The loop of [__init__] that fills [nominal_sweeps] and
    [units_sweeps]: when the sweep has no value, or when [GetSweepUnits]
    raises, the nominal value is [None] and the unit is not recorded. *)
Definition nominal_and_units (variation : Variation)
    (sweeps : Dict string (list R))
  : Dict string (option R) * Dict string string :=
  fold_left
    (fun acc entry =>
       let e := fst entry in
       match snd entry, GetSweepUnits variation e with
       | first :: _, Some units =>
           (assign e (Some first) (fst acc), assign e units (snd acc))
       | _, _ => (assign e None (fst acc), snd acc)
       end)
    sweeps ([], []).

(** [itertools.product] of the lists of [values]. *)
Fixpoint product (values : list (list R)) : list (list R) :=
  match values with
  | [] => [[]]
  | first :: rest =>
      flat_map (fun x => List.map (cons x) (product rest)) first
  end.

(** The loop over [itertools.product], [solution_Data[t] = solution[i];
    i += 1], which raises when [solution] is too short. *)
Fixpoint fill (tuples : list (list R)) (solution : list R)
    (solution_Data : Dict Point R) : Dict Point R + error :=
  match tuples with
  | [] => inl solution_Data
  | t :: tuples' =>
      match solution with
      | [] => inr IndexError
      | value :: solution' =>
          fill tuples' solution' (assign (List.map Some t) value solution_Data)
      end
  end.

(** [values] of the two methods below. *)
Definition sweep_values (_sweeps_names : list string)
    (sweeps : Dict string (list R)) : option (list (list R)) :=
  mapM (fun el => item el sweeps) (rev _sweeps_names).

(** The loop over [self.expressions] that the two methods below share;
    [solution_of] gives the list of an expression. *)
Fixpoint solutions (expressions : list string)
    (solution_of : string -> list R + error) (values : option (list (list R)))
    (sols_data : Dict string (Dict Point R))
  : Dict string (Dict Point R) + error :=
  match expressions with
  | [] => inl sols_data
  | expression :: expressions' =>
      match solution_of expression with
      | inr e => inr e
      | inl solution =>
          match values with
          | None => inr KeyError
          | Some values =>
              match fill (product values) solution [] with
              | inr e => inr e
              | inl solution_Data =>
                  solutions expressions' solution_of (Some values)
                    (assign expression solution_Data sols_data)
              end
          end
      end
  end.

(** The body of [_solution_data_real]. *)
Definition _solution_data_real_body (variation : Variation)
    (_sweeps_names : list string) (sweeps : Dict string (list R))
  : Dict string (Dict Point R) + error :=
  solutions (expressions variation)
    (fun expression => inl (engine variation (GetRealDataValues expression)))
    (sweep_values _sweeps_names sweeps) [].

(** Modelled from the spec: the decorator [aedt_exception_handler], which
    is imported from the package root and is not part of the sources at
    hand, returns [False] when the body raises.  [_solution_data_real], as
    decorated; [None] stands for [False]. *)
Definition _solution_data_real (variation : Variation)
    (_sweeps_names : list string) (sweeps : Dict string (list R))
  : option (Dict string (Dict Point R)) :=
  match _solution_data_real_body variation _sweeps_names sweeps with
  | inl sols_data => Some sols_data
  | inr _ => None
  end.

(** [_solution_data_imag], which is not decorated: when
    [GetImagDataValues] raises, the solution is a list of zeros as long as
    the real solution of the expression. *)
Definition _solution_data_imag (variation : Variation)
    (_sweeps_names : list string) (sweeps : Dict string (list R))
    (solutions_data_real : option (Dict string (Dict Point R)))
  : Dict string (Dict Point R) + error :=
  solutions (expressions variation)
    (fun expression =>
       if imaginary_part_available variation expression then
         inl (engine variation (GetImagDataValues expression))
       else
         match solutions_data_real with
         | None => inr TypeError
         | Some real =>
             match item expression real with
             | Some solution_Data => inl (List.map (fun _ => 0%R) solution_Data)
             | None => inr KeyError
             end
         end)
    (sweep_values _sweeps_names sweeps) [].

(** The last loop of [__init__]: the magnitudes and the units of the
    expressions. *)
Fixpoint magnitudes (variation : Variation) (expressions : list string)
    (real : option (Dict string (Dict Point R)))
    (imag : Dict string (Dict Point R))
    (acc : Dict string (Dict Point R) * Dict string string)
  : Dict string (Dict Point R) * Dict string string + error :=
  match expressions with
  | [] => inl acc
  | expr :: expressions' =>
      let units := assign expr (GetDataUnits variation expr) (snd acc) in
      match real with
      | None => inr TypeError
      | Some real_data =>
          match item expr real_data with
          | None => inr KeyError
          | Some points =>
              let magnitude :=
                fold_left
                  (fun m point =>
                     match m with
                     | inr e => inr e
                     | inl m =>
                         match item (fst point) points,
                               match item expr imag with
                               | Some imag_points =>
                                   item (fst point) imag_points
                               | None => None
                               end with
                         | Some re, Some im =>
                             inl (assign (fst point)
                                    (sqrt (re * re + im * im))%R m)
                         | _, _ => inr KeyError
                         end
                     end)
                  points (inl []) in
              match magnitude with
              | inr e => inr e
              | inl m =>
                  magnitudes variation expressions' real imag
                    (assign expr m (fst acc), units)
              end
          end
      end
  end.

(** [SolutionData.__init__] *)
Definition __init__ (Data : list Variation) : State + error :=
  match Data with
  | [] => inr IndexError
  | variation :: _ =>
      let names := GetSweepNames variation in
      let sweeps := update_sweeps variation names in
      match names with
      | [] => inr IndexError
      | primary :: _ =>
          let (nominal, units) := nominal_and_units variation sweeps in
          let real := _solution_data_real variation names sweeps in
          match _solution_data_imag variation names sweeps real with
          | inr e => inr e
          | inl imag =>
              match magnitudes variation (expressions variation) real imag
                      ([], []) with
              | inr e => inr e
              | inl (mag, units_data) =>
                  inl {| _original_data := Data;
                         number_of_variations := Z.of_nat (length Data);
                         _nominal_variation := Some variation;
                         _sweeps := sweeps; _sweeps_names := names;
                         _primary_sweep := primary;
                         nominal_sweeps := nominal;
                         units_sweeps := units;
                         solutions_data_real := real;
                         solutions_data_imag := imag;
                         solutions_data_mag := mag;
                         units_data := units_data; printed := [] |}
              end
          end
      end
  end.

(** [c.lower()] on an ASCII letter. *)
Definition lower_ascii (c : Ascii.ascii) : Ascii.ascii :=
  let n := Ascii.nat_of_ascii c in
  if (65 <=? n)%nat && (n <=? 90)%nat then Ascii.ascii_of_nat (n + 32)
  else c.

(** [s.lower()] *)
Fixpoint lower (s : string) : string :=
  match s with
  | EmptyString => EmptyString
  | String c s' => String (lower_ascii c) (lower s')
  end.

Section Units.

(** [AEDT_units] is imported from pyaedt/application/Variables.py, which
    is not part of the sources at hand: a dictionary from a unit system
    to the dictionary of its units, given by the list of its items. *)
Variable AEDT_units : list (string * list (string * R)).

(** The same dictionary as a finite map, as [_convert_list_to_SI] reads
    it. *)
Definition units_table : gmap string (gmap string R) :=
  list_to_map
    (List.map (fun entry => (fst entry, list_to_map (snd entry))) AEDT_units).

(** [SolutionData._quantity]: the first unit system one of whose units
    is [unit], letter case apart. *)
Definition _quantity (unit : string) : option string :=
  match
    List.find
      (fun entry =>
         bool_decide
           (lower unit ∈ List.map (fun u => lower (fst u)) (snd entry)))
      AEDT_units
  with
  | Some entry => Some (fst entry)
  | None => None
  end.

(** The loop [for el in self.sweeps[self.primary_sweep]] of the three
    [data_...] methods: [temp[position] = el], then one value for the
    point, which [value_at] looks up. *)
Fixpoint sweep_loop (values : list R) (temp : Point) (position : nat)
    (value_at : Point -> R + error) : list R + error :=
  match values with
  | [] => inl []
  | el :: values' =>
      if (position <? length temp)%nat then
        match value_at (<[position := Some el]> temp) with
        | inr e => inr e
        | inl value =>
            match sweep_loop values' (<[position := Some el]> temp)
                    position value_at with
            | inr e => inr e
            | inl sol => inl (value :: sol)
            end
        end
      else inr IndexError
  end.

(** The lines of a [try] or [except] block of the [data_...] methods
    from [position = ...] on. *)
Definition sweep_solution (s : State) (temp : Point)
    (value_at : Point -> R + error) : list R + error :=
  match index (_primary_sweep s) (rev (_sweeps_names s)) with
  | None => inr ValueError
  | Some position =>
      match item (_primary_sweep s) (_sweeps s) with
      | None => inr KeyError
      | Some values => sweep_loop values temp position value_at
      end
  end.

(** The body that [data_magnitude], [data_real] and [data_imag] share;
    [table] is the attribute each of them reads ([None] when it holds
    [False]). *)
Definition data (table : option (Dict string (Dict Point R)))
    (expression : option string) (convert_to_SI : bool) (s : State)
  : list R + error :=
  let chosen :=
    match expression with
    | Some name => if bool_decide (name = "") then None else Some name
    | None => None
    end in
  let expression :=
    match chosen with
    | Some name => inl name
    | None =>
        match _nominal_variation s with
        | None => inr AttributeError
        | Some variation =>
            match expressions variation with
            | first :: _ => inl first
            | [] => inr IndexError
            end
        end
    end in
  match expression with
  | inr e => inr e
  | inl expression =>
      let temp := rev (List.map snd (nominal_sweeps s)) in
      let tried :=
        match table with
        | None => inr TypeError
        | Some table =>
            match item expression table with
            | None => inr KeyError
            | Some solution_Data =>
                sweep_solution s temp
                  (fun point =>
                     match item point solution_Data with
                     | Some value => inl value
                     | None => inr KeyError
                     end)
            end
        end in
      let sol :=
        match tried with
        | inl sol => inl sol
        | inr _ => sweep_solution s temp (fun _ => inl 0%R)
        end in
      match sol with
      | inr e => inr e
      | inl sol =>
          if convert_to_SI then
            match item expression (units_data s) with
            | None => inr KeyError
            | Some units =>
                match _quantity units with
                | Some quantity =>
                    if bool_decide (quantity = "") then inl sol
                    else
                      inl (_convert_list_to_SI units_table sol quantity units)
                | None => inl sol
                end
            end
          else inl sol
      end
  end.

(** [SolutionData.data_magnitude] *)
Definition data_magnitude (expression : option string)
    (convert_to_SI : bool) (s : State) : list R + error :=
  data (Some (solutions_data_mag s)) expression convert_to_SI s.

(** [SolutionData.data_real] *)
Definition data_real (expression : option string) (convert_to_SI : bool)
    (s : State) : list R + error :=
  data (solutions_data_real s) expression convert_to_SI s.

(** [SolutionData.data_imag] *)
Definition data_imag (expression : option string) (convert_to_SI : bool)
    (s : State) : list R + error :=
  data (Some (solutions_data_imag s)) expression convert_to_SI s.

End Units.

(** A small solution, to run the methods on: one variation with the
    sweep ["Freq"] of one value and the expression ["S11"]. *)
Definition toy_engine : Engine :=
  fun q =>
    match q with
    | GetSweepValues _ => [1%R]
    | GetRealDataValues _ => [3%R]
    | GetImagDataValues _ => [4%R]
    end.

Definition toy_variation : Variation :=
  {| engine := toy_engine; GetSweepNames := ["Freq"];
     GetDataExpressions := ["S11"];
     GetSweepUnits := fun _ => Some "GHz";
     imaginary_part_available := fun _ => true;
     GetDataUnits := fun _ => "" |}.

(** [SolutionData([toy_variation])] *)
Definition toy_solution : State :=
  {| _original_data := [toy_variation];
     number_of_variations := 1;
     _nominal_variation := Some toy_variation;
     _sweeps := [("Freq", [1%R])];
     _sweeps_names := ["Freq"];
     _primary_sweep := "Freq";
     nominal_sweeps := [("Freq", Some 1%R)];
     units_sweeps := [("Freq", "GHz")];
     solutions_data_real := Some [("S11", [([Some 1%R], 3%R)])];
     solutions_data_imag := [("S11", [([Some 1%R], 4%R)])];
     solutions_data_mag :=
       [("S11", [([Some 1%R], sqrt (3 * 3 + 4 * 4)%R)])];
     units_data := [("S11", "")];
     printed := [] |}.

End SolutionData.

(** ** pyaedt/modeler/Object3d.py: [EdgeTypePrimitive] *)

Module Object3d.
Import Py.
Local Open Scope py_scope.

(** The positional arguments handed to the editor: strings, integers and
    nested lists of them. *)
Inductive PyVal : Type :=
| PStr (s : string)
| PInt (z : Z)
| PList (l : list PyVal).

(** A dimension argument as the caller gives it: [None], a number or an
    expression string such as ["5mm"]. *)
Inductive Value : Type :=
| VNone
| VInt (z : Z)
| VFloat (x : R)
| VStr (s : string).

(** Python truth value of an argument ([not right_distance]). *)
Definition truthy (v : Value) : bool :=
  match v with
  | VNone => false
  | VInt z => negb (Z.eqb z 0)
  | VFloat x => if Req_dec_T x 0 then false else true
  | VStr s => negb (bool_decide (s = ""))
  end.

(** The two classes that inherit [EdgeTypePrimitive]. *)
Inductive PrimitiveClass : Type :=
| VertexPrimitive
| EdgePrimitive.

(** A vertex or an edge: [self.id]; [self._parent] is the one
    [Object3d] of the store below. *)
Record Primitive : Type := {
  cls : PrimitiveClass;
  id : Z
}.

(** The calls the wrapper makes on [oEditor] and [oDesign]. *)
Inductive Call : Type :=
| CFillet (selections parameters : PyVal)
| CChamfer (selections parameters : PyVal)
| CGetObjectsInGroup (group : string)
| CUndo.

(** [True] for the two geometry operations. *)
Definition is_operation (c : Call) : bool :=
  match c with
  | CFillet _ _ | CChamfer _ _ => true
  | _ => false
  end.

Section Editor.

(** The external editor: its state is opaque, and so is what its methods
    do with it. *)
Variable Editor : Type.
Variable Fillet : Editor -> PyVal -> PyVal -> Editor.
Variable Chamfer : Editor -> PyVal -> PyVal -> Editor.
Variable GetObjectsInGroup : Editor -> string -> list string.
Variable Undo : Editor -> Editor.

(** [self._parent._parent] is the modeler's primitives object, whose class
    is not part of the sources at hand: its [_arg_with_dim] method and its
    [solid_names], [sheet_names] and [line_names] lists are taken as
    given. *)
Variable _arg_with_dim : Value -> string.
Variable solid_names sheet_names line_names : list string.

(** Python's [str] on a number. *)
Variable str : Value -> string.

(** The store: the parent [Object3d] ([_m_name], and [_object_type] once
    it has been assigned), the editor, the calls made on it so far, and
    the error messages given to the messenger. *)
Record State : Type := {
  _m_name : string;
  _object_type : option string;
  oeditor : Editor;
  calls : list Call;
  error_messages : list string
}.

Definition set_object_type (t : string) (s : State) : State :=
  {| _m_name := _m_name s; _object_type := Some t; oeditor := oeditor s;
     calls := calls s; error_messages := error_messages s |}.

Definition call_editor (c : Call) (step : Editor -> Editor) (s : State)
  : State :=
  {| _m_name := _m_name s; _object_type := _object_type s;
     oeditor := step (oeditor s);
     calls := calls s ++ [c]; error_messages := error_messages s |}.

(** [self._parent._messenger.add_error_message(text)] *)
Definition add_error_message (text : string) : M State unit :=
  modify (fun s =>
    {| _m_name := _m_name s; _object_type := _object_type s;
       oeditor := oeditor s; calls := calls s;
       error_messages := error_messages s ++ [text] |}).

(** [Object3d.name] *)
Definition name : M State string :=
  s <- get ;; ret (_m_name s).

(** [Object3d.object_type]: assigns [_object_type] when the name is in one
    of the three lists, then reads the attribute, which raises when it was
    never assigned. *)
Definition object_type : M State string :=
  s <- get ;;
  (if bool_decide (_m_name s ∈ solid_names) then
     modify (set_object_type "Solid")
   else if bool_decide (_m_name s ∈ sheet_names) then
     modify (set_object_type "Sheet")
   else if bool_decide (_m_name s ∈ line_names) then
     modify (set_object_type "Line")
   else ret tt) ;;;
  s' <- get ;;
  match _object_type s' with
  | Some t => ret t
  | None => raise AttributeError
  end.

(** [Object3d.is3d] *)
Definition is3d : M State bool :=
  t <- object_type ;;
  ret (bool_decide (t = "Solid")).

(** [self._parent.m_Editor.Fillet(vArg1, vArg2)] *)
Definition m_Editor_Fillet (vArg1 vArg2 : PyVal) : M State unit :=
  modify (call_editor (CFillet vArg1 vArg2) (fun e => Fillet e vArg1 vArg2)).

(** [self._parent.m_Editor.Chamfer(vArg1, vArg2)] *)
Definition m_Editor_Chamfer (vArg1 vArg2 : PyVal) : M State unit :=
  modify (call_editor (CChamfer vArg1 vArg2) (fun e => Chamfer e vArg1 vArg2)).

(** [list(self._parent.m_Editor.GetObjectsInGroup(group))] *)
Definition m_Editor_GetObjectsInGroup (group : string)
  : M State (list string) :=
  modify (call_editor (CGetObjectsInGroup group) (fun e => e)) ;;;
  s <- get ;;
  ret (GetObjectsInGroup (oeditor s) group).

(** [self._parent.odesign.Undo()] *)
Definition odesign_Undo : M State unit :=
  modify (call_editor CUndo Undo).

(** [['NAME:Selections', 'Selections:=', name, 'NewPartsModelFlag:=',
      'Model']] *)
Definition selections (parent_name : string) : PyVal :=
  PList [PStr "NAME:Selections"; PStr "Selections:="; PStr parent_name;
         PStr "NewPartsModelFlag:="; PStr "Model"].

Definition id_list (ids : list Z) : PyVal := PList (List.map PInt ids).

(** [["NAME:FilletParameters", 'Edges:=', edges, 'Vertices:=', vertices,
      'Radius:=', radius, 'Setback:=', setback]] *)
Definition fillet_parameters
    (edge_id_list vertex_id_list : list Z) (radius setback : Value) : PyVal :=
  PList [PStr "NAME:FilletParameters";
         PStr "Edges:="; id_list edge_id_list;
         PStr "Vertices:="; id_list vertex_id_list;
         PStr "Radius:="; PStr (_arg_with_dim radius);
         PStr "Setback:="; PStr (_arg_with_dim setback)].

(** [["NAME:Parameters", vArg2]] *)
Definition parameters (vArg2 : PyVal) : PyVal :=
  PList [PStr "NAME:Parameters"; vArg2].

(** The end that [fillet] and [chamfer] share: look for the parent in the
    "UnClassified" group, and undo when it is there. *)
Definition check_unclassified (message : string) : M State bool :=
  n <- name ;;
  unclassified <- m_Editor_GetObjectsInGroup "UnClassified" ;;
  if bool_decide (n ∈ unclassified) then
    odesign_Undo ;;;
    add_error_message message ;;;
    ret false
  else ret true.

(** The choice of [edge_id_list] and [vertex_id_list]; [None] stands for
    the early [return False] on an edge of an object that is not 3D. *)
Definition id_lists (self : Primitive) (message : string)
  : M State (option (list Z * list Z)) :=
  match cls self with
  | VertexPrimitive => ret (Some ([], [id self]))
  | EdgePrimitive =>
      b <- is3d ;;
      if b then ret (Some ([id self], []))
      else add_error_message message ;;; ret None
  end.

(** The body of [EdgeTypePrimitive.fillet]. *)
Definition fillet_body (self : Primitive) (radius setback : Value)
  : M State bool :=
  lists <- id_lists self "Filet is possible only on a vertex in 2D designs." ;;
  match lists with
  | None => ret false
  | Some (edge_id_list, vertex_id_list) =>
      n <- name ;;
      let vArg1 := selections n in
      let vArg2 :=
        fillet_parameters edge_id_list vertex_id_list radius setback in
      m_Editor_Fillet vArg1 (parameters vArg2) ;;;
      check_unclassified
        "Operation failed, generating an unclassified object. Check and retry."
  end.

(** The tail of ["NAME:ChamferParameters"] for each [chamfer_type];
    [None] for a type outside 0..3. *)
Definition chamfer_type_arguments
    (right_distance angle : Value) (chamfer_type : Z)
  : option (list PyVal) :=
  if Z.eqb chamfer_type 0 then
    Some [PStr "RightDistance:="; PStr (_arg_with_dim right_distance);
          PStr "ChamferType:="; PStr "Symmetric"]
  else if Z.eqb chamfer_type 1 then
    Some [PStr "RightDistance:="; PStr (_arg_with_dim right_distance);
          PStr "ChamferType:="; PStr "Left Distance-Right Distance"]
  else if Z.eqb chamfer_type 2 then
    Some [PStr "Angle:="; PStr (str angle +:+ "deg");
          PStr "ChamferType:="; PStr "Left Distance-Right Distance"]
  else if Z.eqb chamfer_type 3 then
    Some [PStr "LeftDistance:="; PStr (str angle +:+ "deg");
          PStr "RightDistance:="; PStr (_arg_with_dim right_distance);
          PStr "ChamferType:="; PStr "Right Distance-Angle"]
  else None.

(** The body of [EdgeTypePrimitive.chamfer]. *)
Definition chamfer_body
    (self : Primitive) (left_distance right_distance angle : Value)
    (chamfer_type : Z) : M State bool :=
  lists <- id_lists self "chamfer is possible only on Vertex in 2D Designs " ;;
  match lists with
  | None => ret false
  | Some (edge_id_list, vertex_id_list) =>
      n <- name ;;
      let vArg1 := selections n in
      let head :=
        [PStr "NAME:ChamferParameters";
         PStr "Edges:="; id_list edge_id_list;
         PStr "Vertices:="; id_list vertex_id_list;
         PStr "LeftDistance:="; PStr (_arg_with_dim left_distance)] in
      let right_distance :=
        if truthy right_distance then right_distance else left_distance in
      match chamfer_type_arguments right_distance angle chamfer_type with
      | Some tail =>
          m_Editor_Chamfer vArg1 (parameters (PList (head ++ tail))) ;;;
          check_unclassified
            "Operation Failed generating Unclassified object. Check and retry"
      | None =>
          add_error_message
            "Wrong Type Entered. Type must be integer from 0 to 3" ;;;
          ret false
      end
  end.

(** Modelled from the spec: the decorator [aedt_exception_handler], which
    is imported from the package root and is not part of the sources at
    hand.  It behaves as the docstrings of the decorated methods say
    ("True when successful, False when failed"): an exception of the body
    is caught and [False] returned. *)
Definition aedt_exception_handler (body : M State bool) : M State bool :=
  try_except body (fun _ => ret false).

(** [EdgeTypePrimitive.fillet], as decorated. *)
Definition fillet (self : Primitive) (radius setback : Value) : M State bool :=
  aedt_exception_handler (fillet_body self radius setback).

(** [EdgeTypePrimitive.chamfer], as decorated. *)
Definition chamfer
    (self : Primitive) (left_distance right_distance angle : Value)
    (chamfer_type : Z) : M State bool :=
  aedt_exception_handler
    (chamfer_body self left_distance right_distance angle chamfer_type).

(** The two operations, with their arguments. *)
Inductive Operation : Type :=
| OpFillet (radius setback : Value)
| OpChamfer (left_distance right_distance angle : Value) (chamfer_type : Z).

Definition run_operation (self : Primitive) (op : Operation) : M State bool :=
  match op with
  | OpFillet radius setback => fillet self radius setback
  | OpChamfer left_distance right_distance angle chamfer_type =>
      chamfer self left_distance right_distance angle chamfer_type
  end.

(** What a call does to the editor. *)
Definition apply_call (c : Call) (e : Editor) : Editor :=
  match c with
  | CFillet vArg1 vArg2 => Fillet e vArg1 vArg2
  | CChamfer vArg1 vArg2 => Chamfer e vArg1 vArg2
  | CGetObjectsInGroup _ => e
  | CUndo => Undo e
  end.

(** The engine's [Undo] takes back the last geometry operation. *)
Definition undo_reverts : Prop :=
  forall (e : Editor) (c : Call),
    is_operation c = true -> Undo (apply_call c e) = e.

End Editor.

Arguments _m_name {Editor} s.
Arguments _object_type {Editor} s.
Arguments oeditor {Editor} s.
Arguments calls {Editor} s.
Arguments error_messages {Editor} s.

(** A small concrete editor, to run the wrapper on: its state is the stack
    of the objects operated on; an operation on the object ["Bad"] leaves
    it unclassified; [Undo] pops the last operation. *)
Module Toy.

Definition Editor : Type := list string.

Definition target (vArg1 : PyVal) : string :=
  match vArg1 with
  | PList (_ :: _ :: PStr n :: _) => n
  | _ => ""
  end.

Definition operate (e : Editor) (vArg1 vArg2 : PyVal) : Editor :=
  target vArg1 :: e.

Definition GetObjectsInGroup (e : Editor) (group : string) : list string :=
  if bool_decide (group = "UnClassified")
  then List.filter (fun n => bool_decide (n = "Bad")) e
  else [].

Definition Undo (e : Editor) : Editor := List.tl e.

Definition _arg_with_dim (v : Value) : string :=
  match v with
  | VStr s => s
  | VInt 1 => "1mm"
  | _ => "0mm"
  end.

Definition str (v : Value) : string :=
  match v with
  | VStr s => s
  | _ => "45"
  end.

Definition state (n : string) : State Editor :=
  {| _m_name := n; _object_type := None; oeditor := [];
     calls := []; error_messages := [] |}.

(** The modeler of the examples: two solids and a sheet. *)
Definition solid_names : list string := ["Box"; "Bad"].
Definition sheet_names : list string := ["Sheet1"].
Definition line_names : list string := [].

Definition vertex7 : Primitive := {| cls := VertexPrimitive; id := 7 |}.
Definition edge3 : Primitive := {| cls := EdgePrimitive; id := 3 |}.

(** [fillet] and [chamfer] on the toy editor, from the fresh state of the
    object [n]. *)
Definition run (n : string) (self : Primitive) (op : Operation)
  : result bool * State Editor :=
  run_operation Editor operate operate GetObjectsInGroup Undo _arg_with_dim
    solid_names sheet_names line_names str self op (state n).

End Toy.

End Object3d.

(** ** pyaedt/modeler/Object3d.py: the colour and the transparency of
    [Object3d] *)

Module Object3dColor.
Import Object3d.

(** The exceptions of the two setters and of the getter. *)
Inductive error : Type :=
| ValueError
| TypeError
| IndexError.

(** [clamp = lambda n, minn, maxn: max(min(maxn, n), minn)] *)
Definition clamp (n minn maxn : Z) : Z := Z.max (Z.min maxn n) minn.

(** The module-level dictionary [rgb_color_codes]. *)
Definition rgb_color_codes : list (string * list Z) :=
  [("Black", [0; 0; 0]); ("Green", [0; 128; 0]); ("White", [255; 255; 255]);
   ("Red", [255; 0; 0]); ("Lime", [0; 255; 0]); ("Blue", [0; 0; 255]);
   ("Yellow", [255; 255; 0]); ("Cyan", [0; 255; 255]);
   ("Magenta", [255; 0; 255]); ("Silver", [192; 192; 192]);
   ("Gray", [128; 128; 128]); ("Maroon", [128; 0; 0]);
   ("Olive", [128; 128; 0]); ("Purple", [128; 0; 128]);
   ("Teal", [0; 128; 128]); ("Navy", [0; 0; 128]);
   ("copper", [184; 115; 51]); ("stainless steel", [224; 223; 219])]%Z.

(** [rgb_color_codes[key]]; [None] stands for [KeyError]. *)
Fixpoint lookup_code (key : string) (codes : list (string * list Z))
  : option (list Z) :=
  match codes with
  | [] => None
  | (k, t) :: codes' =>
      if bool_decide (k = key) then Some t else lookup_code key codes'
  end.

(** What is assigned to [color]: a string, or a sequence of values. *)
Inductive ColorValue : Type :=
| CStr (s : string)
| CSeq (l : list Value).

(** The store: the attributes [_m_name], [_color] and [_transparency] of
    the object, the argument lists given to [_change_property], and the
    warnings given to the messenger. *)
Record State : Type := {
  _m_name : string;
  _color : option (Z * Z * Z);
  _transparency : option R;
  changes : list (list string);
  warning_messages : list string
}.

Section Builtins.

(** Python's builtins on the values at hand: [int] on a float and on a
    string, [float] on a string ([None] stands for [ValueError]), [str] on
    a float, the chain [replace(')', '').replace('(', '').split()] on a
    string, and [format] on the value assigned to [color]. *)
Variable int_of_float : R -> Z.
Variable int_of_str : string -> option Z.
Variable float_of_str : string -> option R.
Variable str_of_float : R -> string.
Variable parse_string : string -> list string.
Variable format_value : ColorValue -> string.

(** [int(x)] *)
Definition int (x : Value) : Z + error :=
  match x with
  | VNone => inr TypeError
  | VInt z => inl z
  | VFloat f => inl (int_of_float f)
  | VStr s =>
      match int_of_str s with
      | Some z => inl z
      | None => inr ValueError
      end
  end.

(** [float(x)] *)
Definition float (x : Value) : R + error :=
  match x with
  | VNone => inr TypeError
  | VInt z => inl (IZR z)
  | VFloat f => inl f
  | VStr s =>
      match float_of_str s with
      | Some f => inl f
      | None => inr ValueError
      end
  end.

(** [[int(x) for x in l]] *)
Fixpoint ints (l : list Value) : list Z + error :=
  match l with
  | [] => inl []
  | x :: l' =>
      match int x with
      | inr e => inr e
      | inl z =>
          match ints l' with
          | inr e => inr e
          | inl zs => inl (z :: zs)
          end
      end
  end.

(** The first half of the setter of [color]: the value of [color_tuple]
    when the [if color_tuple:] test is reached.  A [ValueError] is caught
    for a sequence only; for a string it comes from the handler of
    [KeyError] and goes through. *)
Definition color_tuple (color_value : ColorValue) : option (list Z) + error :=
  match color_value with
  | CStr s =>
      match lookup_code s rgb_color_codes with
      | Some t => inl (Some t)
      | None =>
          let parse := parse_string s in
          if Nat.eqb (length parse) 3 then
            match ints (List.map VStr parse) with
            | inl t => inl (Some t)
            | inr e => inr e
            end
          else inl None
      end
  | CSeq l =>
      match ints l with
      | inl t => inl (Some t)
      | inr ValueError => inl None
      | inr e => inr e
      end
  end.

(** [self._change_property(vPropChange)]: the method is decorated with
    [aedt_exception_handler], so it gives the list to the parent and never
    raises. *)
Definition _change_property (vPropChange : list string) (s : State) : State :=
  {| _m_name := _m_name s; _color := _color s;
     _transparency := _transparency s;
     changes := changes s ++ [vPropChange];
     warning_messages := warning_messages s |}.

(** [self._parent._messenger.add_warning_message(msg_text)] *)
Definition add_warning_message (msg_text : string) (s : State) : State :=
  {| _m_name := _m_name s; _color := _color s;
     _transparency := _transparency s; changes := changes s;
     warning_messages := warning_messages s ++ [msg_text] |}.

Definition set_color (c : Z * Z * Z) (s : State) : State :=
  {| _m_name := _m_name s; _color := Some c;
     _transparency := _transparency s; changes := changes s;
     warning_messages := warning_messages s |}.

Definition set_transparency (t : R) (s : State) : State :=
  {| _m_name := _m_name s; _color := _color s;
     _transparency := Some t; changes := changes s;
     warning_messages := warning_messages s |}.

(** The setter of [Object3d.color].  An empty tuple is false in
    [if color_tuple:]; the indexing of a tuple of one or two elements
    raises [IndexError], which [except TypeError] does not catch. *)
Definition color_setter (color_value : ColorValue) (s : State)
  : (unit + error) * State :=
  match color_tuple color_value with
  | inr e => (inr e, s)
  | inl (Some (c :: t)) =>
      let color_tuple := c :: t in
      match color_tuple !! 0%nat, color_tuple !! 1%nat,
            color_tuple !! 2%nat with
      | Some c0, Some c1, Some c2 =>
          let R := clamp c0 0 255 in
          let G := clamp c1 0 255 in
          let B := clamp c2 0 255 in
          let vColor :=
            ["NAME:Color"; "R:="; pretty R; "G:="; pretty G;
             "B:="; pretty B] in
          (inl tt, set_color (R, G, B) (_change_property vColor s))
      | _, _, _ => (inr IndexError, s)
      end
  | inl _ =>
      let msg_text :=
        "Invalid color input " +:+ format_value color_value +:+
        " for object " +:+ _m_name s +:+ "." in
      (inl tt, add_warning_message msg_text s)
  end.

(** The getter of [Object3d.color]: [valid_properties] is the list the
    editor gave for the object, [color] the editor's answer to
    [GetPropertyValue]. *)
Definition color (valid_properties : list string) (color : Value) (s : State)
  : (option (Z * Z * Z) + error) * State :=
  if bool_decide ("Color" ∈ valid_properties) then
    if truthy color then
      match int color with
      | inl c =>
          let b := Z.land (Z.shiftr c 16) 255 in
          let g := Z.land (Z.shiftr c 8) 255 in
          let r := Z.land c 255 in
          (inl (Some (r, g, b)), set_color (r, g, b) s)
      | inr e => (inr e, s)
      end
    else (inl (Some (0, 195, 255)%Z), set_color (0, 195, 255)%Z s)
  else (inl None, s).

(** The setter of [Object3d.transparency]. *)
Definition transparency_setter (T : Value) (s : State)
  : (unit + error) * State :=
  let after (trans_float : R) :=
    let vTrans := ["NAME:Transparent"; "Value:="; str_of_float trans_float] in
    (inl tt, set_transparency trans_float (_change_property vTrans s)) in
  match float T with
  | inl trans_float =>
      if Rlt_dec trans_float 0 then after 0%R
      else if Rgt_dec trans_float 1 then after 1%R
      else after trans_float
  | inr ValueError => after 0%R
  | inr e => (inr e, s)
  end.

End Builtins.

(** The [int] of a small interpreter, to run the setters on: it reads
    ["7"] only. *)
Definition toy_int_of_str (s : string) : option Z :=
  if bool_decide (s = "7") then Some 7%Z else None.

End Object3dColor.

(** ** pyaedt/modeler/Object3d.py: [Padstack] *)

Module Padstack.
Import Object3d.

(** The nested argument list of [pads_args]. *)
Inductive Arg : Type :=
| AStr (s : string)
| AInt (z : Z)
| ABool (b : bool)
| AVal (v : Value)
| AList (l : list Arg).

(** [Padstack.PDSHole] *)
Record PDSHole : Type := {
  shape : string;
  sizes : list Value;
  x : Value;
  y : Value;
  rot : Value
}.

(** [PDSHole()], with the defaults of its [__init__]. *)
Definition PDSHole_default : PDSHole :=
  {| shape := "Cir"; sizes := [VStr "1mm"]; x := VStr "0mm";
     y := VStr "0mm"; rot := VStr "0deg" |}.

(** [self.PDSHole(holetype="None", sizes=[])] *)
Definition PDSHole_none : PDSHole :=
  {| shape := "None"; sizes := []; x := VStr "0mm"; y := VStr "0mm";
     rot := VStr "0deg" |}.

(** [Padstack.PDSLayer]; [_pad], [_antipad] and [_thermal] are [None]
    until their setters run. *)
Record PDSLayer : Type := {
  layername : string;
  id : Z;
  _pad : option PDSHole;
  _antipad : option PDSHole;
  _thermal : option PDSHole;
  connectionx : Value;
  connectiony : Value;
  connectiondir : Value
}.

(** The setters of [pad], [antipad] and [thermal]: a hole object is true
    in [if value:], [None] is not. *)
Definition hole_setter (value : option PDSHole) : option PDSHole :=
  match value with
  | Some hole => Some hole
  | None => Some PDSHole_none
  end.

(** The calls on [self.padstackmgr]. *)
Inductive ManagerCall : Type :=
| Add (args : Arg)
| Edit (name : string) (args : Arg)
| Remove (name : string).

(** The attributes of a [Padstack].  [layers] is a dictionary that keeps
    the order in which its keys were inserted; [padstackmgr] stands for
    the calls made on the manager. *)
Record State : Type := {
  name : string;
  padstackmgr : list ManagerCall;
  units : string;
  lib : string;
  mat : string;
  plating : Z;
  layers : list (string * PDSLayer);
  hole : PDSHole;
  holerange : string;
  solder_shape : string;
  solder_placement : string;
  solder_rad : string;
  sb2 : string;
  solder_mat : string;
  layerid : Z
}.

(** [Padstack.__init__] *)
Definition __init__ (name units : string) : State :=
  {| name := name; padstackmgr := []; units := units; lib := "";
     mat := "copper"; plating := 100; layers := [];
     hole := PDSHole_default; holerange := "UTL"; solder_shape := "None";
     solder_placement := "abv"; solder_rad := "0mm"; sb2 := "0mm";
     solder_mat := "solder"; layerid := 1 |}.

(** [self.layers[layername] = new_layer; self.layerid += 1], for a key
    that is not in the dictionary. *)
Definition store_layer (layername : string) (new_layer : PDSLayer)
    (s : State) : State :=
  {| name := name s; padstackmgr := padstackmgr s; units := units s;
     lib := lib s; mat := mat s; plating := plating s;
     layers := layers s ++ [(layername, new_layer)];
     hole := hole s; holerange := holerange s;
     solder_shape := solder_shape s;
     solder_placement := solder_placement s; solder_rad := solder_rad s;
     sb2 := sb2 s; solder_mat := solder_mat s;
     layerid := (layerid s + 1)%Z |}.

(** The arguments of [add_layer]. *)
Record LayerArguments : Type := {
  pad_hole : option PDSHole;
  antipad_hole : option PDSHole;
  thermal_hole : option PDSHole;
  connx : Value;
  conny : Value;
  conndir : Value
}.

(** [Padstack.add_layer] *)
Definition add_layer (layername : string) (a : LayerArguments) (s : State)
  : bool * State :=
  if bool_decide (layername ∈ List.map fst (layers s)) then (false, s)
  else
    let new_layer :=
      {| layername := layername; id := layerid s;
         _pad := hole_setter (pad_hole a);
         _antipad := hole_setter (antipad_hole a);
         _thermal := hole_setter (thermal_hole a);
         connectionx := connx a; connectiony := conny a;
         connectiondir := conndir a |} in
    (true, store_layer layername new_layer s).

Section Builtins.

(** Python's [float] on a string ([None] stands for [ValueError]) and
    [str] on a float. *)
Variable float_of_str : string -> option R.
Variable str_of_float : R -> string.

(** [_dim_arg]: [str(float(value)) + units], and [value] itself when
    [float] raises. *)
Definition _dim_arg (value : Value) (units : string) : Value :=
  match Object3dColor.float float_of_str value with
  | inl val => VStr (str_of_float val +:+ units)
  | inr _ => value
  end.

(** The test of the comprehension in [add_hole],
    [type(i) is int or float]: the right operand of [or] is the class
    [float], which is true. *)
Definition size_is_kept (i : Value) : bool :=
  match i with
  | VInt _ => true
  | _ => true
  end.

(** [Padstack.add_hole] *)
Definition add_hole (holetype : string) (sizes : list Value)
    (xpos ypos rot : Value) (s : State) : PDSHole :=
  {| shape := holetype;
     sizes :=
       List.map (fun i => _dim_arg i (units s))
         (List.filter size_is_kept sizes);
     x := _dim_arg xpos (units s);
     y := _dim_arg ypos (units s);
     rot := _dim_arg rot "deg" |}.

End Builtins.

(** The list [pads_args] makes of a hole. *)
Definition hole_args (h : PDSHole) : Arg :=
  AList [AStr "shp:="; AStr (shape h);
         AStr "Szs:="; AList (List.map AVal (sizes h));
         AStr "X:="; AVal (x h); AStr "Y:="; AVal (y h);
         AStr "R:="; AVal (rot h)].

(** [arg4] of [pads_args] for the key [el]; [None] stands for the
    [AttributeError] on a hole that is still [None]. *)
Definition layer_args (el : string) (layer : PDSLayer) : option Arg :=
  match _pad layer, _antipad layer, _thermal layer with
  | Some pad, Some antipad, Some thermal =>
      Some (AList [AStr "NAME:lgm";
                   AStr "lay:="; AStr (layername layer);
                   AStr "id:="; AStr el;
                   AStr "pad:="; hole_args pad;
                   AStr "ant:="; hole_args antipad;
                   AStr "thm:="; hole_args thermal;
                   AStr "X:="; AVal (connectionx layer);
                   AStr "Y:="; AVal (connectiony layer);
                   AStr "dir:="; AVal (connectiondir layer)])
  | _, _, _ => None
  end.

(** The loop [for el in self.layers]. *)
Fixpoint layers_args (ls : list (string * PDSLayer)) : option (list Arg) :=
  match ls with
  | [] => Some []
  | (el, layer) :: ls' =>
      match layer_args el layer, layers_args ls' with
      | Some arg4, Some rest => Some (arg4 :: rest)
      | _, _ => None
      end
  end.

(** [Padstack.pads_args] *)
Definition pads_args (s : State) : option Arg :=
  match layers_args (layers s) with
  | Some lgm =>
      let arg3 := AList (AStr "NAME:pds" :: lgm) in
      let arg2 :=
        AList [AStr "NAME:psd"; AStr "nam:="; AStr (name s);
               AStr "lib:="; AStr ""; AStr "mat:="; AStr (mat s);
               AStr "plt:="; AInt (plating s);
               arg3;
               AStr "hle:="; hole_args (hole s);
               AStr "hRg:="; AStr (holerange s);
               AStr "sbsh:="; AStr (solder_shape s);
               AStr "sbpl:="; AStr (solder_placement s);
               AStr "sbr:="; AStr (solder_rad s);
               AStr "sb2:="; AStr (sb2 s);
               AStr "sbn:="; AStr (solder_mat s)] in
      Some (AList [AStr ("NAME:" +:+ name s); AStr "ModTime:=";
                   AInt 1594101963; AStr "Library:="; AStr "";
                   AStr "ModSinceLib:="; ABool false;
                   AStr "LibLocation:="; AStr "Project";
                   arg2; AStr "ppl:="; AList []])
  | None => None
  end.

(** A sequence of [add_layer] calls on one padstack. *)
Fixpoint add_layers (calls : list (string * LayerArguments)) (s : State)
  : State :=
  match calls with
  | [] => s
  | (layername, a) :: calls' =>
      add_layers calls' (snd (add_layer layername a s))
  end.

(** [seq]-like list of the integers [first], [first + 1], ... *)
Fixpoint ids_from (first : Z) (n : nat) : list Z :=
  match n with
  | O => []
  | S n' => first :: ids_from (first + 1) n'
  end.

(** What [add_layer] keeps: the keys are distinct and are the names of
    their layers, the ids count up from 1 in the order of insertion, the
    next id is one more than the number of layers, and the three holes of
    every layer are set. *)
Definition layers_invariant (s : State) : Prop :=
  NoDup (List.map fst (layers s))
  /\ Forall (fun p => layername (snd p) = fst p) (layers s)
  /\ List.map (fun p => id (snd p)) (layers s) =
     ids_from 1 (length (layers s))
  /\ layerid s = (1 + Z.of_nat (length (layers s)))%Z
  /\ Forall (fun p => _pad (snd p) <> None /\ _antipad (snd p) <> None
                      /\ _thermal (snd p) <> None) (layers s).

End Padstack.

(** ** pyaedt/modeler/Object3d.py: [CircuitComponent] *)

Module CircuitComponent.
Import Padstack.

(** [s[n:]] *)
Fixpoint slice_from (n : nat) (s : string) : string :=
  match n, s with
  | O, _ => s
  | S n', String _ s' => slice_from n' s'
  | S _, EmptyString => EmptyString
  end.

(** The calls on [self.m_Editor]. *)
Inductive Call : Type :=
| CGetProperties (tab server : string)
| CChangeProperty (vOut : Arg).

(** What [change_property] returns: [False], or what
    [retry_ntimes(10, self.m_Editor.ChangeProperty, vOut)] returned. *)
Inductive Returned : Type :=
| RFalse
| RChangeProperty (vOut : Arg).

Section Editor.

(** The external editor: its state is opaque, and so is what its methods
    do with it. *)
Variable Editor : Type.
Variable GetProperties : Editor -> string -> string -> list string.
Variable ChangeProperty : Editor -> Arg -> Editor.

(** The attributes of a component that the methods below read (the name
    is the string it has once the component was placed), the editor, and
    the calls made on it so far. *)
Record State : Type := {
  name : string;
  id : Z;
  schematic_id : Z;
  mirror : bool;
  usesymbolcolor : bool;
  tabname : string;
  oeditor : Editor;
  calls : list Call
}.

(** [CircuitComponent.composed_name] *)
Definition composed_name (s : State) : string :=
  if negb (Z.eqb (id s) 0) then
    name s +:+ ";" +:+ pretty (id s) +:+ ";" +:+ pretty (schematic_id s)
  else name s +:+ ";" +:+ pretty (schematic_id s).

(** [list(self.m_Editor.GetProperties(tab, self.composed_name))] *)
Definition m_Editor_GetProperties (tab : string) (s : State)
  : list string * State :=
  (GetProperties (oeditor s) tab (composed_name s),
   {| name := name s; id := id s; schematic_id := schematic_id s;
      mirror := mirror s; usesymbolcolor := usesymbolcolor s;
      tabname := tabname s; oeditor := oeditor s;
      calls := calls s ++ [CGetProperties tab (composed_name s)] |}).

(** [retry_ntimes(10, self.m_Editor.ChangeProperty, vOut)]: the helper is
    imported from the package root and is not part of the sources at
    hand; the request it is given is recorded as one call. *)
Definition m_Editor_ChangeProperty (vOut : Arg) (s : State) : State :=
  {| name := name s; id := id s; schematic_id := schematic_id s;
     mirror := mirror s; usesymbolcolor := usesymbolcolor s;
     tabname := tabname s; oeditor := ChangeProperty (oeditor s) vOut;
     calls := calls s ++ [CChangeProperty vOut] |}.

(** The [if]/[elif] chain of [change_property] that chooses [tabname];
    a tab is asked for its properties only when the tabs before it do not
    list the property. *)
Definition choose_tab (property : string) (s : State)
  : option string * State :=
  let (props, s1) := m_Editor_GetProperties (tabname s) s in
  if bool_decide (property ∈ props) then (Some (tabname s), s1)
  else
    let (props, s2) := m_Editor_GetProperties "PassedParameterTab" s1 in
    if bool_decide (property ∈ props) then (Some "PassedParameterTab", s2)
    else
      let (props, s3) := m_Editor_GetProperties "BaseElementTab" s2 in
      if bool_decide (property ∈ props) then (Some "BaseElementTab", s3)
      else (None, s3).

(** [["NAME:PropServers"] + names_list], or the composed name when
    [names_list] is [None] or empty. *)
Definition prop_servers (names_list : option (list string)) (s : State)
  : Arg :=
  match names_list with
  | Some (el :: names) =>
      AList (AStr "NAME:PropServers" :: List.map AStr (el :: names))
  | _ => AList [AStr "NAME:PropServers"; AStr (composed_name s)]
  end.

(** [CircuitComponent.change_property]; [vPropChange] is the list
    [[head] + rest], and [head] a string.  An empty tab name is false in
    [if tabname:]. *)
Definition change_property
    (head : string) (rest : list Arg) (names_list : option (list string))
    (s : State) : Returned * State :=
  let vPropChange := AList (AStr head :: rest) in
  let vChangedProps := AList [AStr "NAME:ChangedProps"; vPropChange] in
  let vPropServers := prop_servers names_list s in
  let (tabname, s') := choose_tab (slice_from 5 head) s in
  match tabname with
  | Some tabname =>
      if bool_decide (tabname = "") then (RFalse, s')
      else
        let vGeo3dlayout :=
          AList [AStr ("NAME:" +:+ tabname); vPropServers; vChangedProps] in
        let vOut := AList [AStr "NAME:AllTabs"; vGeo3dlayout] in
        (RChangeProperty vOut, m_Editor_ChangeProperty vOut s')
  | None => (RFalse, s')
  end.

(** [CircuitComponent.set_mirror]; [mirror_value] is [None] or a
    Boolean. *)
Definition set_mirror (mirror_value : option bool) (s : State) : State :=
  let mirror_value :=
    match mirror_value with
    | Some true => true
    | _ => mirror s
    end in
  snd (change_property "NAME:Component Mirror"
         [AStr "Value:="; ABool mirror_value] None s).

(** [CircuitComponent.set_use_symbol_color] *)
Definition set_use_symbol_color (symbol_color : option bool) (s : State)
  : bool * State :=
  let symbol_color :=
    match symbol_color with
    | Some true => true
    | _ => usesymbolcolor s
    end in
  (true,
   snd (change_property "NAME:Use Symbol Color"
          [AStr "Value:="; ABool symbol_color] None s)).

(** [CircuitComponent.set_color] *)
Definition set_color (R G B : Z) (s : State) : bool * State :=
  let s1 := set_mirror (Some true) s in
  (true,
   snd (change_property "NAME:Component Color"
          [AStr "R:="; AInt R; AStr "G:="; AInt G; AStr "B:="; AInt B]
          None s1)).

End Editor.

Arguments name {Editor} s.
Arguments id {Editor} s.
Arguments schematic_id {Editor} s.
Arguments mirror {Editor} s.
Arguments usesymbolcolor {Editor} s.
Arguments tabname {Editor} s.
Arguments oeditor {Editor} s.
Arguments calls {Editor} s.

(** A small concrete editor, to run the component on: its state is the
    list of the requests it was given, and it lists ["Component Mirror"]
    and ["Use Symbol Color"] in the tab ["BaseElementTab"] only. *)
Definition toy_GetProperties (e : list Arg) (tab server : string)
  : list string :=
  if bool_decide (tab = "BaseElementTab")
  then ["Component Mirror"; "Use Symbol Color"]
  else [].

Definition toy_ChangeProperty (e : list Arg) (vOut : Arg) : list Arg :=
  e ++ [vOut].

(** [CircuitComponent()], once placed under the name ["R1"]. *)
Definition toy_component : State (list Arg) :=
  {| name := "R1"; id := 0; schematic_id := 7; mirror := false;
     usesymbolcolor := true; tabname := "PassedParameterTab";
     oeditor := []; calls := [] |}.

End CircuitComponent.

(** ** pyaedt/edb.py: [Edb] *)

Module EdbApp.
Import Py.
Local Open Scope py_scope.

(** The values the attributes of an [Edb] instance hold: [None], a
    Boolean, a string, or an object (a Python instance, a module or a .NET
    handle), known by its class and an identity. *)
Inductive Val : Type :=
| VNone
| VBool (b : bool)
| VStr (s : string)
| VObj (class : string) (ident : nat).

(** Python truth value: an object without [__bool__] or [__len__] is
    true. *)
Definition truthy (v : Val) : bool :=
  match v with
  | VNone => false
  | VBool b => b
  | VStr s => negb (bool_decide (s = ""))
  | VObj _ _ => true
  end.

Definition of_option (o : option string) : Val :=
  match o with
  | Some s => VStr s
  | None => VNone
  end.

(** What the instance does to the world outside it, in order. *)
Inductive Event : Type :=
| EWarn (text : string)
| EInfoMessage (text : string)
| EWarningMessage (text : string)
| EErrorMessage (text : string)
| EAddReference (assembly : string) (loaded : bool)
| EAddReferenceToFile (file : string) (loaded : bool)
| EAddReferenceToFileAndPath (path : string) (loaded : bool)
| EImport (module : string) (imported : bool)
| ESetRunAsStandAlone (standalone : bool)
| EDatabaseOpen (path : Val) (readonly : Val)
| EDatabaseCreate (path : Val)
| EDatabaseAttach
| ECellCreate (cellname : Val)
| ECellFindByName (cellname : Val)
| ELoadDataModel (dllpath : string)
| EGetBuilder
| ETranslate (input_file : string)
| EConstruct (class : string).

(** A successful reference to the EdbLib assembly. *)
Definition is_edblib_reference (e : Event) : bool :=
  match e with
  | EAddReference assembly true => bool_decide (assembly = "EdbLib")
  | EAddReferenceToFile file true => bool_decide (file = "EdbLib.dll")
  | _ => false
  end.

(** The events that use the EdbLib assembly: its import, and the request of
    the builder from its [LayoutMethods]. *)
Definition needs_edblib (e : Event) : bool :=
  match e with
  | EImport module _ => bool_decide (module = "EdbLib")
  | ELoadDataModel _ => true
  | EGetBuilder => true
  | _ => false
  end.

(** Opening, creating or attaching to a database. *)
Definition is_database_event (e : Event) : bool :=
  match e with
  | EDatabaseOpen _ _ | EDatabaseCreate _ | EDatabaseAttach => true
  | _ => false
  end.

(** The world outside the instance: the flags set while the module is
    imported, the operating system, the [__main__] module, and what the
    external calls answer. *)
Record World : Type := {
  edb_initialized : bool;
  _ironpython : bool;
  inside_desktop : bool;
  os_name_posix : bool;
  version_in_environ : bool;
  main_has_oDesktop : bool;
  main_has_oMessenger : bool;
  main_isoutsideDesktop : option Val;
  os_path_exists : string -> bool;
  os_path_dirname : string -> string;
  os_path_join : string -> string -> string;
  aedb_name_of : string -> string;
  env_path : string -> string;
  env_path_student : string -> string;
  GetExeDir : string;
  generate_unique_name : string -> string;
  reference_loads : string -> bool;
  module_imports : string -> bool;
  Database_Open : Val -> Val;
  Database_Create : Val -> Val;
  Database_Attach : Val;
  GetEDBHandle : bool;
  TopCircuitCells : list string;
  Cell_Create : Val;
  Cell_FindByName : Val;
  GetBuilder : Val;
  Translate : bool
}.

(** The store: the attributes of the instance (its [__dict__]), the events
    so far, and the identity of the next object constructed. *)
Record State : Type := {
  self : gmap string Val;
  events : list Event;
  next_id : nat
}.

(** A fresh instance, before [__init__] runs. *)
Definition fresh : State := {| self := ∅; events := []; next_id := 0 |}.

(** [self.name = v] *)
Definition setattr (name : string) (v : Val) : M State unit :=
  modify (fun s =>
    {| self := <[name := v]> (self s); events := events s;
       next_id := next_id s |}).

(** [self.name]: an attribute that was never assigned raises. *)
Definition getattr (name : string) : M State Val :=
  fun s =>
    match self s !! name with
    | Some v => (Ok v, s)
    | None => (Raise AttributeError, s)
    end.

Definition emit (e : Event) : M State unit :=
  modify (fun s =>
    {| self := self s; events := events s ++ [e]; next_id := next_id s |}).

(** [Class(...)]: a new object. *)
Definition construct (class : string) : M State Val :=
  fun s =>
    (Ok (VObj class (next_id s)),
     {| self := self s; events := events s ++ [EConstruct class];
        next_id := S (next_id s) |}).

(** Modelled from the spec: the decorator [aedt_exception_handler], which
    is imported from pyaedt/generic/general_methods.py and is not part of
    the sources at hand.  It behaves as the docstrings of the decorated
    methods say: an exception of the body is caught and [False]
    returned. *)
Definition aedt_exception_handler (body : M State Val) : M State Val :=
  try_except body (fun _ => ret (VBool false)).

(** [self._messenger.add_info_message(text)] and its siblings. *)
Definition add_info_message (text : string) : M State unit :=
  _ <- getattr "_messenger" ;; emit (EInfoMessage text).

Definition add_warning_message (text : string) : M State unit :=
  _ <- getattr "_messenger" ;; emit (EWarningMessage text).

Definition add_error_message (text : string) : M State unit :=
  _ <- getattr "_messenger" ;; emit (EErrorMessage text).

(** [edbpath[-3:]] *)
Definition last3 (s : string) : string :=
  substring (String.length s - 3) 3 s.

(** [needle in s], on strings. *)
Fixpoint contains (needle s : string) : bool :=
  String.prefix needle s ||
  match s with
  | EmptyString => false
  | String _ s' => contains needle s'
  end.

(** A string held by an attribute; anything else is a [TypeError] where a
    path is expected. *)
Definition as_string (v : Val) : M State string :=
  match v with
  | VStr s => ret s
  | _ => raise TypeError
  end.

(** How a value reads inside a message. *)
Definition show (v : Val) : string :=
  match v with
  | VNone => "None"
  | VBool true => "True"
  | VBool false => "False"
  | VStr s => s
  | VObj class _ => class
  end.

(** [_clean_variables] *)
Definition _clean_variables : M State unit :=
  setattr "_components" VNone ;;;
  setattr "_core_primitives" VNone ;;;
  setattr "_stackup" VNone ;;;
  setattr "_padstack" VNone ;;;
  setattr "_siwave" VNone ;;;
  setattr "_hfss" VNone ;;;
  setattr "_nets" VNone ;;;
  setattr "_db" VNone ;;;
  setattr "_edb" VNone ;;;
  setattr "builder" VNone.

(** [self.attr = Class(self)] *)
Definition init_object (attr class : string) : M State unit :=
  h <- construct class ;; setattr attr h.

(** [_init_objects], as decorated. *)
Definition _init_objects : M State Val :=
  aedt_exception_handler
    (init_object "_components" "Components" ;;;
     init_object "_stackup" "EdbStackup" ;;;
     init_object "_padstack" "EdbPadstacks" ;;;
     init_object "_siwave" "EdbSiwave" ;;;
     init_object "_hfss" "Edb3DLayout" ;;;
     init_object "_nets" "EdbNets" ;;;
     init_object "_core_primitives" "EdbLayout" ;;;
     add_info_message "Objects Initialized" ;;;
     ret VNone).

Section InWorld.

Variable w : World.

(** A call on [clr], which is a name of the module only when its import
    succeeded; the call raises when the assembly cannot be loaded. *)
Definition clr_call (e : bool -> Event) (target : string) : M State unit :=
  if edb_initialized w then
    emit (e (reference_loads w target)) ;;;
    if reference_loads w target then ret tt else raise ExternalError
  else raise NameError.

(** [__import__(module)] *)
Definition import (module : string) : M State Val :=
  emit (EImport module (module_imports w module)) ;;;
  if module_imports w module then ret (VObj module 0)
  else raise ExternalError.

(** The body of [_init_dlls]. *)
Definition _init_dlls_body : M State Val :=
  (if os_name_posix w then
     version <- (v <- getattr "edbversion" ;; as_string v) ;;
     (if version_in_environ w then
        setattr "base_path" (VStr (env_path w version))
      else if main_has_oDesktop w then
        setattr "base_path" (VStr (GetExeDir w))
      else ret tt) ;;;
     clr_call (EAddReferenceToFile "Ansys.Ansoft.Edb.dll")
       "Ansys.Ansoft.Edb.dll" ;;;
     clr_call (EAddReferenceToFile "Ansys.Ansoft.EdbBuilderUtils.dll")
       "Ansys.Ansoft.EdbBuilderUtils.dll" ;;;
     clr_call (EAddReferenceToFile "EdbLib.dll") "EdbLib.dll" ;;;
     clr_call (EAddReferenceToFile "DataModel.dll") "DataModel.dll" ;;;
     base_path <- (v <- getattr "base_path" ;; as_string v) ;;
     let path := os_path_join w base_path "Ansys.Ansoft.SimSetupData.dll" in
     clr_call (EAddReferenceToFileAndPath path) path
   else
     student_version <- getattr "student_version" ;;
     version <- (v <- getattr "edbversion" ;; as_string v) ;;
     setattr "base_path"
       (VStr (if truthy student_version then env_path_student w version
              else env_path w version)) ;;;
     clr_call (EAddReference "Ansys.Ansoft.Edb") "Ansys.Ansoft.Edb" ;;;
     clr_call (EAddReference "Ansys.Ansoft.EdbBuilderUtils")
       "Ansys.Ansoft.EdbBuilderUtils" ;;;
     clr_call (EAddReference "EdbLib") "EdbLib" ;;;
     clr_call (EAddReference "DataModel") "DataModel" ;;;
     clr_call (EAddReference "Ansys.Ansoft.SimSetupData")
       "Ansys.Ansoft.SimSetupData") ;;;
  _ <- (v <- getattr "base_path" ;; as_string v) ;;
  edb <- import "Ansys.Ansoft.Edb" ;;
  setattr "edb" edb ;;;
  edbbuilder <- import "Ansys.Ansoft.EdbBuilderUtils" ;;
  edblib <- import "EdbLib" ;;
  setattr "edblib" edblib ;;;
  setattr "edbutils" edbbuilder ;;;
  simSetup <- import "Ansys.Ansoft.SimSetupData" ;;
  setattr "simSetup" simSetup ;;;
  _ <- getattr "edblib" ;;
  setattr "layout_methods" (VObj "LayoutMethods" 0) ;;;
  _ <- getattr "simSetup" ;;
  setattr "simsetupdata" (VObj "SimSetupData.Data" 0) ;;;
  ret VNone.

(** [_init_dlls], as decorated. *)
Definition _init_dlls : M State Val :=
  aedt_exception_handler _init_dlls_body.

(** [if init_dlls: self._init_dlls()] *)
Definition maybe_init_dlls (init_dlls : bool) : M State unit :=
  if init_dlls then _ <- _init_dlls ;; ret tt else ret tt.

(** [self._db = None; self._active_cell = None; self.builder = None] *)
Definition forget_database : M State unit :=
  setattr "_db" VNone ;;;
  setattr "_active_cell" VNone ;;;
  setattr "builder" VNone.

(** The index of the last cell of the list whose name is [cellname]. *)
Fixpoint last_match
    (cellname : string) (cells : list string) (i : nat) (found : option nat)
  : option nat :=
  match cells with
  | [] => found
  | c :: cells' =>
      last_match cellname cells' (S i)
        (if bool_decide (c = cellname) then Some i else found)
  end.

(** [list(self._db.TopCircuitCells)[0]] *)
Definition first_cell : M State Val :=
  match TopCircuitCells w with
  | [] => raise IndexError
  | _ :: _ => ret (VObj "Cell" 0)
  end.

(** [cell.GetName()] *)
Definition cell_name (cell : Val) : string :=
  match cell with
  | VObj _ i => nth i (TopCircuitCells w) "Cell"
  | _ => show cell
  end.

(** [self.layout_methods.LoadDataModel(dllpath)] followed by
    [self.builder = self.layout_methods.GetBuilder(...)] and
    [self._init_objects()]. *)
Definition load_builder : M State unit :=
  _ <- getattr "layout_methods" ;;
  emit (ELoadDataModel "dlls/EDBLib/DataModel.dll") ;;;
  _ <- getattr "layout_methods" ;;
  _ <- getattr "_db" ;;
  _ <- getattr "_active_cell" ;;
  _ <- getattr "edbpath" ;;
  _ <- getattr "edbversion" ;;
  _ <- getattr "standalone" ;;
  emit EGetBuilder ;;;
  setattr "builder" (GetBuilder w) ;;;
  _ <- _init_objects ;;
  ret tt.

(** The body of [open_edb]. *)
Definition open_edb_body (init_dlls : bool) : M State Val :=
  maybe_init_dlls init_dlls ;;;
  edbpath <- getattr "edbpath" ;;
  add_info_message ("EDB Path " +:+ show edbpath) ;;;
  edbversion <- getattr "edbversion" ;;
  add_info_message ("EDB Version " +:+ show edbversion) ;;;
  _ <- getattr "edb" ;;
  standalone <- getattr "standalone" ;;
  emit (ESetRunAsStandAlone (truthy standalone)) ;;;
  add_info_message ("EDB Standalone " +:+ show standalone) ;;;
  _ <- getattr "edb" ;;
  edbpath <- getattr "edbpath" ;;
  isreadonly <- getattr "isreadonly" ;;
  emit (EDatabaseOpen edbpath isreadonly) ;;;
  let db := Database_Open w edbpath in
  if negb (truthy db) then
    add_warning_message "Error Opening db" ;;;
    forget_database ;;;
    ret VNone
  else
    setattr "_db" db ;;;
    add_info_message "Database Opened" ;;;
    setattr "_active_cell" VNone ;;;
    cellname <- getattr "cellname" ;;
    (if truthy cellname then
       _ <- getattr "_db" ;;
       match last_match (show cellname) (TopCircuitCells w) 0 None with
       | Some i => setattr "_active_cell" (VObj "Cell" i)
       | None => ret tt
       end
     else ret tt) ;;;
    active_cell <- getattr "_active_cell" ;;
    (match active_cell with
     | VNone =>
         _ <- getattr "_db" ;;
         cell <- first_cell ;;
         setattr "_active_cell" cell
     | _ => ret tt
     end) ;;;
    active_cell <- getattr "_active_cell" ;;
    add_info_message ("Cell " +:+ cell_name active_cell +:+ " Opened") ;;;
    db <- getattr "_db" ;;
    (if truthy db then
       active_cell <- getattr "_active_cell" ;;
       if truthy active_cell then
         add_info_message "dlls/EDBLib/DataModel.dll" ;;;
         load_builder ;;;
         add_info_message "Builder Initialized"
       else
         setattr "builder" VNone ;;;
         add_error_message "Builder Not Initialized"
     else
       setattr "builder" VNone ;;;
       add_error_message "Builder Not Initialized") ;;;
    getattr "builder".

(** [open_edb], as decorated. *)
Definition open_edb (init_dlls : bool) : M State Val :=
  aedt_exception_handler (open_edb_body init_dlls).

(** [self.oproject.GetEDBHandle()]: [None] has no such method. *)
Definition oproject_GetEDBHandle : M State bool :=
  oproject <- getattr "oproject" ;;
  match oproject with
  | VObj _ _ => ret (GetEDBHandle w)
  | _ => raise AttributeError
  end.

(** The body of [open_edb_inside_aedt]. *)
Definition open_edb_inside_aedt_body (init_dlls : bool) : M State Val :=
  maybe_init_dlls init_dlls ;;;
  add_info_message "Opening EDB from HDL" ;;;
  _ <- getattr "edb" ;;
  emit (ESetRunAsStandAlone false) ;;;
  handle <- oproject_GetEDBHandle ;;
  if handle then
    _ <- oproject_GetEDBHandle ;;
    _ <- getattr "edb" ;;
    emit EDatabaseAttach ;;;
    let db := Database_Attach w in
    if negb (truthy db) then
      add_warning_message "Error Getting db" ;;;
      forget_database ;;;
      ret VNone
    else
      setattr "_db" db ;;;
      _ <- getattr "edb" ;;
      _ <- getattr "_db" ;;
      cellname <- getattr "cellname" ;;
      emit (ECellFindByName cellname) ;;;
      setattr "_active_cell" (Cell_FindByName w) ;;;
      active_cell <- getattr "_active_cell" ;;
      (match active_cell with
       | VNone =>
           _ <- getattr "_db" ;;
           cell <- first_cell ;;
           setattr "_active_cell" cell
       | _ => ret tt
       end) ;;;
      db <- getattr "_db" ;;
      active_cell <- getattr "_active_cell" ;;
      if truthy db && truthy active_cell then
        load_builder ;;;
        getattr "builder"
      else
        setattr "builder" VNone ;;;
        ret VNone
  else
    forget_database ;;;
    ret VNone.

(** [open_edb_inside_aedt], as decorated. *)
Definition open_edb_inside_aedt (init_dlls : bool) : M State Val :=
  aedt_exception_handler (open_edb_inside_aedt_body init_dlls).

(** The body of [create_edb]. *)
Definition create_edb_body (init_dlls : bool) : M State Val :=
  maybe_init_dlls init_dlls ;;;
  _ <- getattr "edb" ;;
  standalone <- getattr "standalone" ;;
  emit (ESetRunAsStandAlone (truthy standalone)) ;;;
  _ <- getattr "edb" ;;
  edbpath <- getattr "edbpath" ;;
  emit (EDatabaseCreate edbpath) ;;;
  let db := Database_Create w edbpath in
  if negb (truthy db) then
    add_warning_message "Error Creating db" ;;;
    forget_database ;;;
    ret VNone
  else
    setattr "_db" db ;;;
    cellname <- getattr "cellname" ;;
    (if negb (truthy cellname) then
       setattr "cellname" (VStr (generate_unique_name w "Cell"))
     else ret tt) ;;;
    _ <- getattr "edb" ;;
    _ <- getattr "_db" ;;
    cellname <- getattr "cellname" ;;
    emit (ECellCreate cellname) ;;;
    setattr "_active_cell" (Cell_Create w) ;;;
    db <- getattr "_db" ;;
    active_cell <- getattr "_active_cell" ;;
    if truthy db && truthy active_cell then
      load_builder ;;;
      getattr "builder"
    else
      setattr "builder" VNone ;;;
      ret VNone.

(** [create_edb], as decorated. *)
Definition create_edb (init_dlls : bool) : M State Val :=
  aedt_exception_handler (create_edb_body init_dlls).

(** The body of [import_layout_pcb], with [anstranslator_full_path] left at
    its default. *)
Definition import_layout_pcb_body
    (input_file working_dir : string) (init_dlls : bool) : M State Val :=
  setattr "_components" VNone ;;;
  setattr "_core_primitives" VNone ;;;
  setattr "_stackup" VNone ;;;
  setattr "_padstack" VNone ;;;
  setattr "_siwave" VNone ;;;
  setattr "_hfss" VNone ;;;
  setattr "_nets" VNone ;;;
  setattr "_db" VNone ;;;
  maybe_init_dlls init_dlls ;;;
  let aedb_name := aedb_name_of w input_file in
  _ <- (v <- getattr "base_path" ;; as_string v) ;;
  let working_dir :=
    if bool_decide (working_dir = "") then os_path_dirname w input_file
    else working_dir in
  _ <- getattr "edbutils" ;;
  emit (ETranslate input_file) ;;;
  if negb (Translate w) then
    add_error_message "Translator failed to translate." ;;;
    ret (VBool false)
  else
    setattr "edbpath" (VStr (os_path_join w working_dir aedb_name)) ;;;
    open_edb false.

(** [import_layout_pcb], as decorated. *)
Definition import_layout_pcb
    (input_file working_dir : string) (init_dlls : bool) : M State Val :=
  aedt_exception_handler
    (import_layout_pcb_body input_file working_dir init_dlls).

(** The arguments of [Edb(...)]. *)
Record InitArgs : Type := {
  edbpath : option string;
  cellname : option string;
  isreadonly : bool;
  edbversion : string;
  isaedtowned : bool;
  oproject : Val;
  student_version : bool
}.

(** The defaults of the signature, for a given [edbpath]. *)
Definition default_arguments (path : option string) : InitArgs :=
  {| edbpath := path; cellname := None; isreadonly := false;
     edbversion := "2021.1"; isaedtowned := false; oproject := VNone;
     student_version := false |}.

(** The choice of the messenger at the head of [__init__]. *)
Definition init_messenger (a : InitArgs) : M State unit :=
  if isaedtowned a then
    setattr "_main" (VObj "__main__" 0) ;;;
    _ <- getattr "_main" ;;
    if main_has_oMessenger w then setattr "_messenger" (VObj "oMessenger" 0)
    else raise AttributeError
  else
    match edbpath a with
    | Some path =>
        if negb (truthy (VStr path)) || negb (os_path_exists w path) then
          m <- construct "EDBMessageManager" ;; setattr "_messenger" m
        else if os_path_exists w path then
          m <- construct "EDBMessageManager" ;; setattr "_messenger" m
        else ret tt
    | None =>
        m <- construct "EDBMessageManager" ;; setattr "_messenger" m
    end.

(** [isaedtowned and "isoutsideDesktop" in dir(self._main) and not
    self._main.isoutsideDesktop] *)
Definition opens_inside_aedt (a : InitArgs) : bool :=
  isaedtowned a &&
  match main_isoutsideDesktop w with
  | Some outside => negb (truthy outside)
  | None => false
  end.

(** The part of [__init__] that opens, creates or imports the database,
    from [edbpath[-3:]] on. *)
Definition init_database (a : InitArgs) : M State unit :=
  match edbpath a with
  | None => raise TypeError
  | Some path =>
      (if bool_decide (last3 path ∈ ["brd"; "gds"; "xml"; "dxf"; "tgz"]) then
         setattr "edbpath" (VStr (last3 path +:+ ".aedb")) ;;;
         let working_dir := os_path_dirname w path in
         _ <- import_layout_pcb path working_dir false ;;
         ret tt
       else
         self_edbpath <- (v <- getattr "edbpath" ;; as_string v) ;;
         if negb (os_path_exists w (os_path_join w self_edbpath "edb.def"))
         then _ <- create_edb false ;; ret tt
         else if contains ".aedb" path then
           setattr "edbpath" (VStr path) ;;;
           if opens_inside_aedt a
           then _ <- open_edb_inside_aedt false ;; ret tt
           else _ <- open_edb false ;; ret tt
         else ret tt) ;;;
      builder <- getattr "builder" ;;
      if truthy builder then add_info_message "Edb Initialized"
      else add_info_message "Failed to initialize Dlls"
  end.

(** [Edb.__init__] *)
Definition __init__ (a : InitArgs) : M State unit :=
  _clean_variables ;;;
  setattr "standalone" (VBool (negb (_ironpython w && inside_desktop w))) ;;;
  if edb_initialized w then
    setattr "oproject" (oproject a) ;;;
    init_messenger a ;;;
    setattr "student_version" (VBool (student_version a)) ;;;
    add_info_message "Messenger Initialized in EDB" ;;;
    setattr "edbversion" (VStr (edbversion a)) ;;;
    setattr "isaedtowned" (VBool (isaedtowned a)) ;;;
    _ <- _init_dlls ;;
    setattr "_db" VNone ;;;
    setattr "isreadonly" (VBool (isreadonly a)) ;;;
    setattr "cellname" (of_option (cellname a)) ;;;
    setattr "edbpath" (of_option (edbpath a)) ;;;
    init_database a
  else emit (EWarn "Failed to initialize Dlls").

(** [Edb(...)]: [__init__] on a fresh instance. *)
Definition Edb (a : InitArgs) : result unit * State := __init__ a fresh.

End InWorld.

(** The seven cached core accessors. *)
Inductive CoreAccessor : Type :=
| core_components
| core_stackup
| core_padstack
| core_siwave
| core_hfss
| core_nets
| core_primitives.

(** The attribute an accessor caches its handle in. *)
Definition cache_attribute (p : CoreAccessor) : string :=
  match p with
  | core_components => "_components"
  | core_stackup => "_stackup"
  | core_padstack => "_padstack"
  | core_siwave => "_siwave"
  | core_hfss => "_hfss"
  | core_nets => "_nets"
  | core_primitives => "_core_primitives"
  end.

(** The class an accessor constructs. *)
Definition core_class (p : CoreAccessor) : string :=
  match p with
  | core_components => "Components"
  | core_stackup => "EdbStackup"
  | core_padstack => "EdbPadstacks"
  | core_siwave => "EdbSiwave"
  | core_hfss => "Edb3DLayout"
  | core_nets => "EdbNets"
  | core_primitives => "EdbLayout"
  end.

(** Reading the property:
    [if not self._x and self.builder: self._x = Class(self)
     return self._x] *)
Definition access (p : CoreAccessor) : M State Val :=
  cached <- getattr (cache_attribute p) ;;
  (if negb (truthy cached) then
     builder <- getattr "builder" ;;
     if truthy builder then init_object (cache_attribute p) (core_class p)
     else ret tt
   else ret tt) ;;;
  getattr (cache_attribute p).


(** The trace holds a successful reference to EdbLib. *)
Definition referenced (trace : list Event) : Prop :=
  existsb is_edblib_reference trace = true.

(** Every use of EdbLib in the trace comes after a successful reference
    to it. *)
Definition ordered (trace : list Event) : Prop :=
  forall (before : list Event) (e : Event) (after : list Event),
    trace = before ++ e :: after ->
    needs_edblib e = true ->
    referenced before.

(** What the instance maintains: its trace is ordered, and it holds
    [layout_methods] only once EdbLib has been referenced. *)
Definition dll_invariant (s : State) : Prop :=
  ordered (events s)
  /\ (is_Some (self s !! "layout_methods") -> referenced (events s)).

(** The invariant, once EdbLib has been referenced. *)
Definition dll_ready (s : State) : Prop :=
  dll_invariant s /\ referenced (events s).

(** A successful import of EdbLib. *)
Definition is_edblib_import (e : Event) : bool :=
  match e with
  | EImport module true => bool_decide (module = "EdbLib")
  | _ => false
  end.

Definition imported (trace : list Event) : Prop :=
  existsb is_edblib_import trace = true.

(** The instance holds [layout_methods] only once EdbLib has been
    imported. *)
Definition import_invariant (s : State) : Prop :=
  is_Some (self s !! "layout_methods") -> imported (events s).

Definition import_ready (s : State) : Prop := imported (events s).

(** The call that references EdbLib on each platform. *)
Definition expected_reference (posix : bool) : Event :=
  if posix then EAddReferenceToFile "EdbLib.dll" true
  else EAddReference "EdbLib" true.

(** An event that is not a reference to EdbLib, or is the platform's. *)
Definition platform_event (posix : bool) (e : Event) : Prop :=
  is_edblib_reference e = true -> e = expected_reference posix.

(** Every successful reference to EdbLib in the trace is the platform's. *)
Definition platform_invariant (posix : bool) (s : State) : Prop :=
  forall e : Event, In e (events s) -> platform_event posix e.

(** The public methods a caller may run on the instance afterwards. *)
Inductive Method : Type :=
| call_open_edb (init_dlls : bool)
| call_open_edb_inside_aedt (init_dlls : bool)
| call_create_edb (init_dlls : bool)
| call_import_layout_pcb (input_file working_dir : string) (init_dlls : bool)
| call_core (p : CoreAccessor).

Definition call (w : World) (m : Method) : M State Val :=
  match m with
  | call_open_edb init_dlls => open_edb w init_dlls
  | call_open_edb_inside_aedt init_dlls => open_edb_inside_aedt w init_dlls
  | call_create_edb init_dlls => create_edb w init_dlls
  | call_import_layout_pcb input_file working_dir init_dlls =>
      import_layout_pcb w input_file working_dir init_dlls
  | call_core p => access p
  end.

(** The store after a sequence of calls, whatever each returned or
    raised. *)
Fixpoint run_methods (w : World) (ms : list Method) (s : State) : State :=
  match ms with
  | [] => s
  | m :: ms' => run_methods w ms' (snd (call w m s))
  end.

(** The store after the platform's reference to EdbLib succeeded. *)
Definition has_reference (posix : bool) (s : State) : Prop :=
  In (expected_reference posix) (events s).

(** The instance holds its messenger. *)
Definition has_messenger (s : State) : Prop :=
  is_Some (self s !! "_messenger").

(** No database was opened, created or attached to. *)
Definition no_database_event (s : State) : Prop :=
  forallb (fun e => negb (is_database_event e)) (events s) = true.

(** A Windows installation on which every external call succeeds and no
    path exists yet. *)
Definition windows_world : World :=
  {| edb_initialized := true;
     _ironpython := false;
     inside_desktop := false;
     os_name_posix := false;
     version_in_environ := true;
     main_has_oDesktop := false;
     main_has_oMessenger := false;
     main_isoutsideDesktop := None;
     os_path_exists := fun _ => false;
     os_path_dirname := fun _ => "";
     os_path_join := fun a b => a +:+ "/" +:+ b;
     aedb_name_of := fun f => f +:+ ".aedb";
     env_path := fun v => "AnsysEM/" +:+ v;
     env_path_student := fun v => "AnsysEM-Student/" +:+ v;
     GetExeDir := "AnsysEM";
     generate_unique_name := fun n => n +:+ "_0";
     reference_loads := fun _ => true;
     module_imports := fun _ => true;
     Database_Open := fun _ => VObj "Database" 0;
     Database_Create := fun _ => VObj "Database" 0;
     Database_Attach := VNone;
     GetEDBHandle := false;
     TopCircuitCells := ["Cell_0"];
     Cell_Create := VObj "Cell" 0;
     Cell_FindByName := VNone;
     GetBuilder := VObj "Builder" 0;
     Translate := true |}.

(** The instance right after [_clean_variables]: no builder, no cache. *)
Definition cleaned : State := snd (_clean_variables fresh).

(** The cleaned instance, once [builder] holds a handle. *)
Definition cleaned_with_builder : State :=
  snd (setattr "builder" (VObj "Builder" 0) cleaned).

(** The instance after [Edb("new.aedb")] on the Windows installation. *)
Definition created : State :=
  snd (Edb windows_world (default_arguments (Some "new.aedb"))).

(** The instance as [__init__] leaves it just before [_init_dlls]. *)
Definition before_init_dlls : State :=
  {| self := {[ "edbversion" := VStr "2021.1";
                "student_version" := VBool false ]};
     events := []; next_id := 0 |}.

(** An installation on which [import clr] failed. *)
Definition world_without_clr : World :=
  {| edb_initialized := false;
     _ironpython := false;
     inside_desktop := false;
     os_name_posix := false;
     version_in_environ := true;
     main_has_oDesktop := false;
     main_has_oMessenger := false;
     main_isoutsideDesktop := None;
     os_path_exists := fun _ => false;
     os_path_dirname := fun _ => "";
     os_path_join := fun a b => a +:+ "/" +:+ b;
     aedb_name_of := fun f => f +:+ ".aedb";
     env_path := fun v => "AnsysEM/" +:+ v;
     env_path_student := fun v => "AnsysEM-Student/" +:+ v;
     GetExeDir := "AnsysEM";
     generate_unique_name := fun n => n +:+ "_0";
     reference_loads := fun _ => false;
     module_imports := fun _ => false;
     Database_Open := fun _ => VNone;
     Database_Create := fun _ => VNone;
     Database_Attach := VNone;
     GetEDBHandle := false;
     TopCircuitCells := [];
     Cell_Create := VNone;
     Cell_FindByName := VNone;
     GetBuilder := VNone;
     Translate := false |}.

End EdbApp.

(** ** pyaedt/edb.py: [Edb.write_export3d_option_config_file] *)

Module EdbExport.

(** A dictionary that keeps the order in which its keys were inserted;
    the values of the options are integers. *)
Definition Dict : Type := list (string * Z).

(** [d[el]], [None] when the key is missing. *)
Fixpoint dict_get (el : string) (d : Dict) : option Z :=
  match d with
  | [] => None
  | (k, v) :: d' => if bool_decide (k = el) then Some v else dict_get el d'
  end.

(** [d[el] = val]: the value of a key that is there is replaced where it
    is, a new key goes to the end. *)
Fixpoint dict_set (el : string) (val : Z) (d : Dict) : Dict :=
  match d with
  | [] => [(el, val)]
  | (k, v) :: d' =>
      if bool_decide (k = el) then (k, val) :: d'
      else (k, v) :: dict_set el val d'
  end.

(** The literal [option_config] starts from. *)
Definition option_config_defaults : Dict :=
  [("UNITE_NETS", 1); ("ASSIGN_SOLDER_BALLS_AS_SOURCES", 0);
   ("Q3D_MERGE_SOURCES", 0); ("Q3D_MERGE_SINKS", 0);
   ("CREATE_PORTS_FOR_PWR_GND_NETS", 0); ("PORTS_FOR_PWR_GND_NETS", 0);
   ("GENERATE_TERMINALS", 0); ("SOLVE_CAPACITANCE", 0);
   ("SOLVE_DC_RESISTANCE", 0); ("SOLVE_DC_INDUCTANCE_RESISTANCE", 1);
   ("SOLVE_AC_INDUCTANCE_RESISTANCE", 0); ("CreateSources", 0);
   ("CreateSinks", 0); ("LAUNCH_Q3D", 0); ("LAUNCH_HFSS", 0)]%Z.

(** [for el, val in config_dictionaries.items(): option_config[el] = val] *)
Definition update_options (items : list (string * Z)) (option_config : Dict)
  : Dict :=
  fold_left (fun d item => dict_set (fst item) (snd item) d) items
    option_config.

(** [option_config] when the file is written; [config_dictionaries] is
    [None] or the list of the items of the dictionary. *)
Definition option_config (config_dictionaries : option (list (string * Z)))
  : Dict :=
  match config_dictionaries with
  | Some (item :: items) =>
      update_options (item :: items) option_config_defaults
  | _ => option_config_defaults
  end.

(** [el + " " + str(val) + "\n"] *)
Definition config_line (item : string * Z) : string :=
  fst item +:+ " " +:+ pretty (snd item) +:+ String (Ascii.ascii_of_nat 10) "".

(** What the method returns: the path of the file, or [False]. *)
Inductive Returned : Type :=
| RPath (path : string)
| RFalse.

Section Files.

(** [os.path.join], and whether [open(path, "w")] succeeds. *)
Variable os_path_join : string -> string -> string.
Variable writable : string -> bool.

(** Modelled from the spec: the decorator [aedt_exception_handler], which
    is imported from the package root and is not part of the sources at
    hand, returns [False] when the body raises, here when the file cannot
    be opened.  [write_export3d_option_config_file], as decorated: the
    result, and the files written with their lines. *)
Definition write_export3d_option_config_file
    (path_to_output : string)
    (config_dictionaries : option (list (string * Z)))
  : Returned * list (string * list string) :=
  let option_config := option_config config_dictionaries in
  let file := os_path_join path_to_output "options.config" in
  if writable file then
    (RPath (os_path_join path_to_output "options.config"),
     [(file, List.map config_line option_config)])
  else (RFalse, []).

End Files.

End EdbExport.

(** ** pyaedt/edb_core/siwave.py: the source classes and [EdbSiwave] *)

Module Siwave.

(** The exceptions of the attribute accesses below. *)
Inductive error : Type :=
| AttributeError
| RecursionError.

(** The classes of the module that have properties. *)
Inductive Class : Type :=
| PinGroup
| Source
| CircuitPort
| VoltageSource
| CurrentSource
| ResistorSource.

(** The values the attributes hold: [None], Booleans, numbers, strings,
    lists, handles of objects of the EDB library, and instances of the
    classes above with their [__dict__]. *)
Inductive Val : Type :=
| VNone
| VBool (b : bool)
| VInt (z : Z)
| VFloat (x : R)
| VStr (s : string)
| VList (l : list Val)
| VHandle (h : string)
| VObject (class : Class) (dict : gmap string Val).

(** [SourceType]: [(Port, CurrentSource, VoltageSource, Resistor) =
    (1, 2, 3, 4)] *)
Module SourceType.
Definition Port : Z := 1.
Definition CurrentSource : Z := 2.
Definition VoltageSource : Z := 3.
Definition Resistor : Z := 4.
End SourceType.

(** A property of a class, as its getter and its setter are written:
    - [Field a (Some b)]: the getter returns [self.a], the setter assigns
      [self.b];
    - [Field a None]: the same getter, and no setter;
    - [Forward p]: the getter returns [self.p], and there is no setter;
    - [SelfGet]: the getter returns the property itself, and there is no
      setter;
    - [SelfSet a]: the getter returns [self.a], the setter assigns the
      property itself. *)
Inductive Property : Type :=
| Field (read : string) (written : option string)
| Forward (property : string)
| SelfGet
| SelfSet (read : string).

(** The properties [Source] defines. *)
Definition Source_properties (attr : string) : option Property :=
  if bool_decide (attr = "name") then Some (Field "_name" (Some "_name"))
  else if bool_decide (attr = "type") then Some (SelfSet "_type")
  else if bool_decide (attr = "positive_node")
  then Some (Field "_positive_node" (Some "_positive_node"))
  else if bool_decide (attr = "negative_node")
  then Some (Field "_negative_node" (Some "_negative_node"))
  else if bool_decide (attr = "do_pin_grouping")
  then Some (Field "_do_pin_grouping" (Some "_do_pin_grouping"))
  else None.

(** The properties a class defines itself. *)
Definition own_properties (c : Class) (attr : string) : option Property :=
  match c with
  | PinGroup =>
      if bool_decide (attr = "name") then Some (Field "_name" (Some "_name"))
      else if bool_decide (attr = "component")
      then Some (Field "_component" (Some "_component"))
      else if bool_decide (attr = "node_pins")
      then Some (Field "_node_pins" (Some "_node_pins"))
      else if bool_decide (attr = "net") then Some (Field "_net" (Some "_net"))
      else None
  | Source => Source_properties attr
  | CircuitPort =>
      if bool_decide (attr = "impedance")
      then Some (Field "_impedance" (Some "_impedance"))
      else if bool_decide (attr = "get_type") then Some (Forward "type")
      else None
  | VoltageSource | CurrentSource =>
      if bool_decide (attr = "magnitude")
      then Some (Field "_magnitude" (Some "_magnitude"))
      else if bool_decide (attr = "phase")
      then Some (Field "_phase" (Some "_phase"))
      else if bool_decide (attr = "impedance")
      then Some (Field "_impedance" (Some "_impedance"))
      else if bool_decide (attr = "source_type") then Some SelfGet
      else None
  | ResistorSource =>
      if bool_decide (attr = "rvalue") then Some (Field "_rvalue" (Some "_rv"))
      else if bool_decide (attr = "source_type") then Some SelfGet
      else None
  end.

(** The property an attribute name finds: in the class, then in its base
    class [Source]. *)
Definition property_of (c : Class) (attr : string) : option Property :=
  match own_properties c attr with
  | Some p => Some p
  | None =>
      match c with
      | PinGroup | Source => None
      | _ => Source_properties attr
      end
  end.

(** An attribute of the instance dictionary. *)
Definition dict_get (attr : string) (dict : gmap string Val) : Val + error :=
  match dict !! attr with
  | Some v => inl v
  | None => inr AttributeError
  end.

(** [self.attr] inside a method of the class, with [depth] calls left
    before Python gives up the recursion. *)
Fixpoint getattr_in (depth : nat) (class : Class) (attr : string)
    (dict : gmap string Val) : Val + error :=
  match property_of class attr with
  | Some (Field read _) | Some (SelfSet read) => dict_get read dict
  | Some (Forward property) =>
      match depth with
      | O => inr RecursionError
      | S depth' => getattr_in depth' class property dict
      end
  | Some SelfGet =>
      match depth with
      | O => inr RecursionError
      | S depth' => getattr_in depth' class attr dict
      end
  | None => dict_get attr dict
  end.

(** [self.attr = value], with [depth] calls left.  A property without a
    setter cannot be assigned. *)
Fixpoint setattr_in (depth : nat) (class : Class) (attr : string)
    (value : Val) (dict : gmap string Val) : gmap string Val + error :=
  match property_of class attr with
  | Some (Field _ (Some written)) => inl (<[written := value]> dict)
  | Some (Field _ None) | Some (Forward _) | Some SelfGet =>
      inr AttributeError
  | Some (SelfSet _) =>
      match depth with
      | O => inr RecursionError
      | S depth' => setattr_in depth' class attr value dict
      end
  | None => inl (<[attr := value]> dict)
  end.

(** [obj.attr]; a value that is no instance has none of the attributes
    at hand. *)
Definition getattr (depth : nat) (obj : Val) (attr : string) : Val + error :=
  match obj with
  | VObject class dict => getattr_in depth class attr dict
  | _ => inr AttributeError
  end.

(** [obj.attr = value]: the instance after the assignment. *)
Definition setattr (depth : nat) (obj : Val) (attr : string) (value : Val)
  : Val + error :=
  match obj with
  | VObject class dict =>
      match setattr_in depth class attr value dict with
      | inl dict' => inl (VObject class dict')
      | inr e => inr e
      end
  | _ => inr AttributeError
  end.

(** [obj.node.attr = value], for one of the two [PinGroup] objects of a
    source: the object is owned by the source alone, so the source after
    the assignment holds the changed object. *)
Definition setattr_of (depth : nat) (obj : Val) (node attr : string)
    (value : Val) : Val + error :=
  match obj with
  | VObject class dict =>
      match getattr_in depth class node dict with
      | inl group =>
          match setattr depth group attr value with
          | inl group' =>
              match property_of class node with
              | Some (Field read _) =>
                  inl (VObject class (<[read := group']> dict))
              | _ => inr AttributeError
              end
          | inr e => inr e
          end
      | inr e => inr e
      end
  | _ => inr AttributeError
  end.

(** [PinGroup()] *)
Definition PinGroup__init__ : Val :=
  VObject PinGroup
    (<["_name" := VStr ""]> (<["_component" := VStr ""]>
    (<["_node_pins" := VList []]> (<["_net" := VStr ""]> ∅)))).

(** [Source.__init__], on a fresh instance. *)
Definition Source__init__ : gmap string Val :=
  <["_name" := VStr ""]> (<["_type" := VInt SourceType.Port]>
  (<["_positive_node" := PinGroup__init__]>
  (<["_negative_node" := PinGroup__init__]>
  (<["_do_pin_grouping" := VBool true]> ∅)))).

(** [class()]: the [__init__] the class finds.  [CircuitPort] defines
    [__init], a method of another name, so that its instances are set up
    by [Source.__init__] alone. *)
Definition new (class : Class) : Val :=
  match class with
  | PinGroup => PinGroup__init__
  | Source | CircuitPort => VObject class Source__init__
  | VoltageSource =>
      VObject class
        (<["_type" := VInt SourceType.VoltageSource]>
           (<["_impedance" := VStr "0.05"]>
              (<["_phase" := VStr "0Deg"]>
                 (<["_magnitude" := VStr "1V"]> Source__init__))))
  | CurrentSource =>
      VObject class
        (<["_type" := VInt SourceType.CurrentSource]>
           (<["_impedance" := VStr "1e7"]>
              (<["_phase" := VStr "0Deg"]>
                 (<["_magnitude" := VStr "0.1A"]> Source__init__))))
  | ResistorSource =>
      VObject class
        (<["_type" := VInt SourceType.Resistor]>
           (<["_rvalue" := VStr "50"]> Source__init__))
  end.

(** What is assigned to [pos_term_to_ground] and [neg_term_to_ground]:
    a list of names, or one name. *)
Inductive Terms : Type :=
| TermList (terms : list string)
| Term (terms : string).

(** The two private lists of [SiwaveDCSetupTemplate]; its other
    attributes are plain settings. *)
Record SiwaveDCSetupTemplate : Type := {
  _pos_term_to_ground : list string;
  _neg_term_to_ground : list string
}.

(** The part of [SiwaveDCSetupTemplate.__init__] that sets the lists. *)
Definition SiwaveDCSetupTemplate__init__ : SiwaveDCSetupTemplate :=
  {| _pos_term_to_ground := []; _neg_term_to_ground := [] |}.

(** [if not isinstance(terms, list): ... = [terms] else: ... = terms] *)
Definition as_list (terms : Terms) : list string :=
  match terms with
  | TermList l => l
  | Term t => [t]
  end.

(** The setter of [pos_term_to_ground]. *)
Definition pos_term_to_ground_setter (terms : Terms)
    (t : SiwaveDCSetupTemplate) : SiwaveDCSetupTemplate :=
  {| _pos_term_to_ground := as_list terms;
     _neg_term_to_ground := _neg_term_to_ground t |}.

(** The setter of [neg_term_to_ground]. *)
Definition neg_term_to_ground_setter (terms : Terms)
    (t : SiwaveDCSetupTemplate) : SiwaveDCSetupTemplate :=
  {| _pos_term_to_ground := _pos_term_to_ground t;
     _neg_term_to_ground := as_list terms |}.

(** [for el in terms: a[el] = value] on the dictionary [a]. *)
Definition assign_all (terms : list string) (value : Z) (a : gmap string Z)
  : gmap string Z :=
  fold_left (fun a el => <[el := value]> a) terms a.

(** [SiwaveDCSetupTemplate.source_terms_to_ground] *)
Definition source_terms_to_ground (t : SiwaveDCSetupTemplate)
  : gmap string Z :=
  assign_all (_pos_term_to_ground t) 2
    (assign_all (_neg_term_to_ground t) 1 ∅).

(** The requests of [EdbSiwave] that change the layout: the two kinds of
    objects it creates, and the calls on the terminals. *)
Inductive Event : Type :=
| ECreatePingroup (pins : Val)
| ECreateTerminal (net : Val) (name : string) (pingroup : Val)
| ESetBoundaryType (terminal : Val) (boundary : string)
| ESetSourceAmplitude (terminal value : Val)
| ESetSourcePhase (terminal value : Val)
| ESetIsCircuitPort (terminal : Val) (flag : bool)
| ESetReferenceTerminal (terminal reference : Val)
| ESetName (terminal name : Val)
| ESetRlcBoundaryParameters
    (terminal : Val) (CEnabled LEnabled REnabled : bool) (R : Val).

(** A method body: its result or its exception, and the requests it made
    up to there. *)
Definition T (A : Type) : Type := (A + error) * list Event.

Definition ret {A} (a : A) : T A := (inl a, []).

Definition lift {A} (r : A + error) : T A := (r, []).

Definition emit (e : Event) : T unit := (inl tt, [e]).

Definition bind {A B} (m : T A) (k : A -> T B) : T B :=
  match m with
  | (inl a, events) => let (r, events') := k a in (r, events ++ events')
  | (inr e, events) => (inr e, events)
  end.

(** Modelled from the spec: the decorator [aedt_exception_handler], which
    is imported from the package root and is not part of the sources at
    hand.  It behaves as the docstrings of the decorated methods say
    ("True when successful, False when failed"): an exception of the body
    is caught and [False] returned. *)
Definition aedt_exception_handler (body : T Val) : T Val :=
  match body with
  | (inl a, events) => (inl a, events)
  | (inr _, events) => (inl (VBool false), events)
  end.

(** Python truth value ([not negative_component_name]). *)
Definition truthy (v : Val) : bool :=
  match v with
  | VNone => false
  | VBool b => b
  | VInt z => negb (Z.eqb z 0)
  | VFloat x => if Req_dec_T x 0 then false else true
  | VStr s => negb (bool_decide (s = ""))
  | VList l => match l with [] => false | _ => true end
  | VHandle _ | VObject _ _ => true
  end.

(** [v == z] for an integer constant [z]. *)
Definition equals_int (v : Val) (z : Z) : bool :=
  match v with
  | VInt z' => Z.eqb z' z
  | VBool b => Z.eqb (if b then 1 else 0) z
  | VFloat x => if Req_dec_T x (IZR z) then true else false
  | _ => false
  end.

(** [v == ""] *)
Definition is_empty_string (v : Val) : bool :=
  match v with
  | VStr s => bool_decide (s = "")
  | _ => false
  end.

Section EdbSiwave.
Local Notation "x <- m ;; k" := (bind m (fun x => k))
  (at level 100, m at next level, right associativity).
Local Notation "m ;;; k" := (bind m (fun _ => k))
  (at level 100, right associativity).

(** The number of nested calls Python allows. *)
Variable depth : nat.

(** The EDB library and the other core objects of the parent, which are
    not part of the sources at hand: what their methods return is taken
    as given. *)
Variable get_component_by_name : Val -> Val.
Variable get_pin_from_component : Val -> Val -> Val.
Variable create_pingroup_from_pins : Val -> Val * Val.
Variable get_net_by_name : Val -> Val.
Variable PinGroupTerminal_Create : Val -> string -> Val -> Val.
Variable Utility_Value : Val -> Val.

(** Python's [str] on the values that are no strings. *)
Variable str_of_value : Val -> string.

(** What [format] puts in the place of ["{}"]. *)
Definition str (v : Val) : string :=
  match v with
  | VStr s => s
  | VNone => "None"
  | _ => str_of_value v
  end.

(** The body of [EdbSiwave.create_pin_group_terminal]. *)
Definition create_pin_group_terminal_body (source : Val) : T Val :=
  positive_node <- lift (getattr depth source "positive_node") ;;
  pos_pins <- lift (getattr depth positive_node "node_pins") ;;
  emit (ECreatePingroup pos_pins) ;;;
  let pos_pin_group := create_pingroup_from_pins pos_pins in
  negative_node <- lift (getattr depth source "negative_node") ;;
  neg_pins <- lift (getattr depth negative_node "node_pins") ;;
  emit (ECreatePingroup neg_pins) ;;;
  let neg_pin_group := create_pingroup_from_pins neg_pins in
  pos_net <- lift (getattr depth positive_node "net") ;;
  let pos_node_net := get_net_by_name pos_net in
  neg_net <- lift (getattr depth negative_node "net") ;;
  let neg_node_net := get_net_by_name neg_net in
  name <- lift (getattr depth source "name") ;;
  let pos_pingroup_term_name := str pos_net +:+ "_" +:+ str name in
  let neg_pingroup_term_name := str neg_net +:+ "_" +:+ str name in
  emit (ECreateTerminal pos_node_net pos_pingroup_term_name
          (snd pos_pin_group)) ;;;
  let pos := PinGroupTerminal_Create pos_node_net pos_pingroup_term_name
               (snd pos_pin_group) in
  emit (ECreateTerminal neg_node_net neg_pingroup_term_name
          (snd neg_pin_group)) ;;;
  let neg := PinGroupTerminal_Create neg_node_net neg_pingroup_term_name
               (snd neg_pin_group) in
  type <- lift (getattr depth source "type") ;;
  if equals_int type SourceType.Port then
    emit (ESetBoundaryType pos "PortBoundary") ;;;
    emit (ESetBoundaryType neg "PortBoundary") ;;;
    impedance <- lift (getattr depth source "impedance") ;;
    emit (ESetSourceAmplitude pos (Utility_Value impedance)) ;;;
    emit (ESetIsCircuitPort pos true) ;;;
    emit (ESetIsCircuitPort neg true) ;;;
    emit (ESetReferenceTerminal pos neg) ;;;
    ret VNone
  else if equals_int type SourceType.CurrentSource then
    emit (ESetBoundaryType pos "kCurrentSource") ;;;
    emit (ESetBoundaryType neg "kCurrentSource") ;;;
    magnitude <- lift (getattr depth source "magnitude") ;;
    emit (ESetSourceAmplitude pos (Utility_Value magnitude)) ;;;
    phase <- lift (getattr depth source "phase") ;;
    emit (ESetSourcePhase pos (Utility_Value phase)) ;;;
    emit (ESetIsCircuitPort pos true) ;;;
    emit (ESetIsCircuitPort neg true) ;;;
    emit (ESetReferenceTerminal pos neg) ;;;
    name <- lift (getattr depth source "name") ;;
    emit (ESetName pos name) ;;;
    ret VNone
  else if equals_int type SourceType.VoltageSource then
    emit (ESetBoundaryType pos "kVoltageSource") ;;;
    emit (ESetBoundaryType neg "kVoltageSource") ;;;
    magnitude <- lift (getattr depth source "magnitude") ;;
    emit (ESetSourceAmplitude pos (Utility_Value magnitude)) ;;;
    phase <- lift (getattr depth source "phase") ;;
    emit (ESetSourcePhase pos (Utility_Value phase)) ;;;
    emit (ESetIsCircuitPort pos true) ;;;
    emit (ESetIsCircuitPort neg true) ;;;
    emit (ESetReferenceTerminal pos neg) ;;;
    name <- lift (getattr depth source "name") ;;
    emit (ESetName pos name) ;;;
    ret VNone
  else if equals_int type SourceType.Resistor then
    emit (ESetBoundaryType pos "RlcBoundary") ;;;
    emit (ESetBoundaryType neg "RlcBoundary") ;;;
    emit (ESetReferenceTerminal pos neg) ;;;
    rvalue <- lift (getattr depth source "rvalue") ;;
    emit (ESetSourceAmplitude pos (Utility_Value rvalue)) ;;;
    emit (ESetIsCircuitPort pos true) ;;;
    emit (ESetIsCircuitPort neg true) ;;;
    R <- lift (getattr depth source "rvalue") ;;
    emit (ESetRlcBoundaryParameters pos false false true R) ;;;
    ret VNone
  else ret VNone.

(** [EdbSiwave.create_pin_group_terminal], as decorated. *)
Definition create_pin_group_terminal (source : Val) : T Val :=
  aedt_exception_handler (create_pin_group_terminal_body source).

(** The lines that the four [create_...] methods share after the name
    was chosen: the name, the components and the pins are given to the
    source, and the terminals created. *)
Definition place_source
    (source name pos_node_cmp pos_node_pins neg_node_cmp neg_node_pins : Val)
  : T Val :=
  source <- lift (setattr depth source "name" name) ;;
  source <- lift (setattr_of depth source "positive_node" "component_node"
                    pos_node_cmp) ;;
  source <- lift (setattr_of depth source "positive_node" "node_pins"
                    pos_node_pins) ;;
  source <- lift (setattr_of depth source "negative_node" "component_node"
                    neg_node_cmp) ;;
  source <- lift (setattr_of depth source "negative_node" "node_pins"
                    neg_node_pins) ;;
  create_pin_group_terminal source ;;;
  ret (VBool true).

(** ["<prefix>_{}_{}_{}_{}".format(...)] *)
Definition default_name (prefix : string) (a b c d : Val) : Val :=
  VStr (prefix +:+ "_" +:+ str a +:+ "_" +:+ str b +:+ "_" +:+ str c
        +:+ "_" +:+ str d).

(** The body of [EdbSiwave.create_circuit_port]. *)
Definition create_circuit_port_body
    (positive_component_name positive_net_name negative_component_name
       negative_net_name impedance_value port_name : Val) : T Val :=
  let circuit_port := new CircuitPort in
  circuit_port <- lift (setattr_of depth circuit_port "positive_node" "net"
                          positive_net_name) ;;
  circuit_port <- lift (setattr_of depth circuit_port "negative_node" "net"
                          negative_net_name) ;;
  circuit_port <- lift (setattr depth circuit_port "impedance"
                          impedance_value) ;;
  let negative_component_name :=
    if truthy negative_component_name then negative_component_name
    else positive_component_name in
  let pos_node_cmp := get_component_by_name positive_component_name in
  let neg_node_cmp := get_component_by_name negative_component_name in
  let pos_node_pins :=
    get_pin_from_component positive_component_name positive_net_name in
  let neg_node_pins :=
    get_pin_from_component negative_component_name negative_net_name in
  let port_name :=
    if is_empty_string port_name then
      default_name "Port" positive_component_name positive_net_name
        negative_component_name negative_net_name
    else port_name in
  place_source circuit_port port_name pos_node_cmp pos_node_pins
    neg_node_cmp neg_node_pins.

(** [EdbSiwave.create_circuit_port], as decorated. *)
Definition create_circuit_port
    (positive_component_name positive_net_name negative_component_name
       negative_net_name impedance_value port_name : Val) : T Val :=
  aedt_exception_handler
    (create_circuit_port_body positive_component_name positive_net_name
       negative_component_name negative_net_name impedance_value port_name).

(** The body of [EdbSiwave.create_resistor]. *)
Definition create_resistor_body
    (positive_component_name positive_net_name negative_component_name
       negative_net_name rvalue resistor_name : Val) : T Val :=
  let resistor := new ResistorSource in
  resistor <- lift (setattr_of depth resistor "positive_node" "net"
                      positive_net_name) ;;
  resistor <- lift (setattr_of depth resistor "negative_node" "net"
                      negative_net_name) ;;
  resistor <- lift (setattr depth resistor "magnitude" rvalue) ;;
  let pos_node_cmp := get_component_by_name positive_component_name in
  let neg_node_cmp := get_component_by_name negative_component_name in
  let pos_node_pins :=
    get_pin_from_component positive_component_name positive_net_name in
  let neg_node_pins :=
    get_pin_from_component negative_component_name negative_net_name in
  let resistor_name :=
    if is_empty_string resistor_name then
      default_name "Port" positive_component_name positive_net_name
        negative_component_name negative_net_name
    else resistor_name in
  place_source resistor resistor_name pos_node_cmp pos_node_pins
    neg_node_cmp neg_node_pins.

(** [EdbSiwave.create_resistor], as decorated. *)
Definition create_resistor
    (positive_component_name positive_net_name negative_component_name
       negative_net_name rvalue resistor_name : Val) : T Val :=
  aedt_exception_handler
    (create_resistor_body positive_component_name positive_net_name
       negative_component_name negative_net_name rvalue resistor_name).

End EdbSiwave.

End Siwave.

(** ** pyaedt/application/Variables.py: [Variable] *)

Module Variables.
Import Py.
Local Open Scope R_scope.

(** Modelled from the spec: the unit systems of the engineering-unit
    variable expression system (pyaedt/application/Variables.py is not
    part of the sources at hand; the names are those the tests of
    _unittest/test_09_VariableManager.py compare [unit_system] with). *)
Inductive UnitSystem : Type :=
| NoneSystem
| Length
| Angle
| AngularSpeed
| Current
| Voltage
| Power
| Torque
| Time
| Speed
| Resistance
| Inductance
| Freq
| Temperature.

#[export] Instance UnitSystem_eq_dec : EqDecision UnitSystem.
Proof. solve_decision. Defined.

(** Modelled from the spec: the name of a unit system, as [unit_system]
    returns it. *)
Definition system_name (s : UnitSystem) : string :=
  match s with
  | NoneSystem => "None"
  | Length => "Length"
  | Angle => "Angle"
  | AngularSpeed => "AngularSpeed"
  | Current => "Current"
  | Voltage => "Voltage"
  | Power => "Power"
  | Torque => "Torque"
  | Time => "Time"
  | Speed => "Speed"
  | Resistance => "Resistance"
  | Inductance => "Inductance"
  | Freq => "Freq"
  | Temperature => "Temperature"
  end.

(** Modelled from the spec: how a unit converts to the SI unit of its
    system.  A scale factor for all systems but temperature, whose
    conversion is affine. *)
Record Conversion : Type := {
  scale : R;
  offset : R
}.

Definition factor (k : R) : Conversion := {| scale := k; offset := 0 |}.

Definition to_SI (c : Conversion) (x : R) : R := scale c * x + offset c.

Definition from_SI (c : Conversion) (y : R) : R := (y - offset c) / scale c.

(** Modelled from the spec: the table [AEDT_units], from a unit system to
    its units and their conversions, with the units the tests use. *)
Definition AEDT_units : list (UnitSystem * list (string * Conversion)) :=
  [ (AngularSpeed,
      [ ("deg_per_sec", factor (PI / 180));
        ("rad_per_sec", factor 1);
        ("rev_per_sec", factor (2 * PI));
        ("rpm", factor (2 * PI / 60)) ]);
    (Angle,
      [ ("deg", factor (PI / 180));
        ("rad", factor 1);
        ("degmin", factor (PI / 180 / 60));
        ("degsec", factor (PI / 180 / 3600)) ]);
    (Current,
      [ ("uA", factor (1 / 1000000));
        ("mA", factor (1 / 1000));
        ("A", factor 1);
        ("kA", factor 1000) ]);
    (Freq,
      [ ("Hz", factor 1); ("kHz", factor 1000); ("MHz", factor 1000000) ]);
    (Inductance,
      [ ("uH", factor (1 / 1000000)); ("mH", factor (1 / 1000));
        ("H", factor 1) ]);
    (Length,
      [ ("um", factor (1 / 1000000));
        ("mm", factor (1 / 1000));
        ("cm", factor (1 / 100));
        ("meter", factor 1);
        ("km", factor 1000);
        ("in", factor (254 / 10000)) ]);
    (Power,
      [ ("mW", factor (1 / 1000)); ("W", factor 1); ("kW", factor 1000) ]);
    (Resistance,
      [ ("mOhm", factor (1 / 1000)); ("ohm", factor 1);
        ("kOhm", factor 1000) ]);
    (Speed,
      [ ("m_per_sec", factor 1);
        ("feet_per_sec", factor (3048 / 10000));
        ("feet_per_min", factor (3048 / 10000 / 60)) ]);
    (Time,
      [ ("ms", factor (1 / 1000)); ("s", factor 1); ("min", factor 60);
        ("hour", factor 3600) ]);
    (Torque,
      [ ("NewtonMeter", factor 1); ("kNewtonMeter", factor 1000) ]);
    (Voltage,
      [ ("mV", factor (1 / 1000)); ("V", factor 1); ("kV", factor 1000) ]);
    (Temperature,
      [ ("cel", {| scale := 1; offset := 27315 / 100 |});
        ("fah", {| scale := 5 / 9; offset := 27315 / 100 - 32 * (5 / 9) |});
        ("kel", factor 1) ]) ].

(** Modelled from the spec: the table [SI_units], the SI unit of each
    system. *)
Definition SI_units (s : UnitSystem) : string :=
  match s with
  | NoneSystem => ""
  | Length => "meter"
  | Angle => "rad"
  | AngularSpeed => "rad_per_sec"
  | Current => "A"
  | Voltage => "V"
  | Power => "W"
  | Torque => "NewtonMeter"
  | Time => "s"
  | Speed => "m_per_sec"
  | Resistance => "ohm"
  | Inductance => "H"
  | Freq => "Hz"
  | Temperature => "kel"
  end.

(** The value of a key in an association list. *)
Fixpoint assoc {A : Type} (key : string) (l : list (string * A)) : option A :=
  match l with
  | [] => None
  | (k, v) :: l' => if String.eqb key k then Some v else assoc key l'
  end.

(** Modelled from the spec: the first system of [AEDT_units] that has the
    unit, with the unit's conversion. *)
Fixpoint find_unit
    (table : list (UnitSystem * list (string * Conversion))) (u : string)
  : option (UnitSystem * Conversion) :=
  match table with
  | [] => None
  | (s, units_of_s) :: table' =>
      match assoc u units_of_s with
      | Some c => Some (s, c)
      | None => find_unit table' u
      end
  end.

(** Modelled from the spec: [unit_system(units)]; a string that is no
    unit, the empty string first of all, is in the system ["None"]. *)
Definition unit_system (u : string) : UnitSystem :=
  match find_unit AEDT_units u with
  | Some (s, _) => s
  | None => NoneSystem
  end.

Definition conversion (u : string) : Conversion :=
  match find_unit AEDT_units u with
  | Some (_, c) => c
  | None => factor 1
  end.

(** Modelled from the spec: a [Variable] holds its value in SI units and
    the units it is expressed in. *)
Record VariableT : Type := {
  value : R;
  units : string
}.

(** Modelled from the spec: [Variable(number, units)], and
    [Variable("<number><units>")] once the string is split. *)
Definition Variable_ (number : R) (u : string) : VariableT :=
  {| value := to_SI (conversion u) number; units := u |}.

(** Modelled from the spec: [Variable.numeric_value], the value in the
    variable's own units. *)
Definition numeric_value (v : VariableT) : R :=
  from_SI (conversion (units v)) (value v).

Definition system_of (v : VariableT) : UnitSystem := unit_system (units v).

(** Modelled from the spec: [Variable.rescale_to(units)]: the same
    quantity in another unit of the same system; a unit of another system
    fails the assertion. *)
Definition rescale_to (u : string) (v : VariableT) : result VariableT :=
  if decide (unit_system u = system_of v)
  then Ok {| value := value v; units := u |}
  else Raise AssertionError.

(** Modelled from the spec: the multiplication entries of
    [unit_system_operations]. *)
Definition unit_system_operations (a b : UnitSystem) : option UnitSystem :=
  match a, b with
  | Voltage, Current => Some Power
  | Torque, AngularSpeed => Some Power
  | AngularSpeed, Time => Some Angle
  | Current, Resistance => Some Voltage
  | AngularSpeed, Inductance => Some Resistance
  | Speed, Time => Some Length
  | _, _ => None
  end.

(** Modelled from the spec: [_resolve_unit_system], tried in the given
    order and then in the other. *)
Definition _resolve_unit_system (a b : UnitSystem) : option UnitSystem :=
  match unit_system_operations a b with
  | Some s => Some s
  | None => unit_system_operations b a
  end.

(** Modelled from the spec: [Variable.__mul__] on two variables.  A
    unitless operand scales the other; otherwise the SI values multiply and
    the result is in the SI unit of the resolved system (unitless when the
    table has no entry). *)
Definition __mul__ (a b : VariableT) : VariableT :=
  if decide (system_of a = NoneSystem) then
    Variable_ (numeric_value a * numeric_value b) (units b)
  else if decide (system_of b = NoneSystem) then
    Variable_ (numeric_value b * numeric_value a) (units a)
  else
    match _resolve_unit_system (system_of a) (system_of b) with
    | Some s => {| value := value a * value b; units := SI_units s |}
    | None => {| value := value a * value b; units := "" |}
    end.

(** Modelled from the spec: the shared body of [Variable.__add__] and
    [Variable.__sub__]: the operands must be of one unit system; the
    result is in SI units, or in the operands' units when these agree. *)
Definition additive (op : R -> R -> R) (a b : VariableT) : result VariableT :=
  if decide (system_of a = system_of b) then
    Ok {| value := op (value a) (value b);
          units := if decide (units a = units b) then units a
                   else SI_units (system_of a) |}
  else Raise AssertionError.

Definition __add__ (a b : VariableT) : result VariableT := additive Rplus a b.

Definition __sub__ (a b : VariableT) : result VariableT := additive Rminus a b.

End Variables.

(* ===================================================================== *)
(** * Part II: theorems *)
(* ===================================================================== *)

Module PySpec.
Import Py.

Section Rules.
Context {S : Type}.
Implicit Types P Q E : S -> Prop.

Lemma hoare_ret {A} (a : A) P Q E :
  (forall s, P s -> Q s) -> hoare P (ret a) Q E.
Proof. intros H s Hs. simpl. auto. Qed.

Lemma hoare_raise {A} (e : exn) P Q E :
  (forall s, P s -> E s) -> hoare P (raise (A := A) e) Q E.
Proof. intros H s Hs. simpl. auto. Qed.

Lemma hoare_modify (f : S -> S) P Q E :
  (forall s, P s -> Q (f s)) -> hoare P (modify f) Q E.
Proof. intros H s Hs. simpl. auto. Qed.

Lemma hoare_bind {A B} (m : M S A) (k : A -> M S B) P R Q E :
  hoare P m R E ->
  (forall a, hoare R (k a) Q E) ->
  hoare P (bind m k) Q E.
Proof.
  intros Hm Hk s Hs. unfold bind. specialize (Hm s Hs).
  destruct (m s) as [[a | e] s1]; [| exact Hm].
  apply (Hk a s1 Hm).
Qed.

Lemma hoare_try {A} (m : M S A) (h : exn -> M S A) P Q E E' :
  hoare P m Q E' ->
  (forall e, hoare E' (h e) Q E) ->
  hoare P (try_except m h) Q E.
Proof.
  intros Hm Hh s Hs. unfold try_except. specialize (Hm s Hs).
  destruct (m s) as [[a | e] s1]; [exact Hm |].
  apply (Hh e s1 Hm).
Qed.

Lemma hoare_conseq {A} (m : M S A) P P' Q Q' E E' :
  hoare P m Q E ->
  (forall s, P' s -> P s) ->
  (forall s, Q s -> Q' s) ->
  (forall s, E s -> E' s) ->
  hoare P' m Q' E'.
Proof.
  intros Hm HP HQ HE s Hs. specialize (Hm s (HP s Hs)).
  destruct (m s) as [[a | e] s1]; auto.
Qed.

Lemma returns_ret {A} (a : A) P Q :
  (forall s, P s -> Q s) -> returns P (ret a) Q.
Proof. intros H s Hs. exists a, s. split; [reflexivity | auto]. Qed.

Lemma returns_modify (f : S -> S) P Q :
  (forall s, P s -> Q (f s)) -> returns P (modify f) Q.
Proof. intros H s Hs. exists tt, (f s). split; [reflexivity | auto]. Qed.

Lemma returns_bind {A B} (m : M S A) (k : A -> M S B) P R Q :
  returns P m R ->
  (forall a, returns R (k a) Q) ->
  returns P (bind m k) Q.
Proof.
  intros Hm Hk s Hs. destruct (Hm s Hs) as (a & s1 & Heq & H1).
  unfold bind. rewrite Heq. apply (Hk a s1 H1).
Qed.

Lemma raises_raise {A} (e : exn) P (E : exn -> Prop) :
  E e -> raises P (raise (A := A) e) E.
Proof. intros H s Hs. exists e, s. split; [reflexivity | exact H]. Qed.

Lemma raises_bind {A B} (m : M S A) (k : A -> M S B) P R (E : exn -> Prop) :
  returns P m R ->
  (forall a, raises R (k a) E) ->
  raises P (bind m k) E.
Proof.
  intros Hm Hk s Hs. destruct (Hm s Hs) as (a & s1 & Heq & H1).
  unfold bind. rewrite Heq. apply (Hk a s1 H1).
Qed.

Lemma raises_bind_first {A B} (m : M S A) (k : A -> M S B) P
    (E : exn -> Prop) :
  raises P m E -> raises P (bind m k) E.
Proof.
  intros Hm s Hs. destruct (Hm s Hs) as (e & s1 & Heq & H1).
  unfold bind. rewrite Heq. eauto.
Qed.

End Rules.
End PySpec.

Module PostProcessorSpec.
Import PostProcessor.
Local Open Scope R_scope.

Lemma map_scale_id (l : list R) : List.map (fun i => i * 1) l = l.
Proof.
  induction l as [| x l IH]; simpl; [reflexivity |].
  rewrite IH. f_equal. lra.
Qed.

Lemma to_degrees_scale (l : list R) :
  to_degrees l = List.map (fun i => i * (2 * PI / 360)) l.
Proof.
  unfold to_degrees. apply List.map_ext. intros a. field.
Qed.

Lemma to_radians_scale (l : list R) :
  to_radians l = List.map (fun i => i * (360 / (2 * PI))) l.
Proof.
  unfold to_radians. apply List.map_ext. intros a. field. apply PI_neq0.
Qed.

Lemma to_radians_to_degrees (l : list R) : to_radians (to_degrees l) = l.
Proof.
  unfold to_radians, to_degrees. rewrite List.map_map.
  rewrite <- (List.map_id l) at 2. apply List.map_ext.
  intros a. field. apply PI_neq0.
Qed.

Lemma to_degrees_to_radians (l : list R) : to_degrees (to_radians l) = l.
Proof.
  unfold to_radians, to_degrees. rewrite List.map_map.
  rewrite <- (List.map_id l) at 2. apply List.map_ext.
  intros a. field. apply PI_neq0.
Qed.

Lemma run_post_op_scale units engine op (input : list R) :
  run_post_op units engine op input
  = List.map (fun i => i * scale_factor units op) input.
Proof.
  destruct op as [| | du u]; simpl.
  - apply to_degrees_scale.
  - apply to_radians_scale.
  - unfold _convert_list_to_SI.
    destruct (units !! du) as [table |]; [| symmetry; apply map_scale_id].
    destruct (table !! u) as [k |]; [reflexivity | symmetry; apply map_scale_id].
Qed.

(** C1, as stated, fails: with an engine that answers nothing but empty
    lists, [to_degrees [180]] still returns a one-element list, which is
    therefore not a value obtained from the engine. *)
Lemma C1_to_degrees_not_from_engine :
  ~ (forall (units : gmap string (gmap string R)) (engine : Engine)
            (op : PostOp) (input : list R),
        obtained_from_engine engine (run_post_op units engine op input)).
Proof.
  intros H.
  destruct (H ∅ silent_engine ToDegrees [180]) as [q Hq].
  simpl in Hq. unfold silent_engine in Hq. discriminate Hq.
Qed.

(** C1 (amended): [to_degrees], [to_radians] and [_convert_list_to_SI]
    compute their result locally: each returns the input list with every
    element multiplied by a constant fixed by the operation and the
    [AEDT_units] table, whatever the external engine answers. *)
Theorem C1_post_ops_computed_locally
    (units : gmap string (gmap string R)) (op : PostOp) :
  forall (engine engine' : Engine) (input : list R),
    run_post_op units engine op input
    = List.map (fun i => i * scale_factor units op) input
    /\ run_post_op units engine op input
       = run_post_op units engine' op input.
Proof.
  intros engine engine' input. split.
  - apply run_post_op_scale.
  - destruct op; reflexivity.
Qed.

(** C9: [to_degrees] multiplies every element by [2*pi/360] and
    [to_radians] by [360/(2*pi)]; each is a two-sided inverse of the other;
    and the factor of [to_degrees] is the degrees-to-radians factor
    [pi/180], so that it sends 180 to [pi]. *)
Theorem C9_angle_conversions_inverse (l : list R) :
  to_degrees l = List.map (fun i => i * (2 * PI / 360)) l
  /\ to_radians l = List.map (fun i => i * (360 / (2 * PI))) l
  /\ to_radians (to_degrees l) = l
  /\ to_degrees (to_radians l) = l
  /\ 2 * PI / 360 = PI / 180
  /\ to_degrees [180] = [PI].
Proof.
  split; [apply to_degrees_scale |].
  split; [apply to_radians_scale |].
  split; [apply to_radians_to_degrees |].
  split; [apply to_degrees_to_radians |].
  split; [field |].
  unfold to_degrees; simpl. f_equal. field.
Qed.

End PostProcessorSpec.

Module SolutionDataSpec.
Import PostProcessor SolutionData.

Section DictionarySpec.
Context {K V : Type} `{EqDecision K}.

Lemma item_assign_eq (k : K) (v : V) (d : Dict K V) :
  item k (assign k v d) = Some v.
Proof.
  induction d as [| [k' v'] d IH]; simpl.
  - rewrite bool_decide_eq_true_2 by reflexivity. reflexivity.
  - destruct (bool_decide (k' = k)) eqn:Hk; simpl; rewrite Hk;
      [reflexivity | exact IH].
Qed.

Lemma item_assign_ne (k k' : K) (v : V) (d : Dict K V) :
  k <> k' -> item k (assign k' v d) = item k d.
Proof.
  intros Hne. induction d as [| [k1 v1] d IH]; simpl.
  - rewrite bool_decide_eq_false_2 by congruence. reflexivity.
  - destruct (bool_decide (k1 = k')) eqn:Hk; simpl.
    + apply bool_decide_eq_true_1 in Hk. subst k1.
      rewrite bool_decide_eq_false_2 by congruence. reflexivity.
    + rewrite IH. reflexivity.
Qed.

Lemma item_assign (k k' : K) (v : V) (d : Dict K V) :
  item k (assign k' v d) = if bool_decide (k = k') then Some v else item k d.
Proof.
  destruct (bool_decide (k = k')) eqn:Hk.
  - apply bool_decide_eq_true_1 in Hk. subst k'. apply item_assign_eq.
  - apply bool_decide_eq_false_1 in Hk. apply item_assign_ne. exact Hk.
Qed.

Lemma fromkeys_fold (l acc : list K) :
  NoDup acc ->
  let r :=
    fold_left (fun d k => if bool_decide (k ∈ d) then d else d ++ [k]) l acc in
  NoDup r /\ (forall x, x ∈ r <-> x ∈ acc \/ x ∈ l).
Proof.
  revert acc. induction l as [| k l IH]; intros acc Hacc; simpl.
  - split; [exact Hacc |]. intros x. split; [auto |].
    intros [Hx | Hx]; [exact Hx | inversion Hx].
  - destruct (bool_decide (k ∈ acc)) eqn:Hk.
    + apply bool_decide_eq_true_1 in Hk.
      destruct (IH acc Hacc) as [Hnodup Hin]. split; [exact Hnodup |].
      intros x. rewrite Hin. split.
      * intros [Hx | Hx]; [left; exact Hx | right; right; exact Hx].
      * intros [Hx | Hx]; [left; exact Hx |].
        apply elem_of_cons in Hx as [-> | Hx];
          [left; exact Hk | right; exact Hx].
    + apply bool_decide_eq_false_1 in Hk.
      assert (Hacc' : NoDup (acc ++ [k])).
      { apply NoDup_app. repeat split; [exact Hacc | | apply NoDup_singleton].
        intros x Hx Hx'. apply list_elem_of_singleton in Hx'. subst x.
        contradiction. }
      destruct (IH (acc ++ [k]) Hacc') as [Hnodup Hin].
      split; [exact Hnodup |].
      intros x. rewrite Hin, elem_of_app, list_elem_of_singleton,
        elem_of_cons. tauto.
Qed.

Lemma fromkeys_nodup (l : list K) : NoDup (fromkeys l).
Proof. apply (fromkeys_fold l []). constructor. Qed.

Lemma fromkeys_elem_of (l : list K) (x : K) : x ∈ fromkeys l <-> x ∈ l.
Proof.
  destruct (fromkeys_fold l [] (NoDup_nil_2)) as [_ Hin].
  unfold fromkeys. rewrite Hin. split; [| auto].
  intros [Hx | Hx]; [inversion Hx | exact Hx].
Qed.

Lemma fromkeys_fold_distinct (l acc : list K) :
  NoDup (acc ++ l) ->
  fold_left (fun d k => if bool_decide (k ∈ d) then d else d ++ [k]) l acc
  = acc ++ l.
Proof.
  revert acc. induction l as [| k l IH]; intros acc Hnodup; simpl.
  - symmetry. apply app_nil_r.
  - apply NoDup_app in Hnodup as (Hacc & Hdisjoint & Hl).
    rewrite bool_decide_eq_false_2.
    + rewrite IH.
      * rewrite <- app_assoc. reflexivity.
      * rewrite <- app_assoc. simpl. apply NoDup_app.
        repeat split; assumption.
    + intros Hk. apply (Hdisjoint k Hk). left.
Qed.

Lemma fromkeys_distinct (l : list K) : NoDup l -> fromkeys l = l.
Proof. intros Hl. apply (fromkeys_fold_distinct l []). exact Hl. Qed.

End DictionarySpec.

Lemma update_sweeps_item (variation : Variation) (names : list string)
    (acc : Dict string (list R)) (el : string) :
  item el
    (fold_left
       (fun sweeps el =>
          assign el (fromkeys (engine variation (GetSweepValues el))) sweeps)
       names acc) =
  if bool_decide (el ∈ names)
  then Some (fromkeys (engine variation (GetSweepValues el)))
  else item el acc.
Proof.
  revert acc. induction names as [| n names IH]; intros acc; simpl;
    [reflexivity |].
  rewrite IH, item_assign.
  destruct (bool_decide (el ∈ names)) eqn:Hin.
  - apply bool_decide_eq_true_1 in Hin.
    rewrite bool_decide_eq_true_2 by (right; exact Hin). reflexivity.
  - apply bool_decide_eq_false_1 in Hin.
    destruct (bool_decide (el = n)) eqn:Hn.
    + apply bool_decide_eq_true_1 in Hn. subst n.
      rewrite bool_decide_eq_true_2 by left. reflexivity.
    + apply bool_decide_eq_false_1 in Hn.
      rewrite bool_decide_eq_false_2; [reflexivity |].
      intros Hel. apply elem_of_cons in Hel as [Heq | Hel];
        [congruence | contradiction].
Qed.

(** X27: the guard of the setter of [nominal_variation] lets the number of
    variations itself through: on a [SolutionData] of [n] variations,
    assigning [n] raises [IndexError] and changes nothing; an index from
    0 to [n - 1] selects that variation; any other number only prints
    that it is not in the variations. *)
Theorem nominal_variation_setter_bounds (val : Z) (s : State) :
  number_of_variations s = Z.of_nat (length (_original_data s)) ->
  (val = number_of_variations s ->
   nominal_variation_setter val s = (inr IndexError, s))
  /\ ((0 <= val < number_of_variations s)%Z ->
      exists (variation : Variation) (s' : State),
        _original_data s !! Z.to_nat val = Some variation
        /\ nominal_variation_setter val s = (inl tt, s')
        /\ _nominal_variation s' = Some variation)
  /\ ((val < 0 \/ number_of_variations s < val)%Z ->
      exists s' : State,
        nominal_variation_setter val s = (inl tt, s')
        /\ _nominal_variation s' = _nominal_variation s
        /\ printed s' = printed s ++ [pretty val +:+ " not in Variations"]).
Proof.
  intros Hn. unfold nominal_variation_setter. repeat split.
  - intros ->.
    replace ((0 <=? number_of_variations s)%Z
             && (number_of_variations s <=? number_of_variations s)%Z)
      with true by (symmetry; apply andb_true_iff; lia).
    rewrite Hn, Nat2Z.id.
    rewrite (proj2 (lookup_ge_None _ _)) by lia. reflexivity.
  - intros Hval.
    replace ((0 <=? val)%Z && (val <=? number_of_variations s)%Z)
      with true by (symmetry; apply andb_true_iff; lia).
    destruct (_original_data s !! Z.to_nat val) as [variation |] eqn:Hlook.
    + eexists _, _. repeat split.
    + apply lookup_ge_None in Hlook. lia.
  - intros Hval.
    replace ((0 <=? val)%Z && (val <=? number_of_variations s)%Z)
      with false by (symmetry; apply andb_false_iff; lia).
    eexists. repeat split.
Qed.

(** X28: [expressions] and the sweeps that [update_sweeps] stores hold no
    value twice: [expressions] has the elements of [GetDataExpressions],
    each once, and is that list when the list has no repetition; a sweep
    is stored exactly for the names given, with the values of
    [GetSweepValues], each once. *)
Theorem expressions_and_sweeps_are_distinct
    (variation : Variation) (names : list string) (el : string) :
  NoDup (expressions variation)
  /\ (forall e : string,
        e ∈ expressions variation <-> e ∈ GetDataExpressions variation)
  /\ (NoDup (GetDataExpressions variation) ->
      expressions variation = GetDataExpressions variation)
  /\ match item el (update_sweeps variation names) with
     | Some values =>
         el ∈ names /\ NoDup values
         /\ forall x : R,
              x ∈ values <-> x ∈ engine variation (GetSweepValues el)
     | None => el ∉ names
     end.
Proof.
  repeat split.
  - apply fromkeys_nodup.
  - apply fromkeys_elem_of.
  - apply fromkeys_elem_of.
  - apply fromkeys_distinct.
  - unfold update_sweeps. rewrite update_sweeps_item.
    destruct (bool_decide (el ∈ names)) eqn:Hin.
    + apply bool_decide_eq_true_1 in Hin.
      split; [exact Hin |]. split; [apply fromkeys_nodup |].
      intros x. apply fromkeys_elem_of.
    + apply bool_decide_eq_false_1 in Hin. exact Hin.
Qed.

Section DictionaryKeys.
Context {K V : Type} `{EqDecision K}.

Lemma assign_keys (k : K) (v : V) (d : Dict K V) :
  List.map fst (assign k v d) =
  if bool_decide (k ∈ List.map fst d) then List.map fst d
  else List.map fst d ++ [k].
Proof.
  induction d as [| [k' v'] d IH]; simpl; [reflexivity |].
  destruct (bool_decide (k' = k)) eqn:Hk.
  - apply bool_decide_eq_true_1 in Hk. subst k'.
    rewrite bool_decide_eq_true_2 by left. reflexivity.
  - apply bool_decide_eq_false_1 in Hk. simpl. rewrite IH.
    destruct (bool_decide (k ∈ List.map fst d)) eqn:Hin.
    + apply bool_decide_eq_true_1 in Hin.
      rewrite bool_decide_eq_true_2 by (right; exact Hin). reflexivity.
    + apply bool_decide_eq_false_1 in Hin.
      rewrite bool_decide_eq_false_2; [reflexivity |].
      intros Hel. apply elem_of_cons in Hel as [Heq | Hel];
        [congruence | contradiction].
Qed.

Lemma item_is_Some (k : K) (d : Dict K V) :
  k ∈ List.map fst d -> exists v : V, item k d = Some v.
Proof.
  induction d as [| [k' v'] d IH]; simpl; intros Hin; [inversion Hin |].
  destruct (bool_decide (k' = k)) eqn:Hk; [eexists; reflexivity |].
  apply bool_decide_eq_false_1 in Hk.
  apply elem_of_cons in Hin as [Heq | Hin]; [congruence | exact (IH Hin)].
Qed.

Lemma index_is_Some (k : K) (l : list K) :
  k ∈ l -> exists i : nat, index k l = Some i /\ (i < length l)%nat.
Proof.
  induction l as [| k' l IH]; simpl; intros Hin; [inversion Hin |].
  destruct (bool_decide (k' = k)) eqn:Hk;
    [exists O; split; [reflexivity | lia] |].
  apply bool_decide_eq_false_1 in Hk.
  apply elem_of_cons in Hin as [Heq | Hin]; [congruence |].
  destruct (IH Hin) as (i & -> & Hi). exists (S i). split; [reflexivity | lia].
Qed.

End DictionaryKeys.

Lemma update_sweeps_keys (variation : Variation) (names : list string) :
  List.map fst (update_sweeps variation names) = fromkeys names.
Proof.
  unfold update_sweeps, fromkeys.
  change (@nil string) with (List.map fst (@nil (string * list R))) at 2.
  generalize (@nil (string * list R)) as acc.
  induction names as [| n names IH]; intros acc; simpl; [reflexivity |].
  rewrite IH, assign_keys. reflexivity.
Qed.

Lemma nominal_and_units_keys (variation : Variation)
    (sweeps : Dict string (list R)) :
  NoDup (List.map fst sweeps) ->
  List.map fst (fst (nominal_and_units variation sweeps)) = List.map fst sweeps.
Proof.
  unfold nominal_and_units.
  assert (Hgen : forall (l : Dict string (list R))
                   (acc : Dict string (option R) * Dict string string),
             NoDup (List.map fst (fst acc) ++ List.map fst l) ->
             List.map fst
               (fst (fold_left
                  (fun acc entry =>
                     let e := fst entry in
                     match snd entry, GetSweepUnits variation e with
                     | first :: _, Some units =>
                         (assign e (Some first) (fst acc),
                          assign e units (snd acc))
                     | _, _ => (assign e None (fst acc), snd acc)
                     end) l acc)) =
             List.map fst (fst acc) ++ List.map fst l).
  { induction l as [| [e values] l IH]; intros acc Hnodup; simpl.
    - symmetry. apply app_nil_r.
    - simpl in Hnodup.
      assert (Hfresh : e ∉ List.map fst (fst acc)).
      { apply NoDup_app in Hnodup as (_ & Hdisjoint & _).
        intros He. apply (Hdisjoint e He). left. }
      assert (Hnext : forall x : option R,
                List.map fst (assign e x (fst acc)) =
                List.map fst (fst acc) ++ [e]).
      { intros x. rewrite assign_keys.
        rewrite bool_decide_eq_false_2 by exact Hfresh. reflexivity. }
      destruct values as [| first values];
        [| destruct (GetSweepUnits variation e)];
        (rewrite IH
           by (cbn [fst snd]; rewrite Hnext, <- app_assoc; exact Hnodup));
        cbn [fst snd]; rewrite Hnext, <- app_assoc; reflexivity. }
  intros Hnodup. rewrite Hgen; [reflexivity | exact Hnodup].
Qed.

Lemma init_fields (Data : list Variation) (s : State) :
  __init__ Data = inl s ->
  exists (variation : Variation) (rest : list Variation),
    Data = variation :: rest
    /\ _nominal_variation s = Some variation
    /\ _sweeps_names s = GetSweepNames variation
    /\ _sweeps s = update_sweeps variation (_sweeps_names s)
    /\ Some (_primary_sweep s) = head (_sweeps_names s)
    /\ nominal_sweeps s = fst (nominal_and_units variation (_sweeps s))
    /\ solutions_data_real s =
       _solution_data_real variation (_sweeps_names s) (_sweeps s)
    /\ magnitudes variation (expressions variation) (solutions_data_real s)
         (solutions_data_imag s) ([], []) =
       inl (solutions_data_mag s, units_data s).
Proof.
  unfold __init__. destruct Data as [| variation rest]; [discriminate |].
  destruct (GetSweepNames variation) as [| primary names] eqn:Hnames;
    [discriminate |].
  destruct (nominal_and_units variation _) as [nominal units] eqn:Hnominal.
  destruct (_solution_data_imag _ _ _ _) as [imag | e]; [| discriminate].
  destruct (magnitudes _ _ _ _ _) as [[mag units_data] | e] eqn:Hmag;
    [| discriminate].
  intros [= <-]. simpl. exists variation, rest.
  rewrite Hnominal.
  repeat split; first [exact Hmag | symmetry; exact Hnames].
Qed.

Section UnitsSpec.

Variable AEDT_units : list (string * list (string * R)).

Local Abbreviation data := (data AEDT_units).
Local Abbreviation data_real := (data_real AEDT_units).
Local Abbreviation data_imag := (data_imag AEDT_units).
Local Abbreviation data_magnitude := (data_magnitude AEDT_units).

Lemma sweep_loop_length (values : list R) (temp : Point) (position : nat)
    (value_at : Point -> R + error) (sol : list R) :
  sweep_loop values temp position value_at = inl sol ->
  length sol = length values.
Proof.
  revert temp sol. induction values as [| el values IH]; intros temp sol;
    simpl.
  - intros [= <-]. reflexivity.
  - destruct (position <? length temp)%nat; [| discriminate].
    destruct (value_at _); [| discriminate].
    destruct (sweep_loop values _ position value_at) as [sol' |] eqn:Hrest;
      [| discriminate].
    intros [= <-]. simpl. f_equal. exact (IH _ _ Hrest).
Qed.

Lemma sweep_loop_zeros (values : list R) (temp : Point) (position : nat) :
  (position < length temp)%nat ->
  sweep_loop values temp position (fun _ => inl 0%R) =
  inl (List.map (fun _ => 0%R) values).
Proof.
  revert temp.
  induction values as [| el values IH]; intros temp Hp; cbn [sweep_loop];
    [reflexivity |].
  rewrite (proj2 (Nat.ltb_lt _ _) Hp).
  rewrite IH by (rewrite length_insert; exact Hp). reflexivity.
Qed.

Lemma data_total (table : option (Dict string (Dict Point R)))
    (name : string) (s : State) (position : nat) (values : list R) :
  name <> "" ->
  index (_primary_sweep s) (rev (_sweeps_names s)) = Some position ->
  (position < length (nominal_sweeps s))%nat ->
  item (_primary_sweep s) (_sweeps s) = Some values ->
  exists sol : list R,
    data table (Some name) false s = inl sol
    /\ length sol = length values
    /\ (match table with
        | Some t => item name t = None
        | None => True
        end -> sol = List.map (fun _ => 0%R) values).
Proof.
  intros Hname Hindex Hposition Hvalues. unfold SolutionData.data.
  rewrite bool_decide_eq_false_2 by exact Hname.
  assert (Htemp : (position <
                   length (rev (List.map snd (nominal_sweeps s))))%nat).
  { rewrite length_rev, length_map. exact Hposition. }
  assert (Hzeros : sweep_solution s (rev (List.map snd (nominal_sweeps s)))
                     (fun _ => inl 0%R) =
                   inl (List.map (fun _ => 0%R) values)).
  { unfold sweep_solution. rewrite Hindex, Hvalues.
    apply sweep_loop_zeros. exact Htemp. }
  destruct table as [t |].
  - destruct (item name t) as [solution_Data |] eqn:Hitem.
    + rewrite Hzeros. clear Hzeros.
      destruct (sweep_solution s _ _) as [sol | e] eqn:Htried.
      * exists sol. split; [reflexivity |]. split; [| discriminate].
        unfold sweep_solution in Htried. rewrite Hindex, Hvalues in Htried.
        exact (sweep_loop_length _ _ _ _ _ Htried).
      * eexists. split; [reflexivity |].
        split; [apply length_map | discriminate].
    + rewrite Hzeros. eexists. split; [reflexivity |].
      split; [apply length_map | reflexivity].
  - rewrite Hzeros. eexists. split; [reflexivity |].
    split; [apply length_map | reflexivity].
Qed.

Lemma map_Some_inj (t t' : list R) :
  List.map Some t = List.map Some t' -> t = t'.
Proof.
  revert t'. induction t as [| x t IH]; intros [| x' t']; simpl;
    try discriminate; [reflexivity |].
  intros [= -> Ht]. f_equal. exact (IH _ Ht).
Qed.

Lemma fill_lookup (tuples : list (list R)) (solution : list R)
    (d0 d : Dict Point R) :
  fill tuples solution d0 = inl d ->
  NoDup tuples ->
  (forall (i : nat) (t : list R),
     tuples !! i = Some t ->
     exists y : R, solution !! i = Some y /\ item (List.map Some t) d = Some y)
  /\ (forall k : Point,
        (forall t : list R, t ∈ tuples -> List.map Some t <> k) ->
        item k d = item k d0).
Proof.
  revert solution d0. induction tuples as [| t tuples IH];
    intros solution d0; simpl.
  - intros [= <-] _. split; [intros i t Hi; inversion Hi | reflexivity].
  - destruct solution as [| y solution]; [discriminate |].
    intros Hfill Hnodup. apply NoDup_cons in Hnodup as [Hfresh Hnodup].
    destruct (IH _ _ Hfill Hnodup) as [Hin Hout]. split.
    + intros [| i] t' Hi; simpl in Hi.
      * injection Hi as <-. exists y. split; [reflexivity |].
        rewrite Hout; [apply item_assign_eq |].
        intros t' Ht' Heq. apply map_Some_inj in Heq. subst t'.
        contradiction.
      * exact (Hin i t' Hi).
    + intros k Hk. rewrite Hout.
      * apply item_assign_ne. intros Heq.
        apply (Hk t); [left | symmetry; exact Heq].
      * intros t' Ht'. apply Hk. right. exact Ht'.
Qed.

Lemma product_single (values : list R) :
  product [values] = List.map (fun x => [x]) values.
Proof.
  simpl. induction values as [| x values IH]; simpl; [reflexivity |].
  rewrite IH. reflexivity.
Qed.

Lemma solutions_item (exprs : list string)
    (solution_of : string -> list R + error) (values : list (list R))
    (acc sols : Dict string (Dict Point R)) (e : string) :
  solutions exprs solution_of (Some values) acc = inl sols ->
  NoDup exprs ->
  if bool_decide (e ∈ exprs) then
    exists (solution : list R) (d : Dict Point R),
      solution_of e = inl solution
      /\ fill (product values) solution [] = inl d
      /\ item e sols = Some d
  else item e sols = item e acc.
Proof.
  revert acc. induction exprs as [| x exprs IH]; intros acc; simpl.
  - intros [= <-] _. reflexivity.
  - destruct (solution_of x) as [solution |] eqn:Hsol; [| discriminate].
    destruct (fill (product values) solution []) as [d |] eqn:Hfill;
      [| discriminate].
    intros Hrest Hnodup. apply NoDup_cons in Hnodup as [Hfresh Hnodup].
    specialize (IH _ Hrest Hnodup).
    destruct (bool_decide (e ∈ exprs)) eqn:Hin.
    + apply bool_decide_eq_true_1 in Hin.
      rewrite bool_decide_eq_true_2 by (right; exact Hin). exact IH.
    + apply bool_decide_eq_false_1 in Hin.
      destruct (decide (e = x)) as [-> | Hne].
      * rewrite bool_decide_eq_true_2 by left.
        exists solution, d. repeat split; try assumption.
        rewrite IH. apply item_assign_eq.
      * rewrite bool_decide_eq_false_2.
        -- rewrite IH. apply item_assign_ne. exact Hne.
        -- intros Hel. apply elem_of_cons in Hel as [Heq | Hel];
             [congruence | contradiction].
Qed.

Lemma magnitudes_need_real (variation : Variation) (exprs : list string)
    (imag : Dict string (Dict Point R))
    (acc r : Dict string (Dict Point R) * Dict string string) :
  magnitudes variation exprs None imag acc = inl r -> exprs = [].
Proof. destruct exprs; [reflexivity | discriminate]. Qed.

Lemma sweep_loop_single (values solution : list R) (temp : Point)
    (value_at : Point -> R + error) :
  length temp = 1%nat ->
  (forall (i : nat) (x : R),
     values !! i = Some x ->
     exists y : R, solution !! i = Some y /\ value_at [Some x] = inl y) ->
  sweep_loop values temp 0 value_at = inl (take (length values) solution).
Proof.
  revert solution temp.
  induction values as [| el values IH]; intros solution temp Htemp Hat;
    cbn [sweep_loop]; [reflexivity |].
  destruct temp as [| y0 [| y1 temp]]; try discriminate Htemp.
  cbn [length Nat.ltb Nat.leb].
  change (<[0%nat := Some el]> [y0]) with [Some el].
  destruct (Hat O el eq_refl) as (y & Hy & Hvalue).
  destruct solution as [| y' solution]; [discriminate Hy |].
  injection Hy as ->. rewrite Hvalue.
  rewrite (IH solution [Some el] eq_refl); [reflexivity |].
  intros i x Hi. exact (Hat (S i) x Hi).
Qed.

(** X29: on a [SolutionData] with one sweep, [data_real] of an expression
    of the data is the head of the list that [GetRealDataValues] gave for
    it, one value for each distinct value of the sweep, in the order of
    the sweep. *)
Theorem data_real_single_sweep
    (variation : Variation) (rest : list Variation) (s : State)
    (sweep expression : string) :
  __init__ (variation :: rest) = inl s ->
  GetSweepNames variation = [sweep] ->
  expression ∈ GetDataExpressions variation ->
  expression <> "" ->
  let values := fromkeys (engine variation (GetSweepValues sweep)) in
  item sweep (_sweeps s) = Some values
  /\ (length values <=
      length (engine variation (GetRealDataValues expression)))%nat
  /\ data_real (Some expression) false s =
     inl (take (length values)
            (engine variation (GetRealDataValues expression))).
Proof.
  intros Hinit Hnames Hexpr Hname values.
  destruct (init_fields _ _ Hinit)
    as (variation' & rest' & [= <- <-] & _ & Hsweeps_names & Hsweeps
        & Hprimary & Hnominal & Hreal & Hmag).
  rewrite Hnames in Hsweeps_names. rewrite Hsweeps_names in *.
  injection Hprimary as Hprimary.
  assert (Hsw : _sweeps s = [(sweep, values)]) by exact Hsweeps.
  assert (Hvalues : item sweep (_sweeps s) = Some values).
  { rewrite Hsw. simpl. rewrite bool_decide_eq_true_2 by reflexivity.
    reflexivity. }
  split; [exact Hvalues |].
  assert (Hin : expression ∈ expressions variation)
    by (apply fromkeys_elem_of; exact Hexpr).
  destruct (solutions_data_real s) as [real |] eqn:Htable.
  2: { apply magnitudes_need_real in Hmag. rewrite Hmag in Hin.
       inversion Hin. }
  symmetry in Hreal. unfold _solution_data_real in Hreal.
  destruct (_solution_data_real_body variation [sweep] (_sweeps s))
    as [real' |] eqn:Hbody; [| discriminate Hreal].
  injection Hreal as ->. unfold _solution_data_real_body in Hbody.
  assert (Hsv : sweep_values [sweep] (_sweeps s) = Some [values]).
  { unfold sweep_values. simpl. rewrite Hvalues. reflexivity. }
  rewrite Hsv in Hbody.
  pose proof (solutions_item _ _ _ _ _ expression Hbody
                (fromkeys_nodup _)) as Hitem.
  rewrite (bool_decide_eq_true_2 _ Hin) in Hitem.
  destruct Hitem as (solution & d & [= <-] & Hfill & Hitem).
  rewrite product_single in Hfill.
  assert (Hnodup : NoDup (List.map (fun x : R => [x]) values)).
  { apply NoDup_fmap_2; [intros x y [= ->]; reflexivity |].
    apply fromkeys_nodup. }
  destruct (fill_lookup _ _ _ _ Hfill Hnodup) as [Hlookup _].
  assert (Hat : forall (i : nat) (x : R),
            values !! i = Some x ->
            exists y : R,
              engine variation (GetRealDataValues expression) !! i = Some y
              /\ item [Some x] d = Some y).
  { intros i x Hi. apply (Hlookup i [x]).
    rewrite list_lookup_fmap, Hi. reflexivity. }
  split.
  - destruct (decide (length values = O)) as [-> | Hpos]; [lia |].
    destruct (lookup_lt_is_Some_2 values (length values - 1))
      as [x Hx]; [lia |].
    destruct (Hat _ _ Hx) as (y & Hy & _).
    apply lookup_lt_Some in Hy. lia.
  - unfold SolutionData.data_real, data. rewrite Htable.
    rewrite bool_decide_eq_false_2 by exact Hname.
    rewrite Hitem. unfold sweep_solution.
    rewrite Hsweeps_names, Hprimary, Hvalues. simpl index.
    rewrite bool_decide_eq_true_2 by reflexivity.
    assert (Htemp : length (rev (List.map snd (nominal_sweeps s))) = 1%nat).
    { rewrite length_rev, length_map, Hnominal, <- (length_map fst),
        nominal_and_units_keys, Hsw by (rewrite Hsw; apply NoDup_singleton).
      reflexivity. }
    rewrite (sweep_loop_single values
               (engine variation (GetRealDataValues expression)) _ _ Htemp).
    + reflexivity.
    + intros i x Hi. destruct (Hat i x Hi) as (y & Hy & Hd).
      exists y. split; [exact Hy |]. rewrite Hd. reflexivity.
Qed.

(** X30: on a [SolutionData] that [__init__] built from sweeps of distinct
    names, also after [primary_sweep] was assigned, [data_real],
    [data_imag] and [data_magnitude] do not raise for a named expression
    (with [convert_to_SI] false): each returns one value for every value
    of the primary sweep, and the magnitude of an expression that is not
    in the data is zero at each of them. *)
Theorem data_has_one_value_per_sweep_value
    (Data : list Variation) (s : State) (ps name : string) :
  __init__ Data = inl s ->
  NoDup (_sweeps_names s) ->
  name <> "" ->
  let s' := primary_sweep_setter ps s in
  exists (values real imag magnitude : list R),
    item (_primary_sweep s') (_sweeps s') = Some values
    /\ data_real (Some name) false s' = inl real
    /\ data_imag (Some name) false s' = inl imag
    /\ data_magnitude (Some name) false s' = inl magnitude
    /\ length real = length values
    /\ length imag = length values
    /\ length magnitude = length values
    /\ (item name (solutions_data_mag s') = None ->
        magnitude = List.map (fun _ => 0%R) values).
Proof.
  intros Hinit Hnames Hname s'.
  destruct (init_fields _ _ Hinit)
    as (variation & rest & _ & _ & Hsweeps_names & Hsweeps & Hprimary
        & Hnominal & _).
  assert (Hkeys : List.map fst (_sweeps s) = _sweeps_names s).
  { rewrite Hsweeps, update_sweeps_keys. apply fromkeys_distinct.
    exact Hnames. }
  assert (Hsame : _sweeps s' = _sweeps s
                  /\ _sweeps_names s' = _sweeps_names s
                  /\ nominal_sweeps s' = nominal_sweeps s
                  /\ _primary_sweep s' ∈ _sweeps_names s).
  { subst s'. unfold primary_sweep_setter.
    destruct (bool_decide (ps ∈ List.map fst (_sweeps s))) eqn:Hps; simpl.
    - apply bool_decide_eq_true_1 in Hps. rewrite Hkeys in Hps.
      repeat split. exact Hps.
    - repeat split. destruct (_sweeps_names s) as [| n names];
        [discriminate Hprimary |].
      injection Hprimary as ->. left. }
  destruct Hsame as (Hs1 & Hs2 & Hs3 & Hin).
  assert (Hlength : length (nominal_sweeps s') = length (_sweeps_names s)).
  { rewrite Hs3, Hnominal, <- (length_map fst), nominal_and_units_keys,
      Hkeys by (rewrite Hkeys; exact Hnames). reflexivity. }
  destruct (index_is_Some (_primary_sweep s') (rev (_sweeps_names s')))
    as (position & Hindex & Hposition).
  { rewrite Hs2. apply list_elem_of_In. apply -> in_rev.
    apply list_elem_of_In. exact Hin. }
  rewrite length_rev, Hs2, <- Hlength in Hposition.
  destruct (item_is_Some (_primary_sweep s') (_sweeps s')) as [values Hvalues].
  { rewrite Hs1, Hkeys. exact Hin. }
  destruct (data_total (solutions_data_real s') name s' position values
              Hname Hindex Hposition Hvalues) as (real & Hreal & Hlr & _).
  destruct (data_total (Some (solutions_data_imag s')) name s' position
              values Hname Hindex Hposition Hvalues)
    as (imag & Himag & Hli & _).
  destruct (data_total (Some (solutions_data_mag s')) name s' position
              values Hname Hindex Hposition Hvalues)
    as (magnitude & Hmag & Hlm & Hzero).
  exists values, real, imag, magnitude. repeat split; assumption.
Qed.

End UnitsSpec.

Lemma item_head {K V : Type} `{EqDecision K} (k : K) (v : V) (d : Dict K V) :
  item k ((k, v) :: d) = Some v.
Proof. simpl. rewrite bool_decide_eq_true_2 by reflexivity. reflexivity. Qed.

(** [__init__] on the small solution. *)
Lemma toy_init : __init__ [toy_variation] = inl toy_solution.
Proof.
  cbv -[item sqrt Rplus Rmult IZR].
  rewrite !item_head.
  cbv -[item sqrt Rplus Rmult IZR].
  rewrite ?item_head.
  cbv -[item sqrt Rplus Rmult IZR].
  reflexivity.
Qed.

Lemma nominal_variation_setter_witness :
  (1%Z = number_of_variations toy_solution ->
   nominal_variation_setter 1 toy_solution = (inr IndexError, toy_solution))
  /\ ((0 <= 1 < number_of_variations toy_solution)%Z ->
      exists (variation : Variation) (s' : State),
        _original_data toy_solution !! Z.to_nat 1 = Some variation
        /\ nominal_variation_setter 1 toy_solution = (inl tt, s')
        /\ _nominal_variation s' = Some variation)
  /\ ((1 < 0 \/ number_of_variations toy_solution < 1)%Z ->
      exists s' : State,
        nominal_variation_setter 1 toy_solution = (inl tt, s')
        /\ _nominal_variation s' = _nominal_variation toy_solution
        /\ printed s' =
           printed toy_solution ++ [pretty 1%Z +:+ " not in Variations"]).
Proof.
  apply (nominal_variation_setter_bounds 1 toy_solution). reflexivity.
Defined.

Lemma data_real_single_sweep_witness :
  let values := fromkeys (toy_engine (GetSweepValues "Freq")) in
  item "Freq" (_sweeps toy_solution) = Some values
  /\ (length values <= length (toy_engine (GetRealDataValues "S11")))%nat
  /\ data_real [] (Some "S11") false toy_solution =
     inl (take (length values) (toy_engine (GetRealDataValues "S11"))).
Proof.
  apply (data_real_single_sweep [] toy_variation [] toy_solution "Freq"
           "S11").
  - exact toy_init.
  - reflexivity.
  - apply (bool_decide_eq_true_1 ("S11" ∈ ["S11"])). reflexivity.
  - discriminate.
Defined.

Lemma data_has_one_value_witness :
  let s' := primary_sweep_setter "Freq" toy_solution in
  exists (values real imag magnitude : list R),
    item (_primary_sweep s') (_sweeps s') = Some values
    /\ data_real [] (Some "S11") false s' = inl real
    /\ data_imag [] (Some "S11") false s' = inl imag
    /\ data_magnitude [] (Some "S11") false s' = inl magnitude
    /\ length real = length values
    /\ length imag = length values
    /\ length magnitude = length values
    /\ (item "S11" (solutions_data_mag s') = None ->
        magnitude = List.map (fun _ => 0%R) values).
Proof.
  apply (data_has_one_value_per_sweep_value [] [toy_variation] toy_solution
           "Freq" "S11").
  - exact toy_init.
  - apply NoDup_singleton.
  - discriminate.
Defined.

End SolutionDataSpec.

Module Object3dSpec.
Import Py Object3d.

Section EditorSpec.

Variable Editor : Type.
Variable Fillet : Editor -> PyVal -> PyVal -> Editor.
Variable Chamfer : Editor -> PyVal -> PyVal -> Editor.
Variable GetObjectsInGroup : Editor -> string -> list string.
Variable Undo : Editor -> Editor.
Variable _arg_with_dim : Value -> string.
Variable solid_names sheet_names line_names : list string.
Variable str : Value -> string.

Local Abbreviation St := (State Editor).
Local Abbreviation fillet :=
  (fillet Editor Fillet GetObjectsInGroup Undo _arg_with_dim
     solid_names sheet_names line_names).
Local Abbreviation chamfer :=
  (chamfer Editor Chamfer GetObjectsInGroup Undo _arg_with_dim
     solid_names sheet_names line_names str).
Local Abbreviation is3d := (is3d Editor solid_names sheet_names line_names).
Local Abbreviation id_lists := (id_lists Editor solid_names sheet_names line_names).
Local Abbreviation check_unclassified :=
  (check_unclassified Editor GetObjectsInGroup Undo).

(** [is3d] on an object listed among the solids. *)
Lemma is3d_solid (st : St) :
  _m_name st ∈ solid_names ->
  is3d st = (Ok true, set_object_type Editor "Solid" st).
Proof.
  intros Hin. unfold Object3d.is3d, object_type, bind, get, modify, ret.
  simpl. rewrite (bool_decide_eq_true_2 _ Hin). reflexivity.
Qed.

(** [is3d] on an object listed among the sheets or the lines only. *)
Lemma is3d_not_solid (st : St) :
  _m_name st ∉ solid_names ->
  _m_name st ∈ sheet_names \/ _m_name st ∈ line_names ->
  exists t, is3d st = (Ok false, set_object_type Editor t st).
Proof.
  intros Hout Hin. unfold Object3d.is3d, object_type, bind, get, modify, ret.
  simpl. rewrite (bool_decide_eq_false_2 _ Hout).
  destruct (bool_decide (_m_name st ∈ sheet_names)) eqn:Hsheet.
  - exists "Sheet". reflexivity.
  - destruct Hin as [Hin | Hin].
    + apply bool_decide_eq_false_1 in Hsheet. contradiction.
    + rewrite (bool_decide_eq_true_2 _ Hin). exists "Line". reflexivity.
Qed.

Ltac run_py :=
  unfold Object3d.fillet, Object3d.chamfer, aedt_exception_handler,
    try_except, fillet_body, chamfer_body, Object3d.id_lists,
    Object3d.check_unclassified, m_Editor_Fillet, m_Editor_Chamfer,
    m_Editor_GetObjectsInGroup, odesign_Undo, add_error_message, name,
    bind, get, modify, ret, raise; simpl.

(** What [id_lists] can do: it never calls the editor, and it leaves the
    name of the parent alone. *)
Lemma id_lists_outcome (self : Primitive) (message : string) (st : St) :
  exists r st1,
    id_lists self message st = (r, st1)
    /\ _m_name st1 = _m_name st /\ oeditor st1 = oeditor st
    /\ calls st1 = calls st
    /\ (forall l, r = Ok (Some l) -> error_messages st1 = error_messages st).
Proof.
  unfold Object3d.id_lists, Object3d.is3d, object_type, add_error_message,
    bind, get, modify, ret, raise.
  destruct (cls self); simpl;
    repeat match goal with
           | |- context [bool_decide ?P] => destruct (bool_decide P); simpl
           | |- context [_object_type st] =>
               destruct (_object_type st); simpl
           end;
    (eexists _, _; split; [reflexivity |]);
    repeat split; try reflexivity; intros l Hl; discriminate Hl.
Qed.

(** The shared end of the two operations, run after the operation [c]. *)
Lemma check_unclassified_outcome (message : string) (st : St) :
  check_unclassified message st =
  if bool_decide (_m_name st ∈ GetObjectsInGroup (oeditor st) "UnClassified")
  then (Ok false,
        {| _m_name := _m_name st; _object_type := _object_type st;
           oeditor := Undo (oeditor st);
           calls := (calls st ++ [CGetObjectsInGroup "UnClassified"]) ++ [CUndo];
           error_messages := error_messages st ++ [message] |})
  else (Ok true,
        {| _m_name := _m_name st; _object_type := _object_type st;
           oeditor := oeditor st;
           calls := calls st ++ [CGetObjectsInGroup "UnClassified"];
           error_messages := error_messages st |}).
Proof.
  run_py.
  destruct (bool_decide
    (_m_name st ∈ GetObjectsInGroup (oeditor st) "UnClassified"));
    reflexivity.
Qed.

Local Abbreviation run_operation :=
  (run_operation Editor Fillet Chamfer GetObjectsInGroup Undo _arg_with_dim
     solid_names sheet_names line_names str).
Local Abbreviation apply_call := (apply_call Editor Fillet Chamfer Undo).
Local Abbreviation undo_reverts := (undo_reverts Editor Fillet Chamfer Undo).

(** [fillet] on a vertex, or on an edge of a solid: one [Fillet] call with
    the two argument lists, then the shared end. *)
Lemma fillet_forwards (self : Primitive) (radius setback : Value) (st : St) :
  cls self = VertexPrimitive
  \/ (cls self = EdgePrimitive /\ _m_name st ∈ solid_names) ->
  exists (b : bool) (st' : St) (rest : list Call),
    fillet self radius setback st = (Ok b, st')
    /\ calls st' =
       calls st ++
       CFillet
         (PList [PStr "NAME:Selections"; PStr "Selections:=";
                 PStr (_m_name st); PStr "NewPartsModelFlag:=";
                 PStr "Model"])
         (PList [PStr "NAME:Parameters";
                 PList [PStr "NAME:FilletParameters";
                        PStr "Edges:=";
                        PList (match cls self with
                               | EdgePrimitive => [PInt (id self)]
                               | VertexPrimitive => []
                               end);
                        PStr "Vertices:=";
                        PList (match cls self with
                               | EdgePrimitive => []
                               | VertexPrimitive => [PInt (id self)]
                               end);
                        PStr "Radius:="; PStr (_arg_with_dim radius);
                        PStr "Setback:="; PStr (_arg_with_dim setback)]])
       :: rest
    /\ forallb (fun c => negb (is_operation c)) rest = true.
Proof.
  intros [Hv | [He Hin]].
  - unfold Object3d.fillet, aedt_exception_handler, try_except, fillet_body,
      Object3d.id_lists, bind at 1. rewrite Hv.
    unfold ret at 1, bind at 1, name at 1, bind at 1, get at 1, ret at 1,
      bind at 1, m_Editor_Fillet, modify at 1.
    rewrite check_unclassified_outcome. simpl.
    destruct (bool_decide _); eexists _, _, _;
      (split; [reflexivity |]); simpl;
      rewrite <- ?app_assoc; simpl; split; reflexivity.
  - unfold Object3d.fillet, aedt_exception_handler, try_except, fillet_body,
      Object3d.id_lists, bind at 1. rewrite He.
    unfold bind at 1. rewrite (is3d_solid _ Hin).
    unfold ret at 1, bind at 1, name at 1, bind at 1, get at 1, ret at 1,
      bind at 1, m_Editor_Fillet, modify at 1.
    rewrite check_unclassified_outcome. simpl.
    destruct (bool_decide _); eexists _, _, _;
      (split; [reflexivity |]); simpl;
      rewrite <- ?app_assoc; simpl; split; reflexivity.
Qed.

(** [fillet] on an edge of a sheet or a line: [False], and no call. *)
Lemma fillet_edge_2d (self : Primitive) (radius setback : Value) (st : St) :
  cls self = EdgePrimitive ->
  _m_name st ∉ solid_names ->
  _m_name st ∈ sheet_names \/ _m_name st ∈ line_names ->
  exists st' : St,
    fillet self radius setback st = (Ok false, st')
    /\ calls st' = calls st
    /\ oeditor st' = oeditor st.
Proof.
  intros He Hout Hin.
  destruct (is3d_not_solid st Hout Hin) as [t Ht].
  unfold Object3d.fillet, aedt_exception_handler, try_except, fillet_body,
    Object3d.id_lists, bind at 1. rewrite He.
  unfold bind at 1. rewrite Ht.
  eexists. split; [reflexivity |]. split; reflexivity.
Qed.

(** C2: on a vertex, or on an edge whose parent object is 3D, [fillet]
    builds the two positional argument lists and hands them, unchanged, to
    exactly one [Fillet] call of the editor; on an edge of an object that
    is a sheet or a line it returns [False] and calls neither the editor
    nor the design. *)
Theorem C2_fillet_marshals_and_forwards
    (self : Primitive) (radius setback : Value) (st : St) :
  (cls self = VertexPrimitive
   \/ (cls self = EdgePrimitive /\ _m_name st ∈ solid_names) ->
   exists (b : bool) (st' : St) (rest : list Call),
     fillet self radius setback st = (Ok b, st')
     /\ calls st' =
        calls st ++
        CFillet
          (PList [PStr "NAME:Selections"; PStr "Selections:=";
                  PStr (_m_name st); PStr "NewPartsModelFlag:=";
                  PStr "Model"])
          (PList [PStr "NAME:Parameters";
                  PList [PStr "NAME:FilletParameters";
                         PStr "Edges:=";
                         PList (match cls self with
                                | EdgePrimitive => [PInt (id self)]
                                | VertexPrimitive => []
                                end);
                         PStr "Vertices:=";
                         PList (match cls self with
                                | EdgePrimitive => []
                                | VertexPrimitive => [PInt (id self)]
                                end);
                         PStr "Radius:="; PStr (_arg_with_dim radius);
                         PStr "Setback:="; PStr (_arg_with_dim setback)]])
        :: rest
     /\ forallb (fun c => negb (is_operation c)) rest = true)
  /\
  (cls self = EdgePrimitive ->
   _m_name st ∉ solid_names ->
   _m_name st ∈ sheet_names \/ _m_name st ∈ line_names ->
   exists st' : St,
     fillet self radius setback st = (Ok false, st')
     /\ calls st' = calls st
     /\ oeditor st' = oeditor st).
Proof.
  split.
  - apply fillet_forwards.
  - apply fillet_edge_2d.
Qed.

(** An operation that ended without any new call. *)
Lemma no_call_no_operation (st st1 : St) (cs : list Call) :
  calls st1 = calls st ->
  calls st1 = calls st ++ cs ->
  existsb is_operation cs = true ->
  False.
Proof.
  intros Hsame Happ Hex. rewrite Hsame in Happ.
  rewrite <- (app_nil_r (calls st)) in Happ at 1.
  apply app_inv_head in Happ. subst cs. discriminate Hex.
Qed.

(** The outcome of the shared end, after the operation [c] was handed to
    the editor of [st1]. *)
Lemma operation_then_check
    (c : Call) (message : string) (st st1 : St) (r : result bool)
    (st' : St) (cs : list Call) :
  is_operation c = true ->
  _m_name st1 = _m_name st -> oeditor st1 = oeditor st ->
  calls st1 = calls st -> error_messages st1 = error_messages st ->
  aedt_exception_handler Editor (check_unclassified message)
    (call_editor Editor c (apply_call c) st1) = (r, st') ->
  calls st' = calls st ++ cs ->
  exists c0 : Call,
    is_operation c0 = true /\
    let after := apply_call c0 (oeditor st) in
    if bool_decide (_m_name st ∈ GetObjectsInGroup after "UnClassified")
    then r = Ok false
         /\ cs = [c0; CGetObjectsInGroup "UnClassified"; CUndo]
         /\ oeditor st' = Undo after
         /\ (exists text, error_messages st' = error_messages st ++ [text])
         /\ (undo_reverts -> oeditor st' = oeditor st)
    else r = Ok true
         /\ cs = [c0; CGetObjectsInGroup "UnClassified"]
         /\ oeditor st' = after
         /\ error_messages st' = error_messages st.
Proof.
  intros Hop Hn He Hc Hm Hrun Hcs.
  unfold aedt_exception_handler, try_except in Hrun.
  rewrite check_unclassified_outcome in Hrun. simpl in Hrun.
  rewrite Hn, He, Hc, Hm in Hrun.
  exists c. split; [exact Hop |]. simpl.
  destruct (bool_decide
    (_m_name st ∈ GetObjectsInGroup (apply_call c (oeditor st)) "UnClassified"));
    inversion Hrun; subst r st'; clear Hrun; simpl in *;
    rewrite <- ?app_assoc in Hcs; apply app_inv_head in Hcs; subst cs;
    simpl.
  - repeat split; try reflexivity.
    + eexists; reflexivity.
    + intros Hundo. apply Hundo. exact Hop.
  - repeat split; reflexivity.
Qed.

(** The handler steps through a [bind]; an exception of the first part
    ends the call with [False]. *)
Lemma handler_bind {A : Type} (m : M St A) (k : A -> M St bool) (st : St) :
  aedt_exception_handler Editor (bind m k) st =
  match m st with
  | (Ok a, st1) => aedt_exception_handler Editor (k a) st1
  | (Raise _, st1) => (Ok false, st1)
  end.
Proof.
  unfold aedt_exception_handler, try_except, bind.
  destruct (m st) as [[a | e] st1]; reflexivity.
Qed.


(** X8: with a [chamfer_type] outside 0..3, [chamfer] returns [False] on
    every vertex and edge: no call reaches the editor, whose state is as
    before. *)
Theorem chamfer_wrong_type_no_call
    (self : Primitive) (left_distance right_distance angle : Value)
    (chamfer_type : Z) (st : St) :
  (chamfer_type < 0 \/ 3 < chamfer_type)%Z ->
  exists st' : St,
    chamfer self left_distance right_distance angle chamfer_type st
    = (Ok false, st')
    /\ calls st' = calls st
    /\ oeditor st' = oeditor st.
Proof.
  intros Hout.
  destruct (id_lists_outcome self
              "chamfer is possible only on Vertex in 2D Designs " st)
    as (r & st1 & Hrun & _ & Hed & Hcalls & _).
  unfold Object3d.chamfer, chamfer_body. rewrite handler_bind, Hrun.
  destruct r as [[[edge_id_list vertex_id_list] |] | e].
  - unfold chamfer_type_arguments.
    replace (chamfer_type =? 0)%Z with false by lia.
    replace (chamfer_type =? 1)%Z with false by lia.
    replace (chamfer_type =? 2)%Z with false by lia.
    replace (chamfer_type =? 3)%Z with false by lia.
    unfold aedt_exception_handler, try_except, bind, name, get, ret,
      add_error_message, modify. simpl.
    eexists. split; [reflexivity |]. simpl. split; assumption.
  - unfold aedt_exception_handler, try_except, ret.
    eexists. split; [reflexivity |]. split; assumption.
  - eexists. split; [reflexivity |]. split; assumption.
Qed.

(** X9: a [right_distance] that is false in Python ([None], [0], [0.0] or
    the empty string) is replaced by [left_distance]: the call does what
    the call with [left_distance] given twice does. *)
Theorem chamfer_right_distance_default
    (self : Primitive) (left_distance right_distance angle : Value)
    (chamfer_type : Z) (st : St) :
  truthy right_distance = false ->
  chamfer self left_distance right_distance angle chamfer_type st =
  chamfer self left_distance left_distance angle chamfer_type st.
Proof.
  intros Hfalse. unfold Object3d.chamfer, chamfer_body.
  rewrite Hfalse. destruct (truthy left_distance); reflexivity.
Qed.

(** X10: with a [chamfer_type] within 0..3, on a vertex or on an edge of a
    solid, [chamfer] makes one [Chamfer] call: the selection names the
    parent, and the parameters are the ids, the left distance and the
    arguments of the type; the calls that follow are no operations. *)
Theorem chamfer_marshals_and_forwards
    (self : Primitive) (left_distance right_distance angle : Value)
    (chamfer_type : Z) (st : St) :
  (0 <= chamfer_type <= 3)%Z ->
  cls self = VertexPrimitive
  \/ (cls self = EdgePrimitive /\ _m_name st ∈ solid_names) ->
  exists (tail : list PyVal) (b : bool) (st' : St) (rest : list Call),
    chamfer_type_arguments _arg_with_dim str
      (if truthy right_distance then right_distance else left_distance)
      angle chamfer_type = Some tail
    /\ chamfer self left_distance right_distance angle chamfer_type st
       = (Ok b, st')
    /\ calls st' =
       calls st ++
       CChamfer
         (PList [PStr "NAME:Selections"; PStr "Selections:=";
                 PStr (_m_name st); PStr "NewPartsModelFlag:=";
                 PStr "Model"])
         (PList [PStr "NAME:Parameters";
                 PList ([PStr "NAME:ChamferParameters";
                         PStr "Edges:=";
                         PList (match cls self with
                                | EdgePrimitive => [PInt (id self)]
                                | VertexPrimitive => []
                                end);
                         PStr "Vertices:=";
                         PList (match cls self with
                                | EdgePrimitive => []
                                | VertexPrimitive => [PInt (id self)]
                                end);
                         PStr "LeftDistance:=";
                         PStr (_arg_with_dim left_distance)] ++ tail)])
       :: rest
    /\ forallb (fun c => negb (is_operation c)) rest = true.
Proof.
  intros Htype Hcls.
  destruct (chamfer_type_arguments _arg_with_dim str
              (if truthy right_distance then right_distance
               else left_distance) angle chamfer_type) as [tail |] eqn:Htail.
  2: { unfold chamfer_type_arguments in Htail.
       destruct (chamfer_type =? 0)%Z eqn:H0; [discriminate Htail |].
       destruct (chamfer_type =? 1)%Z eqn:H1; [discriminate Htail |].
       destruct (chamfer_type =? 2)%Z eqn:H2; [discriminate Htail |].
       destruct (chamfer_type =? 3)%Z eqn:H3; [discriminate Htail |].
       lia. }
  exists tail.
  destruct Hcls as [Hv | [He Hin]].
  - unfold Object3d.chamfer, aedt_exception_handler, try_except,
      chamfer_body, Object3d.id_lists, bind at 1. rewrite Hv.
    unfold ret at 1, bind at 1, name at 1, bind at 1, get at 1, ret at 1.
    rewrite Htail.
    unfold bind at 1, m_Editor_Chamfer, modify at 1.
    rewrite check_unclassified_outcome. simpl.
    destruct (bool_decide _); eexists _, _, _;
      (split; [reflexivity |]); (split; [reflexivity |]); simpl;
      rewrite <- ?app_assoc; simpl; split; reflexivity.
  - unfold Object3d.chamfer, aedt_exception_handler, try_except,
      chamfer_body, Object3d.id_lists, bind at 1. rewrite He.
    unfold bind at 1. rewrite (is3d_solid _ Hin).
    unfold ret at 1, bind at 1, name at 1, bind at 1, get at 1, ret at 1.
    rewrite Htail.
    unfold bind at 1, m_Editor_Chamfer, modify at 1.
    rewrite check_unclassified_outcome. simpl.
    destruct (bool_decide _); eexists _, _, _;
      (split; [reflexivity |]); (split; [reflexivity |]); simpl;
      rewrite <- ?app_assoc; simpl; split; reflexivity.
Qed.

End EditorSpec.
(** C2 at work on the toy editor: a vertex of the solid "Box", and an
    edge of the sheet "Sheet1". *)
Lemma C2_fillet_witness :
  (exists (b : bool) (st' : State Toy.Editor) (rest : list Call),
     Toy.run "Box" Toy.vertex7 (OpFillet (VStr "1mm") (VStr "0mm"))
     = (Ok b, st')
     /\ calls st' =
        [] ++
        CFillet
          (PList [PStr "NAME:Selections"; PStr "Selections:=";
                  PStr "Box"; PStr "NewPartsModelFlag:="; PStr "Model"])
          (PList [PStr "NAME:Parameters";
                  PList [PStr "NAME:FilletParameters";
                         PStr "Edges:="; PList [];
                         PStr "Vertices:="; PList [PInt 7];
                         PStr "Radius:="; PStr "1mm";
                         PStr "Setback:="; PStr "0mm"]])
        :: rest
     /\ forallb (fun c => negb (is_operation c)) rest = true)
  /\
  (exists st' : State Toy.Editor,
     Toy.run "Sheet1" Toy.edge3 (OpFillet (VStr "1mm") (VStr "0mm"))
     = (Ok false, st')
     /\ calls st' = []
     /\ oeditor st' = []).
Proof.
  split.
  - apply (proj1 (C2_fillet_marshals_and_forwards
                    Toy.Editor Toy.operate Toy.GetObjectsInGroup Toy.Undo
                    Toy._arg_with_dim Toy.solid_names Toy.sheet_names
                    Toy.line_names Toy.vertex7 (VStr "1mm") (VStr "0mm")
                    (Toy.state "Box"))).
    left. reflexivity.
  - apply (proj2 (C2_fillet_marshals_and_forwards
                    Toy.Editor Toy.operate Toy.GetObjectsInGroup Toy.Undo
                    Toy._arg_with_dim Toy.solid_names Toy.sheet_names
                    Toy.line_names Toy.edge3 (VStr "1mm") (VStr "0mm")
                    (Toy.state "Sheet1"))).
    + reflexivity.
    + apply (bool_decide_unpack _). vm_compute. exact I.
    + left. apply (bool_decide_unpack _). vm_compute. exact I.
Defined.


(** The toy editor's [Undo] does revert an operation. *)
Lemma toy_undo_reverts :
  undo_reverts Toy.Editor Toy.operate Toy.operate Toy.Undo.
Proof. intros e c Hc. destruct c; try discriminate Hc; reflexivity. Qed.

Lemma chamfer_wrong_type_witness :
  exists st' : State Toy.Editor,
    Toy.run "Box" Toy.vertex7 (OpChamfer (VStr "1mm") VNone (VInt 45) 4)
    = (Ok false, st')
    /\ calls st' = [] /\ oeditor st' = [].
Proof.
  apply (chamfer_wrong_type_no_call
           Toy.Editor Toy.operate Toy.GetObjectsInGroup Toy.Undo
           Toy._arg_with_dim Toy.solid_names Toy.sheet_names Toy.line_names
           Toy.str Toy.vertex7 (VStr "1mm") VNone (VInt 45) 4
           (Toy.state "Box")).
  right. lia.
Defined.

Lemma chamfer_right_distance_witness :
  Toy.run "Box" Toy.edge3 (OpChamfer (VStr "2mm") (VInt 0) (VInt 45) 0) =
  Toy.run "Box" Toy.edge3 (OpChamfer (VStr "2mm") (VStr "2mm") (VInt 45) 0).
Proof.
  apply (chamfer_right_distance_default
           Toy.Editor Toy.operate Toy.GetObjectsInGroup Toy.Undo
           Toy._arg_with_dim Toy.solid_names Toy.sheet_names Toy.line_names
           Toy.str Toy.edge3 (VStr "2mm") (VInt 0) (VInt 45) 0
           (Toy.state "Box")).
  reflexivity.
Defined.

Lemma chamfer_marshals_witness :
  exists (tail : list PyVal) (b : bool) (st' : State Toy.Editor)
         (rest : list Call),
    chamfer_type_arguments Toy._arg_with_dim Toy.str
      (VStr "2mm") (VInt 45) 0 = Some tail
    /\ Toy.run "Box" Toy.edge3
         (OpChamfer (VStr "2mm") VNone (VInt 45) 0) = (Ok b, st')
    /\ calls st' =
       [] ++
       CChamfer
         (PList [PStr "NAME:Selections"; PStr "Selections:=";
                 PStr "Box"; PStr "NewPartsModelFlag:="; PStr "Model"])
         (PList [PStr "NAME:Parameters";
                 PList ([PStr "NAME:ChamferParameters";
                         PStr "Edges:="; PList [PInt 3];
                         PStr "Vertices:="; PList [];
                         PStr "LeftDistance:="; PStr "2mm"] ++ tail)])
       :: rest
    /\ forallb (fun c => negb (is_operation c)) rest = true.
Proof.
  apply (chamfer_marshals_and_forwards
           Toy.Editor Toy.operate Toy.GetObjectsInGroup Toy.Undo
           Toy._arg_with_dim Toy.solid_names Toy.sheet_names Toy.line_names
           Toy.str Toy.edge3 (VStr "2mm") VNone (VInt 45) 0
           (Toy.state "Box")).
  - lia.
  - right. split; [reflexivity |].
    apply (bool_decide_unpack _). vm_compute. exact I.
Defined.

End Object3dSpec.

Module Object3dColorSpec.
Import Object3d Object3dColor.

Lemma clamp_range (n minn maxn : Z) :
  (minn <= maxn)%Z -> (minn <= clamp n minn maxn <= maxn)%Z.
Proof. unfold clamp. lia. Qed.

Lemma clamp_id (n minn maxn : Z) :
  (minn <= n <= maxn)%Z -> clamp n minn maxn = n.
Proof. unfold clamp. lia. Qed.

(** [[int(x) for x in l]] on a list of integers. *)
Lemma ints_of_integers (f : R -> Z) (g : string -> option Z) (zs : list Z) :
  ints f g (List.map VInt zs) = inl zs.
Proof.
  induction zs as [| z zs IH]; simpl; [reflexivity |].
  rewrite IH. reflexivity.
Qed.

Lemma lookup_code_in (key : string) (codes : list (string * list Z))
    (t : list Z) :
  lookup_code key codes = Some t -> In (key, t) codes.
Proof.
  induction codes as [| [k t'] codes IH]; simpl; [discriminate |].
  destruct (bool_decide (k = key)) eqn:Hk.
  - apply bool_decide_eq_true_1 in Hk. intros [= <-]. left. congruence.
  - intros H. right. exact (IH H).
Qed.

Lemma byte_range (a : Z) : (0 <= Z.land a 255 <= 255)%Z.
Proof.
  change (Z.land a 255) with (Z.land a (Z.ones 8)).
  rewrite Z.land_ones by lia. change (2 ^ 8)%Z with 256%Z.
  pose proof (Z.mod_pos_bound a 256 ltac:(lia)). lia.
Qed.

Section BuiltinsSpec.

Variable int_of_float : R -> Z.
Variable int_of_str : string -> option Z.
Variable float_of_str : string -> option R.
Variable str_of_float : R -> string.
Variable parse_string : string -> list string.
Variable format_value : ColorValue -> string.

Local Abbreviation color_setter :=
  (color_setter int_of_float int_of_str parse_string format_value).
Local Abbreviation color := (color int_of_float int_of_str).
Local Abbreviation int := (int int_of_float int_of_str).
Local Abbreviation float := (float float_of_str).
Local Abbreviation transparency_setter :=
  (transparency_setter float_of_str str_of_float).

(** X1: whatever is assigned to [color], the setter either gives the
    messenger one warning and changes nothing else, or hands
    [_change_property] one ["NAME:Color"] list whose three components are
    within 0..255 and stores the same three in [_color]; when it raises,
    the store is as before. *)
Theorem color_setter_sends_clamped (color_value : ColorValue) (s : State) :
  match color_setter color_value s with
  | (inl _, s') =>
      (exists r g b : Z,
         (0 <= r <= 255)%Z /\ (0 <= g <= 255)%Z /\ (0 <= b <= 255)%Z
         /\ changes s' =
            changes s ++
            [["NAME:Color"; "R:="; pretty r; "G:="; pretty g;
              "B:="; pretty b]]
         /\ _color s' = Some (r, g, b)
         /\ warning_messages s' = warning_messages s)
      \/ (changes s' = changes s /\ _color s' = _color s
          /\ exists msg_text : string,
               warning_messages s' = warning_messages s ++ [msg_text])
  | (inr _, s') => s' = s
  end.
Proof.
  unfold Object3dColor.color_setter.
  destruct (color_tuple _ _ _ color_value) as [[[| c t] |] | e];
    try reflexivity; try (right; simpl; eauto; fail).
  destruct t as [| c1 [| c2 t]]; simpl; try reflexivity.
  left. exists (clamp c 0 255), (clamp c1 0 255), (clamp c2 0 255).
  repeat split; try apply clamp_range; lia.
Qed.

(** X2: a sequence of at least three integers whose first three are
    within 0..255 is sent as it is: one ["NAME:Color"] list with these
    three, which are then stored in [_color]. *)
Theorem color_setter_in_range (r g b : Z) (more : list Z) (s : State) :
  (0 <= r <= 255)%Z -> (0 <= g <= 255)%Z -> (0 <= b <= 255)%Z ->
  color_setter (CSeq (List.map VInt (r :: g :: b :: more))) s =
  (inl tt,
   set_color (r, g, b)
     (_change_property
        ["NAME:Color"; "R:="; pretty r; "G:="; pretty g; "B:="; pretty b]
        s)).
Proof.
  intros Hr Hg Hb. unfold Object3dColor.color_setter, color_tuple.
  rewrite ints_of_integers. simpl.
  rewrite !clamp_id by assumption. reflexivity.
Qed.

(** X3: a sequence of one or of two integers makes the setter raise
    [IndexError] and leaves the store alone; the empty sequence only gives
    a warning. *)
Theorem color_setter_short_sequence (a b : Z) (s : State) :
  color_setter (CSeq [VInt a]) s = (inr IndexError, s)
  /\ color_setter (CSeq [VInt a; VInt b]) s = (inr IndexError, s)
  /\ color_setter (CSeq []) s =
     (inl tt,
      add_warning_message
        ("Invalid color input " +:+ format_value (CSeq []) +:+
         " for object " +:+ _m_name s +:+ ".") s).
Proof. repeat split. Qed.

(** X4: a name of [rgb_color_codes] is sent with the three components of
    its entry, none of which is changed by the clamping. *)
Theorem color_setter_named (name : string) (t : list Z) (s : State) :
  lookup_code name rgb_color_codes = Some t ->
  exists r g b : Z,
    t = [r; g; b]
    /\ color_setter (CStr name) s =
       (inl tt,
        set_color (r, g, b)
          (_change_property
             ["NAME:Color"; "R:="; pretty r; "G:="; pretty g;
              "B:="; pretty b] s)).
Proof.
  intros Hlook. unfold Object3dColor.color_setter, color_tuple.
  rewrite Hlook. apply lookup_code_in in Hlook.
  simpl in Hlook.
  repeat (destruct Hlook as [[= <- <-] | Hlook];
          [eexists _, _, _; split; reflexivity |]).
  contradiction.
Qed.

(** X5: whatever the editor answers, the three components the getter of
    [color] returns are within 0..255. *)
Theorem color_components_in_range (valid_properties : list string)
    (answer : Value) (s : State) :
  match color valid_properties answer s with
  | (inl (Some (r, g, b)), _) =>
      (0 <= r <= 255)%Z /\ (0 <= g <= 255)%Z /\ (0 <= b <= 255)%Z
  | _ => True
  end.
Proof.
  unfold Object3dColor.color.
  destruct (bool_decide _); [| exact I].
  destruct (truthy answer); [| simpl; lia].
  destruct (Object3dColor.int _ _ answer); [| exact I].
  repeat split; apply byte_range.
Qed.

(** X6: on an answer that is not false in Python and stands for the
    integer [r + 256 g + 65536 b], with the three components within
    0..255, the getter of [color] returns [(r, g, b)] and stores it. *)
Theorem color_round_trip (valid_properties : list string) (answer : Value)
    (s : State) (r g b : Z) :
  (0 <= r <= 255)%Z -> (0 <= g <= 255)%Z -> (0 <= b <= 255)%Z ->
  "Color" ∈ valid_properties ->
  truthy answer = true ->
  int answer = inl (r + 256 * g + 65536 * b)%Z ->
  color valid_properties answer s =
  (inl (Some (r, g, b)), set_color (r, g, b) s).
Proof.
  intros Hr Hg Hb Hin Htrue Hint. unfold Object3dColor.color.
  rewrite (bool_decide_eq_true_2 _ Hin), Htrue, Hint.
  assert (Hred : Z.land (r + 256 * g + 65536 * b) 255 = r).
  { change 255%Z with (Z.ones 8). rewrite Z.land_ones by lia.
    change (2 ^ 8)%Z with 256%Z. Z.to_euclidean_division_equations. lia. }
  assert (Hgreen : Z.land (Z.shiftr (r + 256 * g + 65536 * b) 8) 255 = g).
  { change 255%Z with (Z.ones 8). rewrite Z.land_ones by lia.
    rewrite Z.shiftr_div_pow2 by lia.
    change (2 ^ 8)%Z with 256%Z. Z.to_euclidean_division_equations. lia. }
  assert (Hblue : Z.land (Z.shiftr (r + 256 * g + 65536 * b) 16) 255 = b).
  { change 255%Z with (Z.ones 8). rewrite Z.land_ones by lia.
    rewrite Z.shiftr_div_pow2 by lia.
    change (2 ^ 8)%Z with 256%Z. change (2 ^ 16)%Z with 65536%Z.
    Z.to_euclidean_division_equations. lia. }
  rewrite Hred, Hgreen, Hblue. reflexivity.
Qed.


End BuiltinsSpec.

Lemma color_setter_in_range_witness :
  color_setter (fun _ => 0%Z) toy_int_of_str (fun _ => []) (fun _ => "")
    (CSeq (List.map VInt [255; 128; 0; 9]%Z))
    {| _m_name := "Box"; _color := None; _transparency := None;
       changes := []; warning_messages := [] |} =
  (inl tt,
   set_color (255, 128, 0)%Z
     (_change_property
        ["NAME:Color"; "R:="; pretty 255%Z; "G:="; pretty 128%Z;
         "B:="; pretty 0%Z]
        {| _m_name := "Box"; _color := None; _transparency := None;
           changes := []; warning_messages := [] |})).
Proof. apply color_setter_in_range; lia. Defined.

Lemma color_setter_named_witness :
  exists r g b : Z,
    [184; 115; 51]%Z = [r; g; b]
    /\ color_setter (fun _ => 0%Z) toy_int_of_str (fun _ => [])
         (fun _ => "") (CStr "copper")
         {| _m_name := "Box"; _color := None; _transparency := None;
            changes := []; warning_messages := [] |} =
       (inl tt,
        set_color (r, g, b)
          (_change_property
             ["NAME:Color"; "R:="; pretty r; "G:="; pretty g;
              "B:="; pretty b]
             {| _m_name := "Box"; _color := None; _transparency := None;
                changes := []; warning_messages := [] |})).
Proof. apply color_setter_named. reflexivity. Defined.

Lemma color_round_trip_witness :
  color (fun _ => 0%Z) toy_int_of_str ["Color"; "Transparent"]
    (VInt 4227327)
    {| _m_name := "Box"; _color := None; _transparency := None;
       changes := []; warning_messages := [] |} =
  (inl (Some (255, 128, 64)%Z),
   set_color (255, 128, 64)%Z
     {| _m_name := "Box"; _color := None; _transparency := None;
        changes := []; warning_messages := [] |}).
Proof.
  apply (color_round_trip (fun _ => 0%Z) toy_int_of_str
           ["Color"; "Transparent"] (VInt 4227327) _ 255 128 64);
    try lia; try reflexivity.
  apply (bool_decide_eq_true_1 ("Color" ∈ ["Color"; "Transparent"])).
  reflexivity.
Defined.

End Object3dColorSpec.

Module PadstackSpec.
Import Object3d Padstack.

Lemma ids_from_snoc (first : Z) (n : nat) :
  ids_from first n ++ [(first + Z.of_nat n)%Z] = ids_from first (S n).
Proof.
  revert first. induction n as [| n IH]; intros first.
  - simpl. rewrite Z.add_0_r. reflexivity.
  - change (ids_from first (S n)) with (first :: ids_from (first + 1) n).
    rewrite <- app_comm_cons.
    replace (first + Z.of_nat (S n))%Z with (first + 1 + Z.of_nat n)%Z by lia.
    rewrite IH. reflexivity.
Qed.

Lemma hole_setter_set (value : option PDSHole) : hole_setter value <> None.
Proof. destruct value; discriminate. Qed.

Lemma add_layer_invariant (layername : string) (a : LayerArguments)
    (s : State) :
  layers_invariant s -> layers_invariant (snd (add_layer layername a s)).
Proof.
  intros (Hnodup & Hnames & Hids & Hnext & Hholes). unfold add_layer.
  destruct (bool_decide (layername ∈ List.map fst (layers s))) eqn:Hin.
  - repeat split; assumption.
  - apply bool_decide_eq_false_1 in Hin. simpl.
    repeat split; simpl.
    + rewrite List.map_app. simpl. apply NoDup_app. repeat split.
      * exact Hnodup.
      * intros k Hk Hk'. apply list_elem_of_singleton in Hk'. subst k.
        exact (Hin Hk).
      * apply NoDup_singleton.
    + apply Forall_app. split; [exact Hnames |].
      apply Forall_singleton. reflexivity.
    + rewrite List.map_app, Hids, length_app. simpl.
      rewrite Hnext, Nat.add_1_r. apply ids_from_snoc.
    + rewrite Hnext, length_app. simpl. lia.
    + apply Forall_app. split; [exact Hholes |].
      apply Forall_singleton. simpl.
      repeat split; apply hole_setter_set.
Qed.

Lemma add_layers_invariant (calls : list (string * LayerArguments))
    (s : State) :
  layers_invariant s -> layers_invariant (add_layers calls s).
Proof.
  revert s. induction calls as [| [layername a] calls IH]; intros s Hs.
  - exact Hs.
  - simpl. apply IH. apply add_layer_invariant. exact Hs.
Qed.

Lemma padstack_init_invariant (name units : string) :
  layers_invariant (__init__ name units).
Proof.
  repeat split; simpl; try constructor.
Qed.

(** X11: adding a layer under a name a second time returns [False] and
    leaves the padstack as the first call left it, whatever the other
    arguments of the two calls are. *)
Theorem add_layer_twice (layername : string) (a1 a2 : LayerArguments)
    (s : State) :
  add_layer layername a2 (snd (add_layer layername a1 s)) =
  (false, snd (add_layer layername a1 s)).
Proof.
  unfold add_layer at 2 3.
  destruct (bool_decide (layername ∈ List.map fst (layers s))) eqn:Hin.
  - simpl. unfold add_layer. rewrite Hin. reflexivity.
  - simpl. unfold add_layer. simpl.
    rewrite bool_decide_eq_true_2; [reflexivity |].
    rewrite List.map_app. apply elem_of_app. right. simpl.
    apply list_elem_of_singleton. reflexivity.
Qed.

(** X12: in a padstack that was built from [Padstack(name, units)] by
    [add_layer] calls, the layer names are distinct, every layer is
    stored under its own name, the ids of the layers are 1, 2, ... in the
    order in which the layers were added, and [layerid] is the next
    one. *)
Theorem add_layer_numbers_layers
    (calls : list (string * LayerArguments)) (name units : string) :
  let s := add_layers calls (__init__ name units) in
  NoDup (List.map fst (layers s))
  /\ Forall (fun p => layername (snd p) = fst p) (layers s)
  /\ List.map (fun p => id (snd p)) (layers s) =
     ids_from 1 (length (layers s))
  /\ layerid s = (1 + Z.of_nat (length (layers s)))%Z.
Proof.
  intros s.
  destruct (add_layers_invariant calls _ (padstack_init_invariant name units))
    as (H1 & H2 & H3 & H4 & _).
  repeat split; assumption.
Qed.

Lemma layers_args_entries (ls : list (string * PDSLayer)) :
  Forall (fun p => layername (snd p) = fst p) ls ->
  Forall (fun p => _pad (snd p) <> None /\ _antipad (snd p) <> None
                   /\ _thermal (snd p) <> None) ls ->
  exists lgm : list Arg,
    layers_args ls = Some lgm
    /\ Forall2
         (fun p arg4 =>
            exists rest : list Arg,
              arg4 =
              AList (AStr "NAME:lgm" :: AStr "lay:=" :: AStr (fst p)
                     :: AStr "id:=" :: AStr (fst p) :: rest))
         ls lgm.
Proof.
  induction ls as [| [el layer] ls IH]; intros Hnames Hholes.
  - exists []. split; [reflexivity | constructor].
  - apply Forall_cons in Hnames as [Hname Hnames].
    apply Forall_cons in Hholes as [(Hp & Ha & Ht) Hholes].
    destruct (IH Hnames Hholes) as (lgm & Hlgm & Hall).
    simpl in Hname, Hp, Ha, Ht. simpl. unfold layer_args.
    destruct (_pad layer) as [pad |]; [| contradiction].
    destruct (_antipad layer) as [antipad |]; [| contradiction].
    destruct (_thermal layer) as [thermal |]; [| contradiction].
    rewrite Hlgm, Hname. eexists. split; [reflexivity |].
    constructor; [| exact Hall]. simpl. eexists. reflexivity.
Qed.

(** X13: on a padstack that was built by [add_layer] calls, [pads_args]
    does not raise, and its ["NAME:pds"] list has one ["NAME:lgm"] entry
    for each layer, in the order in which the layers were added; the
    entry carries the name of the layer after ["lay:="] and after
    ["id:="]. *)
Theorem pads_args_lists_layers
    (calls : list (string * LayerArguments)) (name units : string) :
  let s := add_layers calls (__init__ name units) in
  exists (lgm : list Arg) (head tail : list Arg),
    pads_args s =
    Some (AList (head ++
                 [AList (AStr "NAME:psd" :: AStr "nam:=" :: AStr name
                         :: AStr "lib:=" :: AStr "" :: AStr "mat:="
                         :: AStr "copper" :: AStr "plt:=" :: AInt 100
                         :: AList (AStr "NAME:pds" :: lgm) :: tail);
                  AStr "ppl:="; AList []]))
    /\ Forall2
         (fun p arg4 =>
            exists rest : list Arg,
              arg4 =
              AList (AStr "NAME:lgm" :: AStr "lay:=" :: AStr (fst p)
                     :: AStr "id:=" :: AStr (fst p) :: rest))
         (layers s) lgm.
Proof.
  intros s.
  destruct (add_layers_invariant calls _ (padstack_init_invariant name units))
    as (_ & Hnames & _ & _ & Hholes).
  destruct (layers_args_entries _ Hnames Hholes) as (lgm & Hlgm & Hall).
  assert (Hkeep : forall cs s0,
            Padstack.name (add_layers cs s0) = Padstack.name s0
            /\ mat (add_layers cs s0) = mat s0
            /\ plating (add_layers cs s0) = plating s0).
  { induction cs as [| [n a] cs IH]; intros s0; [repeat split |].
    simpl. destruct (IH (snd (add_layer n a s0))) as (-> & -> & ->).
    unfold add_layer. destruct (bool_decide _); repeat split. }
  destruct (Hkeep calls (__init__ name units)) as (Hn & Hm & Hp).
  exists lgm. unfold pads_args. fold s in Hlgm, Hn, Hm, Hp.
  rewrite Hlgm, Hn, Hm, Hp. simpl.
  eexists [_; _; _; _; _; _; _; _; _], _. split; [reflexivity | exact Hall].
Qed.

(** X14: the test [type(i) is int or float] of [add_hole] lets every
    element through: the hole has one size for each element of [sizes],
    which is [_dim_arg] of that element, whatever its type. *)
Theorem add_hole_keeps_every_size
    (float_of_str : string -> option R) (str_of_float : R -> string)
    (holetype : string) (sizes0 : list Value) (xpos ypos rot0 : Value)
    (s : State) :
  sizes (add_hole float_of_str str_of_float holetype sizes0 xpos ypos rot0 s)
  = List.map (fun i => _dim_arg float_of_str str_of_float i (units s)) sizes0.
Proof.
  simpl. f_equal.
  induction sizes0 as [| i sizes0 IH]; [reflexivity |].
  simpl. destruct i; simpl; rewrite IH; reflexivity.
Qed.

End PadstackSpec.

Module CircuitComponentSpec.
Import Padstack CircuitComponent.

Section EditorSpec.

Variable Editor : Type.
Variable GetProperties : Editor -> string -> string -> list string.
Variable ChangeProperty : Editor -> Arg -> Editor.

Local Abbreviation St := (State Editor).
Local Abbreviation composed_name := (composed_name Editor).
Local Abbreviation change_property :=
  (change_property Editor GetProperties ChangeProperty).
Local Abbreviation set_use_symbol_color :=
  (set_use_symbol_color Editor GetProperties ChangeProperty).

(** X15: when none of the three tabs lists the property,
    [change_property] returns [False]: the editor was asked for the
    properties of the three tabs, in this order, and was given no
    [ChangeProperty] request. *)
Theorem change_property_unknown_property
    (head : string) (rest : list Arg) (names_list : option (list string))
    (s : St) :
  slice_from 5 head ∉
    GetProperties (oeditor s) (tabname s) (composed_name s) ->
  slice_from 5 head ∉
    GetProperties (oeditor s) "PassedParameterTab" (composed_name s) ->
  slice_from 5 head ∉
    GetProperties (oeditor s) "BaseElementTab" (composed_name s) ->
  exists s' : St,
    change_property head rest names_list s = (RFalse, s')
    /\ oeditor s' = oeditor s
    /\ calls s' =
       calls s ++
       [CGetProperties (tabname s) (composed_name s);
        CGetProperties "PassedParameterTab" (composed_name s);
        CGetProperties "BaseElementTab" (composed_name s)].
Proof.
  intros H1 H2 H3.
  unfold CircuitComponent.change_property, choose_tab,
    m_Editor_GetProperties. simpl.
  rewrite (bool_decide_eq_false_2 _ H1).
  unfold CircuitComponent.composed_name at 1 2 3 4. simpl.
  fold (composed_name s).
  rewrite (bool_decide_eq_false_2 _ H2), (bool_decide_eq_false_2 _ H3).
  eexists. split; [reflexivity |]. simpl. split; [reflexivity |].
  rewrite <- !app_assoc. reflexivity.
Qed.

(** X16: a [ChangeProperty] request of [change_property] names a tab that
    lists the property: the component's own tab, ["PassedParameterTab"] or
    ["BaseElementTab"], never the empty name; it carries the servers and
    the change as given.  When the method returns [False] instead, the
    editor is as before. *)
Theorem change_property_names_listing_tab
    (head : string) (rest : list Arg) (names_list : option (list string))
    (s : St) :
  match change_property head rest names_list s with
  | (RChangeProperty vOut, s') =>
      exists tab : string,
        tab <> ""
        /\ In tab [tabname s; "PassedParameterTab"; "BaseElementTab"]
        /\ slice_from 5 head ∈ GetProperties (oeditor s) tab (composed_name s)
        /\ vOut =
           AList [AStr "NAME:AllTabs";
                  AList [AStr ("NAME:" +:+ tab);
                         prop_servers Editor names_list s;
                         AList [AStr "NAME:ChangedProps";
                                AList (AStr head :: rest)]]]
        /\ oeditor s' = ChangeProperty (oeditor s) vOut
        /\ last (calls s') = Some (CChangeProperty vOut)
  | (RFalse, s') => oeditor s' = oeditor s
  end.
Proof.
  unfold CircuitComponent.change_property, choose_tab,
    m_Editor_GetProperties. simpl.
  unfold CircuitComponent.composed_name at 1 2 3 4. simpl.
  fold (composed_name s).
  destruct (bool_decide (_ ∈ GetProperties _ (tabname s) _)) eqn:H1.
  - destruct (bool_decide (tabname s = "")) eqn:Hname; [reflexivity |].
    apply bool_decide_eq_true_1 in H1.
    apply bool_decide_eq_false_1 in Hname.
    exists (tabname s). simpl.
    repeat split; try assumption; try reflexivity; [left; reflexivity |].
    apply last_snoc.
  - destruct (bool_decide (_ ∈ GetProperties _ "PassedParameterTab" _))
      eqn:H2.
    + apply bool_decide_eq_true_1 in H2.
      exists "PassedParameterTab". simpl.
      repeat split; try assumption; try reflexivity;
        [discriminate | right; left; reflexivity |].
      apply last_snoc.
    + destruct (bool_decide (_ ∈ GetProperties _ "BaseElementTab" _))
        eqn:H3; [| reflexivity].
      apply bool_decide_eq_true_1 in H3.
      exists "BaseElementTab". simpl.
      repeat split; try assumption; try reflexivity;
        [discriminate | right; right; left; reflexivity |].
      apply last_snoc.
Qed.

(** X17: on a component whose [usesymbolcolor] attribute is [True], as it
    is after [__init__], [set_use_symbol_color] does the same for every
    argument: [False] is replaced by the attribute, so that the request
    carries [True]. *)
Theorem set_use_symbol_color_sends_attribute
    (symbol_color : option bool) (s : St) :
  usesymbolcolor s = true ->
  set_use_symbol_color symbol_color s =
  (true,
   snd (change_property "NAME:Use Symbol Color"
          [AStr "Value:="; ABool true] None s)).
Proof.
  intros Htrue. unfold CircuitComponent.set_use_symbol_color.
  rewrite Htrue. destruct symbol_color as [[|] |]; reflexivity.
Qed.

End EditorSpec.

Lemma change_property_unknown_witness :
  exists s' : State (list Arg),
    change_property (list Arg) toy_GetProperties toy_ChangeProperty
      "NAME:Component Angle" [AStr "Value:="; AStr "45"] None toy_component
    = (RFalse, s')
    /\ oeditor s' = []
    /\ calls s' =
       [] ++
       [CGetProperties "PassedParameterTab" "R1;7";
        CGetProperties "PassedParameterTab" "R1;7";
        CGetProperties "BaseElementTab" "R1;7"].
Proof.
  apply (change_property_unknown_property (list Arg) toy_GetProperties
           toy_ChangeProperty "NAME:Component Angle"
           [AStr "Value:="; AStr "45"] None toy_component);
    apply (bool_decide_eq_false_1 _); reflexivity.
Defined.

Lemma set_use_symbol_color_witness :
  set_use_symbol_color (list Arg) toy_GetProperties toy_ChangeProperty
    (Some false) toy_component =
  (true,
   snd (change_property (list Arg) toy_GetProperties toy_ChangeProperty
          "NAME:Use Symbol Color" [AStr "Value:="; ABool true] None
          toy_component)).
Proof.
  apply (set_use_symbol_color_sends_attribute (list Arg) toy_GetProperties
           toy_ChangeProperty (Some false) toy_component).
  reflexivity.
Defined.

End CircuitComponentSpec.

Module EdbSpec.
Import Py EdbApp.

(** Reading a property whose cache holds a true value leaves everything as
    it is. *)
Lemma access_cached (p : CoreAccessor) (st : State) (cached : Val) :
  self st !! cache_attribute p = Some cached ->
  truthy cached = true ->
  access p st = (Ok cached, st).
Proof.
  intros Hc Ht. unfold access, bind, getattr, ret.
  rewrite Hc, Ht. simpl. rewrite Hc. reflexivity.
Qed.

(** Reading a property while [builder] is false constructs nothing. *)
Lemma access_without_builder
    (p : CoreAccessor) (st : State) (cached builder : Val) :
  self st !! cache_attribute p = Some cached ->
  self st !! "builder" = Some builder ->
  truthy builder = false ->
  access p st = (Ok cached, st).
Proof.
  intros Hc Hb Ht. unfold access, bind, getattr, ret.
  rewrite Hc. destruct (truthy cached); simpl.
  - rewrite Hc. reflexivity.
  - rewrite Hb, Ht. simpl. rewrite Hc. reflexivity.
Qed.

(** Reading a property twice is reading it once. *)
Lemma access_idempotent
    (p : CoreAccessor) (st st' : State) (r : result Val) :
  access p st = (r, st') -> access p st' = (r, st').
Proof.
  unfold access, bind, getattr, ret, init_object, construct, setattr, modify.
  destruct (self st !! cache_attribute p) as [cached |] eqn:Hc.
  - destruct (truthy cached) eqn:Ht; simpl.
    + rewrite Hc. intros [= <- <-]. rewrite Hc, Ht. simpl.
      rewrite Hc. reflexivity.
    + destruct (self st !! "builder") as [builder |] eqn:Hb.
      * destruct (truthy builder) eqn:Htb; simpl.
        -- rewrite lookup_insert_eq. intros [= <- <-]. simpl.
           rewrite lookup_insert_eq. simpl. rewrite lookup_insert_eq.
           reflexivity.
        -- rewrite Hc. intros [= <- <-].
           rewrite Hc, Ht. simpl. rewrite Hb, Htb. simpl.
           rewrite Hc. reflexivity.
      * intros [= <- <-]. rewrite Hc, Ht. simpl. rewrite Hb. reflexivity.
  - intros [= <- <-]. rewrite Hc. reflexivity.
Qed.

(** Reading a property whose cache is empty while [builder] is set
    constructs the core object, stores it in the cache and returns it. *)
Lemma access_constructs
    (p : CoreAccessor) (st : State) (cached builder : Val) :
  self st !! cache_attribute p = Some cached ->
  truthy cached = false ->
  self st !! "builder" = Some builder ->
  truthy builder = true ->
  access p st =
  (Ok (VObj (core_class p) (next_id st)),
   {| self := <[cache_attribute p := VObj (core_class p) (next_id st)]>
                (self st);
      events := events st ++ [EConstruct (core_class p)];
      next_id := S (next_id st) |}).
Proof.
  intros Hc Ht Hb Htb.
  unfold access, bind, getattr, ret, init_object, construct, setattr, modify.
  rewrite Hc, Ht. simpl. rewrite Hb, Htb. simpl.
  rewrite lookup_insert_eq. reflexivity.
Qed.

(** C7: each of the seven core accessors caches its handle.  While
    [builder] is unset the property constructs nothing and returns the
    cached value; with [builder] set and the cache empty it constructs
    the one core object of its class, stores it in its cache attribute and
    returns it, and the next access returns that same handle and
    constructs nothing; once a handle is cached every access returns that
    handle and changes nothing; and in every case a second access returns
    what the first returned, from the same store. *)
Theorem C7_core_accessors_cache (p : CoreAccessor) (st : State) :
  (forall cached builder : Val,
      self st !! cache_attribute p = Some cached ->
      self st !! "builder" = Some builder ->
      truthy builder = false ->
      access p st = (Ok cached, st))
  /\ (forall cached builder : Val,
        self st !! cache_attribute p = Some cached ->
        truthy cached = false ->
        self st !! "builder" = Some builder ->
        truthy builder = true ->
        exists st' : State,
          access p st = (Ok (VObj (core_class p) (next_id st)), st')
          /\ self st' !! cache_attribute p =
             Some (VObj (core_class p) (next_id st))
          /\ events st' = events st ++ [EConstruct (core_class p)]
          /\ access p st' = (Ok (VObj (core_class p) (next_id st)), st'))
  /\ (forall (class : string) (ident : nat),
        self st !! cache_attribute p = Some (VObj class ident) ->
        access p st = (Ok (VObj class ident), st))
  /\ (forall (r : result Val) (st' : State),
        access p st = (r, st') -> access p st' = (r, st')).
Proof.
  split; [| split; [| split]].
  - intros cached builder. apply access_without_builder.
  - intros cached builder Hc Ht Hb Htb.
    rewrite (access_constructs p st cached builder Hc Ht Hb Htb).
    eexists. split; [reflexivity |]. simpl.
    split; [apply lookup_insert_eq |]. split; [reflexivity |].
    apply access_cached; [apply lookup_insert_eq | reflexivity].
  - intros class ident Hc. apply access_cached; [exact Hc | reflexivity].
  - intros r st'. apply access_idempotent.
Qed.

(** *** Rules for the primitives of the store *)

Import PySpec.

Lemma hoare_setattr (n : string) (v : Val) (P Q E : State -> Prop) :
  (forall s, P s ->
     Q {| self := <[n := v]> (self s); events := events s;
          next_id := next_id s |}) ->
  hoare P (setattr n v) Q E.
Proof. intros H. apply hoare_modify. exact H. Qed.

Lemma hoare_emit (e : Event) (P Q E : State -> Prop) :
  (forall s, P s ->
     Q {| self := self s; events := events s ++ [e];
          next_id := next_id s |}) ->
  hoare P (emit e) Q E.
Proof. intros H. apply hoare_modify. exact H. Qed.

Lemma hoare_construct (class : string) (P Q E : State -> Prop) :
  (forall s, P s ->
     Q {| self := self s; events := events s ++ [EConstruct class];
          next_id := S (next_id s) |}) ->
  hoare P (construct class) Q E.
Proof. intros H s Hs. simpl. auto. Qed.

Lemma hoare_getattr (n : string) (P Q E : State -> Prop) :
  (forall s, P s -> is_Some (self s !! n) -> Q s) ->
  (forall s, P s -> E s) ->
  hoare P (getattr n) Q E.
Proof.
  intros HQ HE s Hs. unfold getattr.
  destruct (self s !! n) as [v |] eqn:Hv; [apply HQ; eauto | apply HE; auto].
Qed.

Lemma hoare_handler (body : M State Val) (P Q E : State -> Prop) :
  hoare P body Q Q ->
  hoare P (aedt_exception_handler body) Q E.
Proof.
  intros H. unfold aedt_exception_handler.
  eapply hoare_try; [exact H |]. intros e. apply hoare_ret. auto.
Qed.

(** A decorated method always returns. *)
Lemma handler_returns (body : M State Val) (s : State) :
  exists (v : Val) (s' : State), aedt_exception_handler body s = (Ok v, s').
Proof.
  unfold aedt_exception_handler, try_except, ret.
  destruct (body s) as [[v | e] s']; eauto.
Qed.

(** *** Traces *)

Lemma referenced_app (t t' : list Event) :
  referenced t -> referenced (t ++ t').
Proof.
  unfold referenced. intros H. rewrite existsb_app, H. reflexivity.
Qed.

Lemma referenced_snoc (t : list Event) (e : Event) :
  is_edblib_reference e = true -> referenced (t ++ [e]).
Proof.
  unfold referenced. intros H. rewrite existsb_app. simpl. rewrite H.
  rewrite orb_true_r. reflexivity.
Qed.

Lemma ordered_nil : ordered [].
Proof.
  intros before e after H. destruct before; discriminate H.
Qed.

Lemma ordered_snoc (t : list Event) (e : Event) :
  ordered t ->
  (needs_edblib e = true -> referenced t) ->
  ordered (t ++ [e]).
Proof.
  intros Ht He before e' after Heq Hneeds.
  destruct after as [| x after' _] using rev_ind.
  - apply app_inj_tail in Heq as [<- <-]. auto.
  - change (before ++ e' :: after' ++ [x])
      with (before ++ (e' :: after') ++ [x]) in Heq.
    rewrite app_assoc in Heq. apply app_inj_tail in Heq as [-> _].
    apply (Ht before e' after' eq_refl Hneeds).
Qed.

(** *** The invariants are stable under the primitives *)

Lemma dll_ready_invariant (s : State) : dll_ready s -> dll_invariant s.
Proof. intros [H _]. exact H. Qed.

Lemma dll_invariant_ready (s : State) :
  dll_invariant s -> is_Some (self s !! "layout_methods") -> dll_ready s.
Proof. intros H Hl. split; [exact H | apply H, Hl]. Qed.

Lemma dll_invariant_setattr (n : string) (v : Val) (s : State) :
  n <> "layout_methods" ->
  dll_invariant s ->
  dll_invariant {| self := <[n := v]> (self s); events := events s;
                   next_id := next_id s |}.
Proof.
  intros Hn [Ho Hl]. split; simpl; [exact Ho |].
  rewrite lookup_insert_ne by exact Hn. exact Hl.
Qed.

Lemma dll_invariant_emit (e : Event) (s : State) :
  needs_edblib e = false ->
  dll_invariant s ->
  dll_invariant {| self := self s; events := events s ++ [e];
                   next_id := next_id s |}.
Proof.
  intros He [Ho Hl]. split; simpl.
  - apply ordered_snoc; [exact Ho |]. rewrite He. discriminate.
  - intros H. apply referenced_app, Hl, H.
Qed.

Lemma dll_invariant_construct (class : string) (s : State) :
  dll_invariant s ->
  dll_invariant {| self := self s; events := events s ++ [EConstruct class];
                   next_id := S (next_id s) |}.
Proof.
  intros [Ho Hl]. split; simpl.
  - apply ordered_snoc; [exact Ho |]. discriminate.
  - intros H. apply referenced_app, Hl, H.
Qed.

Lemma dll_invariant_reference (e : Event) (s : State) :
  is_edblib_reference e = true ->
  dll_invariant s ->
  dll_ready {| self := self s; events := events s ++ [e];
               next_id := next_id s |}.
Proof.
  intros He [Ho Hl]. repeat split; simpl.
  - apply ordered_snoc; [exact Ho |].
    destruct e; try discriminate He; discriminate.
  - intros _. apply referenced_snoc, He.
  - apply referenced_snoc, He.
Qed.

Lemma dll_ready_setattr (n : string) (v : Val) (s : State) :
  dll_ready s ->
  dll_ready {| self := <[n := v]> (self s); events := events s;
               next_id := next_id s |}.
Proof.
  intros [[Ho Hl] Hr]. repeat split; simpl; auto.
Qed.

Lemma dll_ready_emit (e : Event) (s : State) :
  dll_ready s ->
  dll_ready {| self := self s; events := events s ++ [e];
               next_id := next_id s |}.
Proof.
  intros [[Ho Hl] Hr]. repeat split; simpl.
  - apply ordered_snoc; auto.
  - intros _. apply referenced_app, Hr.
  - apply referenced_app, Hr.
Qed.

Lemma dll_ready_construct (class : string) (s : State) :
  dll_ready s ->
  dll_ready {| self := self s; events := events s ++ [EConstruct class];
               next_id := S (next_id s) |}.
Proof.
  intros [[Ho Hl] Hr]. repeat split; simpl.
  - apply ordered_snoc; auto.
  - intros _. apply referenced_app, Hr.
  - apply referenced_app, Hr.
Qed.

Lemma no_database_event_setattr (n : string) (v : Val) (s : State) :
  no_database_event s ->
  no_database_event {| self := <[n := v]> (self s); events := events s;
                       next_id := next_id s |}.
Proof. intros H. exact H. Qed.

Lemma no_database_event_emit (e : Event) (s : State) :
  is_database_event e = false ->
  no_database_event s ->
  no_database_event {| self := self s; events := events s ++ [e];
                       next_id := next_id s |}.
Proof.
  unfold no_database_event. simpl. intros He H.
  rewrite forallb_app, H. simpl. rewrite He. reflexivity.
Qed.

Lemma no_database_event_construct (class : string) (s : State) :
  no_database_event s ->
  no_database_event {| self := self s;
                       events := events s ++ [EConstruct class];
                       next_id := S (next_id s) |}.
Proof.
  unfold no_database_event. simpl. intros H.
  rewrite forallb_app, H. reflexivity.
Qed.

Create HintDb hoare.
#[local] Hint Resolve
  dll_ready_invariant dll_invariant_setattr dll_invariant_emit
  dll_invariant_construct dll_ready_setattr dll_ready_emit
  dll_ready_construct no_database_event_setattr no_database_event_emit
  no_database_event_construct : hoare.
#[local] Hint Extern 1 (_ <> _) => discriminate : hoare.
#[local] Hint Extern 1 (needs_edblib _ = false) => reflexivity : hoare.
#[local] Hint Extern 1 (is_database_event _ = false) => reflexivity : hoare.

(** *** Walking through a body *)

Create HintDb hoare_switch.
Create HintDb hoare_methods.

Ltac head_of t :=
  lazymatch t with
  | ?f _ => head_of f
  | _ => t
  end.

Ltac hoare_side := intros; solve [eauto 4 with hoare].

Ltac hoare_auto :=
  cbv beta iota zeta;
  lazymatch goal with
  | |- hoare ?P (bind ?m ?k) ?Q ?E =>
      first
        [ apply (hoare_bind m k P P Q E);
          [ solve [hoare_auto] | intros ?; hoare_auto ]
        | eapply (hoare_bind m k P);
          [ solve [eauto with hoare_switch] | intros ?; hoare_auto ] ]
  | |- hoare _ (ret _) _ _ => apply hoare_ret; hoare_side
  | |- hoare _ (raise _) _ _ => apply hoare_raise; hoare_side
  | |- hoare _ (setattr _ _) _ _ => apply hoare_setattr; hoare_side
  | |- hoare _ (emit _) _ _ => apply hoare_emit; hoare_side
  | |- hoare _ (construct _) _ _ => apply hoare_construct; hoare_side
  | |- hoare _ (getattr _) _ _ => apply hoare_getattr; hoare_side
  | |- hoare _ (aedt_exception_handler _) _ _ =>
      apply hoare_handler; hoare_auto
  | |- hoare _ (if ?b then _ else _) _ _ => destruct b; hoare_auto
  | |- hoare _ (match ?x with _ => _ end) _ _ => destruct x; hoare_auto
  | |- hoare _ ?m _ _ =>
      first
        [ solve [eauto with hoare_methods]
        | let h := head_of m in unfold h; hoare_auto ]
  end.

(** [_init_objects] keeps each of the invariants. *)
Lemma init_objects_ready (E : State -> Prop) :
  hoare dll_ready _init_objects dll_ready E.
Proof. hoare_auto. Qed.

Lemma init_objects_no_database (E : State -> Prop) :
  hoare no_database_event _init_objects no_database_event E.
Proof. hoare_auto. Qed.

(** A successful reference to EdbLib makes the instance ready; a failed
    one raises and leaves the invariant. *)
Lemma clr_call_edblib (w : World) (e : bool -> Event) (target : string) :
  is_edblib_reference (e true) = true ->
  needs_edblib (e false) = false ->
  hoare dll_invariant (clr_call w e target) dll_ready dll_invariant.
Proof.
  intros Href Hfail. unfold clr_call.
  destruct (edb_initialized w); [| hoare_auto].
  destruct (reference_loads w target).
  - apply hoare_bind with (R := dll_ready);
      [| intros ?; apply hoare_ret; auto].
    apply hoare_emit. intros s Hs. apply dll_invariant_reference; auto.
  - hoare_auto.
Qed.

(** Holding [layout_methods] means being ready. *)
Lemma getattr_layout_methods :
  hoare dll_invariant (getattr "layout_methods") dll_ready dll_invariant.
Proof.
  apply hoare_getattr; [| auto].
  intros s Hs Hl. apply dll_invariant_ready; assumption.
Qed.

#[local] Hint Resolve getattr_layout_methods : hoare_switch.
#[local] Hint Extern 1 (hoare dll_invariant (clr_call _ _ _) _ _) =>
  apply clr_call_edblib; reflexivity : hoare_switch.

(** [_init_dlls] keeps the invariant: it imports EdbLib and assigns
    [layout_methods] only after the reference to EdbLib succeeded. *)
Lemma init_dlls_invariant (w : World) (E : State -> Prop) :
  hoare dll_invariant (_init_dlls w) dll_invariant E.
Proof.
  unfold _init_dlls. apply hoare_handler. unfold _init_dlls_body.
  eapply hoare_bind with (R := dll_ready).
  - destruct (os_name_posix w); hoare_auto.
  - intros _. hoare_auto.
Qed.

Lemma init_dlls_ready (w : World) (E : State -> Prop) :
  hoare dll_ready (_init_dlls w) dll_ready E.
Proof. hoare_auto. Qed.

(** [_init_dlls] touches no database. *)
Lemma init_dlls_no_database (w : World) (E : State -> Prop) :
  hoare no_database_event (_init_dlls w) no_database_event E.
Proof. hoare_auto. Qed.

#[local] Hint Resolve init_dlls_invariant init_dlls_ready
  init_dlls_no_database : hoare_methods.

#[local] Hint Resolve init_objects_ready : hoare_methods.

(** The builder is requested only from a ready instance. *)
Lemma load_builder_invariant (w : World) :
  hoare dll_invariant (load_builder w) dll_invariant dll_invariant.
Proof. hoare_auto. Qed.

#[local] Hint Resolve load_builder_invariant : hoare_methods.

(** Each of the database methods keeps the invariant. *)
Lemma open_edb_invariant (w : World) (init_dlls : bool) (E : State -> Prop) :
  hoare dll_invariant (open_edb w init_dlls) dll_invariant E.
Proof. hoare_auto. Qed.

Lemma open_edb_inside_aedt_invariant
    (w : World) (init_dlls : bool) (E : State -> Prop) :
  hoare dll_invariant (open_edb_inside_aedt w init_dlls) dll_invariant E.
Proof. hoare_auto. Qed.

Lemma create_edb_invariant
    (w : World) (init_dlls : bool) (E : State -> Prop) :
  hoare dll_invariant (create_edb w init_dlls) dll_invariant E.
Proof. hoare_auto. Qed.

#[local] Hint Resolve open_edb_invariant open_edb_inside_aedt_invariant
  create_edb_invariant : hoare_methods.

Lemma import_layout_pcb_invariant
    (w : World) (input_file working_dir : string) (init_dlls : bool)
    (E : State -> Prop) :
  hoare dll_invariant (import_layout_pcb w input_file working_dir init_dlls)
    dll_invariant E.
Proof. hoare_auto. Qed.

#[local] Hint Resolve import_layout_pcb_invariant : hoare_methods.

(** The constructor keeps the invariant, also when it raises. *)
Lemma init_invariant (w : World) (a : InitArgs) :
  hoare dll_invariant (__init__ w a) dll_invariant dll_invariant.
Proof. hoare_auto. Qed.

Lemma fresh_invariant : dll_invariant fresh.
Proof.
  split; simpl.
  - apply ordered_nil.
  - rewrite lookup_empty. intros [v Hv]. discriminate Hv.
Qed.

(** *** The same walk for the two other invariants *)

Lemma imported_app (t t' : list Event) : imported t -> imported (t ++ t').
Proof.
  unfold imported. intros H. rewrite existsb_app, H. reflexivity.
Qed.

Lemma import_ready_invariant (s : State) : import_ready s -> import_invariant s.
Proof. intros H _. exact H. Qed.

Lemma import_invariant_setattr (n : string) (v : Val) (s : State) :
  n <> "layout_methods" ->
  import_invariant s ->
  import_invariant {| self := <[n := v]> (self s); events := events s;
                      next_id := next_id s |}.
Proof.
  intros Hn H. unfold import_invariant. simpl.
  rewrite lookup_insert_ne by exact Hn. exact H.
Qed.

Lemma import_invariant_emit (e : Event) (s : State) :
  import_invariant s ->
  import_invariant {| self := self s; events := events s ++ [e];
                      next_id := next_id s |}.
Proof. intros H Hl. apply imported_app, H, Hl. Qed.

Lemma import_invariant_construct (class : string) (s : State) :
  import_invariant s ->
  import_invariant {| self := self s;
                      events := events s ++ [EConstruct class];
                      next_id := S (next_id s) |}.
Proof. intros H Hl. apply imported_app, H, Hl. Qed.

Lemma import_ready_setattr (n : string) (v : Val) (s : State) :
  import_ready s ->
  import_ready {| self := <[n := v]> (self s); events := events s;
                  next_id := next_id s |}.
Proof. intros H. exact H. Qed.

Lemma import_ready_emit (e : Event) (s : State) :
  import_ready s ->
  import_ready {| self := self s; events := events s ++ [e];
                  next_id := next_id s |}.
Proof. intros H. apply imported_app, H. Qed.

Lemma import_ready_construct (class : string) (s : State) :
  import_ready s ->
  import_ready {| self := self s; events := events s ++ [EConstruct class];
                  next_id := S (next_id s) |}.
Proof. intros H. apply imported_app, H. Qed.

Lemma platform_invariant_setattr
    (posix : bool) (n : string) (v : Val) (s : State) :
  platform_invariant posix s ->
  platform_invariant posix
    {| self := <[n := v]> (self s); events := events s;
       next_id := next_id s |}.
Proof. intros H. exact H. Qed.

Lemma platform_invariant_emit (posix : bool) (e : Event) (s : State) :
  platform_event posix e ->
  platform_invariant posix s ->
  platform_invariant posix
    {| self := self s; events := events s ++ [e]; next_id := next_id s |}.
Proof.
  intros He H e' Hin. simpl in Hin. apply in_app_or in Hin as [Hin | Hin].
  - apply H, Hin.
  - destruct Hin as [<- | []]. exact He.
Qed.

Lemma platform_invariant_construct
    (posix : bool) (class : string) (s : State) :
  platform_invariant posix s ->
  platform_invariant posix
    {| self := self s; events := events s ++ [EConstruct class];
       next_id := S (next_id s) |}.
Proof.
  intros H e' Hin. simpl in Hin. apply in_app_or in Hin as [Hin | Hin].
  - apply H, Hin.
  - destruct Hin as [<- | []]. intros Hr. discriminate Hr.
Qed.

#[local] Hint Resolve
  import_ready_invariant import_invariant_setattr import_invariant_emit
  import_invariant_construct import_ready_setattr import_ready_emit
  import_ready_construct platform_invariant_setattr platform_invariant_emit
  platform_invariant_construct : hoare.

Ltac platform_event_tac :=
  unfold platform_event;
  repeat match goal with
         | |- context [reference_loads ?w ?t] =>
             destruct (reference_loads w t)
         end;
  vm_compute;
  first [ let H := fresh in intros H; discriminate H
        | intros _; reflexivity ].

#[local] Hint Extern 1 (platform_event _ _) => platform_event_tac : hoare.

(** A successful import of EdbLib. *)
Lemma import_edblib (w : World) :
  hoare import_invariant (import w "EdbLib") import_ready import_invariant.
Proof.
  unfold import. destruct (module_imports w "EdbLib").
  - apply hoare_bind with (R := import_ready);
      [| intros ?; apply hoare_ret; auto].
    apply hoare_emit. intros s Hs. unfold import_ready, imported. simpl.
    rewrite existsb_app. simpl. apply orb_true_r.
  - hoare_auto.
Qed.

#[local] Hint Resolve import_edblib : hoare_switch.

Lemma init_dlls_import (w : World) (E : State -> Prop) :
  hoare import_invariant (_init_dlls w) import_invariant E.
Proof. hoare_auto. Qed.

Lemma init_dlls_platform (w : World) (E : State -> Prop) :
  hoare (platform_invariant (os_name_posix w)) (_init_dlls w)
    (platform_invariant (os_name_posix w)) E.
Proof. hoare_auto. Qed.

#[local] Hint Resolve init_dlls_import init_dlls_platform : hoare_methods.

Lemma init_import (w : World) (a : InitArgs) :
  hoare import_invariant (__init__ w a) import_invariant import_invariant.
Proof. hoare_auto. Qed.

Lemma init_platform (w : World) (a : InitArgs) :
  hoare (platform_invariant (os_name_posix w)) (__init__ w a)
    (platform_invariant (os_name_posix w))
    (platform_invariant (os_name_posix w)).
Proof. hoare_auto. Qed.

(** The accessors and the other public methods keep the three
    invariants. *)
Lemma call_invariant (w : World) (m : Method) :
  hoare dll_invariant (call w m) dll_invariant dll_invariant.
Proof. destruct m as [| | | | p]; [| | | | destruct p]; hoare_auto. Qed.

Lemma call_import (w : World) (m : Method) :
  hoare import_invariant (call w m) import_invariant import_invariant.
Proof. destruct m as [| | | | p]; [| | | | destruct p]; hoare_auto. Qed.

Lemma call_platform (w : World) (m : Method) :
  hoare (platform_invariant (os_name_posix w)) (call w m)
    (platform_invariant (os_name_posix w))
    (platform_invariant (os_name_posix w)).
Proof. destruct m as [| | | | p]; [| | | | destruct p]; hoare_auto. Qed.

(** From a triple with one postcondition to the final store. *)
Lemma hoare_final {A} (m : M State A) (P Q : State -> Prop) (s : State) :
  hoare P m Q Q -> P s -> Q (snd (m s)).
Proof.
  intros H Hs. specialize (H s Hs). destruct (m s) as [[a | e] s']; exact H.
Qed.

Lemma run_methods_keeps (w : World) (I : State -> Prop) :
  (forall m, hoare I (call w m) I I) ->
  forall (ms : list Method) (s : State), I s -> I (run_methods w ms s).
Proof.
  intros Hcall ms. induction ms as [| m ms IH]; intros s Hs; simpl.
  - exact Hs.
  - apply IH. apply hoare_final with (P := I); auto.
Qed.

Lemma fresh_import : import_invariant fresh.
Proof. intros [v Hv]. simpl in Hv. rewrite lookup_empty in Hv. discriminate Hv. Qed.

Lemma fresh_platform (posix : bool) : platform_invariant posix fresh.
Proof. intros e []. Qed.

(** What the three invariants say together about a trace. *)
Lemma referenced_platform (posix : bool) (t : list Event) :
  (forall e, In e t -> platform_event posix e) ->
  referenced t ->
  In (expected_reference posix) t.
Proof.
  unfold referenced. intros Hp Hr. apply existsb_exists in Hr as (r & Hin & Hr).
  rewrite <- (Hp r Hin Hr). exact Hin.
Qed.

Lemma imported_split (t : list Event) :
  imported t ->
  exists before after, t = before ++ EImport "EdbLib" true :: after.
Proof.
  unfold imported. intros H. apply existsb_exists in H as (e & Hin & He).
  apply in_split in Hin as (before & after & ->).
  exists before, after. f_equal. f_equal.
  destruct e as [| | | | | | | m [] | | | | | | | | | |]; try discriminate He.
  simpl in He. apply bool_decide_eq_true_1 in He. subst m. reflexivity.
Qed.

(** *** When nothing fails, [_init_dlls] does reference EdbLib *)

Lemma has_reference_setattr (posix : bool) (n : string) (v : Val) (s : State) :
  has_reference posix s ->
  has_reference posix
    {| self := <[n := v]> (self s); events := events s;
       next_id := next_id s |}.
Proof. intros H. exact H. Qed.

Lemma has_reference_emit (posix : bool) (e : Event) (s : State) :
  has_reference posix s ->
  has_reference posix
    {| self := self s; events := events s ++ [e]; next_id := next_id s |}.
Proof. intros H. apply in_or_app. left. exact H. Qed.

Lemma has_reference_construct (posix : bool) (class : string) (s : State) :
  has_reference posix s ->
  has_reference posix
    {| self := self s; events := events s ++ [EConstruct class];
       next_id := S (next_id s) |}.
Proof. intros H. apply in_or_app. left. exact H. Qed.

#[local] Hint Resolve has_reference_setattr has_reference_emit
  has_reference_construct : hoare.

Lemma bind_run {A B} (m : M State A) (k : A -> M State B)
    (s s1 : State) (a : A) :
  m s = (Ok a, s1) -> bind m k s = k a s1.
Proof. intros H. unfold bind. rewrite H. reflexivity. Qed.

Lemma bind_final {A B} (m : M State A) (k : A -> M State B)
    (Q : State -> Prop) (s : State) :
  Q (snd (m s)) ->
  (forall a, hoare Q (k a) Q Q) ->
  Q (snd (bind m k s)).
Proof.
  intros Hm Hk. unfold bind. destruct (m s) as [[a | e] s1]; simpl in *.
  - apply hoare_final with (P := Q); auto.
  - exact Hm.
Qed.

Lemma handler_final (body : M State Val) (s : State) :
  snd (aedt_exception_handler body s) = snd (body s).
Proof.
  unfold aedt_exception_handler, try_except, ret.
  destruct (body s) as [[v | e] s1]; reflexivity.
Qed.

Lemma clr_call_loads (w : World) (e : bool -> Event) (target : string)
    (s : State) :
  edb_initialized w = true ->
  reference_loads w target = true ->
  clr_call w e target s =
  (Ok tt, {| self := self s; events := events s ++ [e true];
             next_id := next_id s |}).
Proof.
  intros Hi Hl. unfold clr_call. rewrite Hi, Hl. reflexivity.
Qed.

Lemma getattr_string (n : string) (v : string) (s : State) :
  self s !! n = Some (VStr v) ->
  bind (getattr n) (fun x => as_string x) s = (Ok v, s).
Proof. intros H. unfold bind, getattr. rewrite H. reflexivity. Qed.

Lemma init_dlls_references (w : World) (s : State) (version : string) :
  edb_initialized w = true ->
  (forall target, reference_loads w target = true) ->
  self s !! "edbversion" = Some (VStr version) ->
  is_Some (self s !! "student_version") ->
  has_reference (os_name_posix w) (snd (_init_dlls w s)).
Proof.
  intros Hi Hl Hv [student Hs].
  unfold _init_dlls. rewrite handler_final. unfold _init_dlls_body.
  apply bind_final; [| intros _; hoare_auto].
  destruct (os_name_posix w) eqn:Hposix.
  - rewrite (bind_run _ _ s s version (getattr_string _ _ _ Hv)).
    assert (Hbase : exists s1,
      (if version_in_environ w
       then setattr "base_path" (VStr (env_path w version))
       else if main_has_oDesktop w
            then setattr "base_path" (VStr (GetExeDir w))
            else ret tt) s = (Ok tt, s1)).
    { destruct (version_in_environ w); [| destruct (main_has_oDesktop w)];
        eexists; reflexivity. }
    destruct Hbase as [s1 Hbase].
    rewrite (bind_run _ _ s s1 tt Hbase).
    rewrite (bind_run _ _ _ _ tt (clr_call_loads w _ _ _ Hi (Hl _))).
    rewrite (bind_run _ _ _ _ tt (clr_call_loads w _ _ _ Hi (Hl _))).
    rewrite (bind_run _ _ _ _ tt (clr_call_loads w _ _ _ Hi (Hl _))).
    apply hoare_final with (P := has_reference true); [hoare_auto |].
    unfold has_reference. simpl. apply in_or_app. right. left. reflexivity.
  - unfold bind at 1, getattr at 1. rewrite Hs.
    rewrite (bind_run _ _ s s version (getattr_string _ _ _ Hv)).
    unfold bind at 1, setattr at 1, modify at 1.
    rewrite (bind_run _ _ _ _ tt (clr_call_loads w _ _ _ Hi (Hl _))).
    rewrite (bind_run _ _ _ _ tt (clr_call_loads w _ _ _ Hi (Hl _))).
    rewrite (bind_run _ _ _ _ tt (clr_call_loads w _ _ _ Hi (Hl _))).
    apply hoare_final with (P := has_reference false); [hoare_auto |].
    unfold has_reference. simpl. apply in_or_app. right. left. reflexivity.
Qed.

(** *** The constructor without a path *)

Lemma has_messenger_setattr (n : string) (v : Val) (s : State) :
  has_messenger s ->
  has_messenger {| self := <[n := v]> (self s); events := events s;
                   next_id := next_id s |}.
Proof.
  unfold has_messenger. simpl. intros H.
  apply lookup_insert_is_Some'. right. exact H.
Qed.

Lemma has_messenger_emit (e : Event) (s : State) :
  has_messenger s ->
  has_messenger {| self := self s; events := events s ++ [e];
                   next_id := next_id s |}.
Proof. intros H. exact H. Qed.

Lemma has_messenger_construct (class : string) (s : State) :
  has_messenger s ->
  has_messenger {| self := self s; events := events s ++ [EConstruct class];
                   next_id := S (next_id s) |}.
Proof. intros H. exact H. Qed.

#[local] Hint Resolve has_messenger_setattr has_messenger_emit
  has_messenger_construct : hoare.

Lemma returns_setattr (n : string) (v : Val) (P Q : State -> Prop) :
  (forall s, P s ->
     Q {| self := <[n := v]> (self s); events := events s;
          next_id := next_id s |}) ->
  returns P (setattr n v) Q.
Proof. intros H. apply returns_modify. exact H. Qed.

Lemma returns_emit (e : Event) (P Q : State -> Prop) :
  (forall s, P s ->
     Q {| self := self s; events := events s ++ [e];
          next_id := next_id s |}) ->
  returns P (emit e) Q.
Proof. intros H. apply returns_modify. exact H. Qed.

Lemma returns_construct (class : string) (P Q : State -> Prop) :
  (forall s, P s ->
     Q {| self := self s; events := events s ++ [EConstruct class];
          next_id := S (next_id s) |}) ->
  returns P (construct class) Q.
Proof. intros H s Hs. eexists _, _. split; [reflexivity | auto]. Qed.

Lemma returns_getattr (n : string) (P Q : State -> Prop) :
  (forall s, P s -> is_Some (self s !! n)) ->
  (forall s, P s -> Q s) ->
  returns P (getattr n) Q.
Proof.
  intros Hn HQ s Hs. destruct (Hn s Hs) as [v Hv].
  exists v, s. unfold getattr. rewrite Hv. auto.
Qed.

Lemma returns_handler (body : M State Val) (P Q : State -> Prop) :
  hoare P body Q Q -> returns P (aedt_exception_handler body) Q.
Proof.
  intros H s Hs. specialize (H s Hs).
  unfold aedt_exception_handler, try_except, ret.
  destruct (body s) as [[v | e] s1]; eauto.
Qed.

Ltac returns_auto :=
  cbv beta iota zeta;
  lazymatch goal with
  | |- returns ?P (bind ?m ?k) ?Q =>
      apply (returns_bind m k P P Q); [ returns_auto | intros ?; returns_auto ]
  | |- returns _ (ret _) _ => apply returns_ret; hoare_side
  | |- returns _ (setattr _ _) _ => apply returns_setattr; hoare_side
  | |- returns _ (emit _) _ => apply returns_emit; hoare_side
  | |- returns _ (construct _) _ => apply returns_construct; hoare_side
  | |- returns _ (getattr _) _ => apply returns_getattr; hoare_side
  | |- returns _ (aedt_exception_handler _) _ =>
      apply returns_handler; hoare_auto
  | |- returns _ (if ?b then _ else _) _ => destruct b; returns_auto
  | |- returns _ ?m _ => let h := head_of m in unfold h; returns_auto
  end.

(** The head of [__init__]: it returns unless the messenger of [__main__]
    is asked for and missing, and then the instance holds a messenger. *)
Lemma init_messenger_returns (w : World) (a : InitArgs) :
  edbpath a = None ->
  isaedtowned a = false \/ main_has_oMessenger w = true ->
  returns (fun _ => True) (init_messenger w a) has_messenger.
Proof.
  intros Hpath Hcond. unfold init_messenger. rewrite Hpath.
  destruct (isaedtowned a).
  - destruct Hcond as [Hcond | Hcond]; [discriminate Hcond |].
    rewrite Hcond.
    apply returns_bind with (R := fun s => is_Some (self s !! "_main")).
    { apply returns_setattr. intros s _. simpl.
      rewrite lookup_insert_eq. eauto. }
    intros _.
    apply returns_bind with (R := fun _ => True).
    { apply returns_getattr; auto. }
    intros _. apply returns_setattr. intros s _.
    unfold has_messenger. simpl. rewrite lookup_insert_eq. eauto.
  - apply returns_bind with (R := fun _ => True).
    { apply returns_construct. auto. }
    intros m. apply returns_setattr. intros s _.
    unfold has_messenger. simpl. rewrite lookup_insert_eq. eauto.
Qed.

Lemma init_messenger_raises (w : World) (a : InitArgs) :
  isaedtowned a = true ->
  main_has_oMessenger w = false ->
  raises (fun _ => True) (init_messenger w a) (fun _ => True).
Proof.
  intros Howned Hmess. unfold init_messenger. rewrite Howned, Hmess.
  apply raises_bind with (R := fun s => is_Some (self s !! "_main")).
  { apply returns_setattr. intros s _. simpl.
    rewrite lookup_insert_eq. eauto. }
  intros _.
  apply raises_bind with (R := fun _ => True).
  { apply returns_getattr; auto. }
  intros _. apply raises_raise. exact I.
Qed.

#[local] Hint Extern 1 (is_Some (self _ !! "_messenger")) =>
  match goal with H : has_messenger _ |- _ => exact H end : hoare.

(** With [edbpath=None] the constructor raises: a [TypeError] at
    [edbpath[-3:]], unless the messenger of [__main__] is asked for and
    missing. *)
Lemma init_none_raises (w : World) (a : InitArgs) :
  edb_initialized w = true ->
  edbpath a = None ->
  raises (fun _ => True) (__init__ w a)
    (fun e =>
       isaedtowned a = false \/ main_has_oMessenger w = true ->
       e = TypeError).
Proof.
  intros Hi Hpath. unfold __init__. rewrite Hi.
  apply raises_bind with (R := fun _ => True); [returns_auto | intros _].
  apply raises_bind with (R := fun _ => True); [returns_auto | intros _].
  apply raises_bind with (R := fun _ => True); [returns_auto | intros _].
  destruct (isaedtowned a) eqn:Howned;
    [destruct (main_has_oMessenger w) eqn:Hmess |].
  2: { apply raises_bind_first. intros s Hs.
       destruct (init_messenger_raises w a Howned Hmess s Hs)
         as (e & s' & Heq & _).
       exists e, s'. split; [exact Heq |].
       intros [H | H]; discriminate H. }
  all: (apply raises_bind with (R := has_messenger);
        [ apply init_messenger_returns; auto | intros _ ]).
  all: repeat (apply raises_bind with (R := has_messenger);
               [ solve [returns_auto] | intros ? ]).
  all: unfold init_database; rewrite Hpath;
    apply raises_raise; intros _; reflexivity.
Qed.

(** Without a path the constructor touches no database. *)
Lemma init_none_no_database (w : World) (a : InitArgs) :
  edbpath a = None ->
  hoare no_database_event (__init__ w a)
    no_database_event no_database_event.
Proof.
  intros Hpath. unfold __init__, init_database, init_messenger.
  rewrite Hpath. hoare_auto.
Qed.

(** C3: with the clr runtime available, [Edb(edbpath=None)] raises a
    [TypeError] (at [edbpath[-3:]]) before any database is opened, created
    or attached to: for the default arguments, and for any others that do
    not ask [__main__] for a messenger it lacks.  Whatever the arguments,
    a construction without a path never succeeds: when [__init__] returns,
    [edbpath] is a string. *)
Theorem C3_default_edbpath_raises (w : World) :
  edb_initialized w = true ->
  (exists s' : State,
      Edb w (default_arguments None) = (Raise TypeError, s')
      /\ no_database_event s')
  /\ (forall a : InitArgs,
        edbpath a = None ->
        isaedtowned a = false \/ main_has_oMessenger w = true ->
        exists s' : State,
          Edb w a = (Raise TypeError, s') /\ no_database_event s')
  /\ (forall (a : InitArgs) (s' : State),
        Edb w a = (Ok tt, s') ->
        exists path : string, edbpath a = Some path).
Proof.
  intros Hi.
  assert (Hnone : forall a : InitArgs,
             edbpath a = None ->
             exists (e : exn) (s' : State),
               Edb w a = (Raise e, s')
               /\ (isaedtowned a = false \/ main_has_oMessenger w = true ->
                   e = TypeError)
               /\ no_database_event s').
  { intros a Hpath.
    destruct (init_none_raises w a Hi Hpath fresh I) as (e & s' & Heq & He).
    exists e, s'. split; [exact Heq |]. split; [exact He |].
    change s' with (snd (Raise (A := unit) e, s')). rewrite <- Heq.
    apply hoare_final with (P := no_database_event).
    - apply init_none_no_database, Hpath.
    - reflexivity. }
  assert (Htype : forall a : InitArgs,
             edbpath a = None ->
             isaedtowned a = false \/ main_has_oMessenger w = true ->
             exists s' : State,
               Edb w a = (Raise TypeError, s') /\ no_database_event s').
  { intros a Hpath Hcond.
    destruct (Hnone a Hpath) as (e & s' & Heq & He & Hdb).
    rewrite (He Hcond) in Heq. eauto. }
  split; [| split].
  - apply Htype; [reflexivity | left; reflexivity].
  - exact Htype.
  - intros a s' Hok. destruct (edbpath a) as [path |] eqn:Hpath; [eauto |].
    destruct (Hnone a Hpath) as (e & s'' & Heq & _).
    rewrite Heq in Hok. discriminate Hok.
Qed.

(** C3 on the Windows installation of the examples. *)
Lemma C3_default_edbpath_witness :
  (exists s' : State,
      Edb windows_world (default_arguments None) = (Raise TypeError, s')
      /\ no_database_event s')
  /\ (forall a : InitArgs,
        edbpath a = None ->
        isaedtowned a = false \/ main_has_oMessenger windows_world = true ->
        exists s' : State,
          Edb windows_world a = (Raise TypeError, s')
          /\ no_database_event s')
  /\ (forall (a : InitArgs) (s' : State),
        Edb windows_world a = (Ok tt, s') ->
        exists path : string, edbpath a = Some path).
Proof.
  apply (C3_default_edbpath_raises windows_world). reflexivity.
Defined.

(** With a path, the construction can succeed, and then it has created
    the database. *)
Lemma construction_with_path_succeeds :
  fst (Edb windows_world (default_arguments (Some "new.aedb"))) = Ok tt
  /\ In (EDatabaseCreate (VStr "new.aedb"))
        (events (snd (Edb windows_world
                        (default_arguments (Some "new.aedb"))))).
Proof. vm_compute. split; [reflexivity | tauto]. Qed.

(** C7 at work: the accessor of the created instance returns the cached
    [Components] handle, that of the cleaned instance returns [None], and
    that of the cleaned instance which was given a builder constructs the
    [EdbNets] object, caches it and returns it again. *)
Lemma C7_core_accessors_witness :
  access core_components created = (Ok (VObj "Components" 1), created)
  /\ access core_nets cleaned = (Ok VNone, cleaned)
  /\ exists st' : State,
       access core_nets cleaned_with_builder =
       (Ok (VObj (core_class core_nets) (next_id cleaned_with_builder)), st')
       /\ self st' !! cache_attribute core_nets =
          Some (VObj (core_class core_nets) (next_id cleaned_with_builder))
       /\ events st' =
          events cleaned_with_builder ++ [EConstruct (core_class core_nets)]
       /\ access core_nets st' =
          (Ok (VObj (core_class core_nets) (next_id cleaned_with_builder)),
           st').
Proof.
  split; [| split].
  - apply (proj1 (proj2 (proj2
             (C7_core_accessors_cache core_components created)))).
    vm_compute. reflexivity.
  - apply (proj1 (C7_core_accessors_cache core_nets cleaned) VNone VNone);
      vm_compute; reflexivity.
  - apply (proj1 (proj2
             (C7_core_accessors_cache core_nets cleaned_with_builder))
             VNone (VObj "Builder" 0));
      vm_compute; reflexivity.
Defined.



(** On that installation the construction does request the builder, and
    [_init_dlls] does reference EdbLib. *)
Lemma builder_is_requested :
  In EGetBuilder (events created)
  /\ In (EAddReference "EdbLib" true)
        (events (snd (_init_dlls windows_world before_init_dlls))).
Proof. vm_compute. tauto. Qed.

(** What [_clean_variables] leaves. *)
Lemma clean_variables_run (s : State) :
  _clean_variables s =
  (Ok tt,
   {| self :=
        <["builder" := VNone]> (<["_edb" := VNone]> (<["_db" := VNone]>
        (<["_nets" := VNone]> (<["_hfss" := VNone]> (<["_siwave" := VNone]>
        (<["_padstack" := VNone]> (<["_stackup" := VNone]>
        (<["_core_primitives" := VNone]> (<["_components" := VNone]>
        (self s))))))))));
      events := events s; next_id := next_id s |}).
Proof. reflexivity. Qed.

(** An accessor on an instance without cache and without builder. *)
Lemma access_none (p : CoreAccessor) (s : State) :
  self s !! cache_attribute p = Some VNone ->
  self s !! "builder" = Some VNone ->
  access p s = (Ok VNone, s).
Proof.
  intros Hcache Hbuilder. unfold access, bind, getattr, ret.
  rewrite Hcache. cbn [truthy negb]. rewrite Hbuilder. cbn [truthy].
  rewrite Hcache. reflexivity.
Qed.

(** X24: after [_clean_variables], with which [close_edb] ends, each of
    the seven core accessors returns [None]: the builder is [None], so no
    core object is constructed and the store stays as it is. *)
Theorem clean_variables_resets_accessors (p : CoreAccessor) (s : State) :
  exists s1 : State,
    _clean_variables s = (Ok tt, s1)
    /\ events s1 = events s
    /\ access p s1 = (Ok VNone, s1).
Proof.
  rewrite clean_variables_run. eexists. split; [reflexivity |].
  split; [reflexivity |].
  apply access_none; cbn [self].
  - destruct p; cbn [cache_attribute];
      repeat (rewrite lookup_insert_ne by discriminate);
      apply lookup_insert_eq.
  - apply lookup_insert_eq.
Qed.



End EdbSpec.

Module EdbExportSpec.
Import EdbExport.

Lemma dict_set_keys (el : string) (val : Z) (d : Dict) :
  List.map fst (dict_set el val d) =
  if bool_decide (el ∈ List.map fst d) then List.map fst d
  else List.map fst d ++ [el].
Proof.
  induction d as [| [k v] d IH]; simpl; [reflexivity |].
  destruct (bool_decide (k = el)) eqn:Hk.
  - apply bool_decide_eq_true_1 in Hk. subst k.
    rewrite bool_decide_eq_true_2 by left. reflexivity.
  - apply bool_decide_eq_false_1 in Hk. simpl. rewrite IH.
    destruct (bool_decide (el ∈ List.map fst d)) eqn:Hin.
    + apply bool_decide_eq_true_1 in Hin.
      rewrite bool_decide_eq_true_2 by (right; exact Hin). reflexivity.
    + apply bool_decide_eq_false_1 in Hin.
      rewrite bool_decide_eq_false_2; [reflexivity |].
      intros Hel. apply elem_of_cons in Hel as [Heq | Hel];
        [congruence | contradiction].
Qed.

Lemma dict_set_get (el k : string) (val : Z) (d : Dict) :
  dict_get k (dict_set el val d) =
  if bool_decide (k = el) then Some val else dict_get k d.
Proof.
  induction d as [| [k' v] d IH]; simpl.
  - destruct (bool_decide (el = k)) eqn:H1;
      destruct (bool_decide (k = el)) eqn:H2; try reflexivity.
    + apply bool_decide_eq_true_1 in H1.
      apply bool_decide_eq_false_1 in H2. congruence.
    + apply bool_decide_eq_true_1 in H2.
      apply bool_decide_eq_false_1 in H1. congruence.
  - destruct (bool_decide (k' = el)) eqn:Hk'; simpl.
    + apply bool_decide_eq_true_1 in Hk'. subst k'.
      destruct (bool_decide (el = k)) eqn:H1;
        destruct (bool_decide (k = el)) eqn:H2; try reflexivity.
      * apply bool_decide_eq_true_1 in H1.
        apply bool_decide_eq_false_1 in H2. congruence.
      * apply bool_decide_eq_true_1 in H2.
        apply bool_decide_eq_false_1 in H1. congruence.
    + rewrite IH. apply bool_decide_eq_false_1 in Hk'.
      destruct (bool_decide (k' = k)) eqn:H1; [| reflexivity].
      apply bool_decide_eq_true_1 in H1. subst k'.
      rewrite bool_decide_eq_false_2 by congruence. reflexivity.
Qed.

Lemma dict_set_nodup (el : string) (val : Z) (d : Dict) :
  NoDup (List.map fst d) -> NoDup (List.map fst (dict_set el val d)).
Proof.
  intros Hd. rewrite dict_set_keys.
  destruct (bool_decide (el ∈ List.map fst d)) eqn:Hin; [exact Hd |].
  apply bool_decide_eq_false_1 in Hin.
  apply NoDup_app. repeat split; [exact Hd | | apply NoDup_singleton].
  intros k Hk Hk'. apply list_elem_of_singleton in Hk'. subst k.
  contradiction.
Qed.

Lemma update_options_spec (items : list (string * Z)) (d : Dict) :
  NoDup (List.map fst d) ->
  NoDup (List.map fst (update_options items d))
  /\ (exists added : list string,
        List.map fst (update_options items d) = List.map fst d ++ added)
  /\ forall k : string,
       dict_get k (update_options items d) =
       match dict_get k (rev items) with
       | Some val => Some val
       | None => dict_get k d
       end.
Proof.
  unfold update_options. revert d.
  induction items as [| [el val] items IH]; intros d Hd; simpl.
  - split; [exact Hd |]. split; [exists []; symmetry; apply app_nil_r |].
    reflexivity.
  - destruct (IH (dict_set el val d) (dict_set_nodup el val d Hd))
      as (Hnodup & [added Hadded] & Hget).
    split; [exact Hnodup |]. split.
    + rewrite Hadded, dict_set_keys.
      destruct (bool_decide (el ∈ List.map fst d)).
      * exists added. reflexivity.
      * exists (el :: added). rewrite <- app_assoc. reflexivity.
    + intros k. rewrite Hget, dict_set_get.
      assert (Hrev : forall (l1 l2 : Dict),
                dict_get k (l1 ++ l2) =
                match dict_get k l1 with
                | Some v => Some v
                | None => dict_get k l2
                end).
      { induction l1 as [| [k1 v1] l1 IHl]; intros l2; simpl;
          [reflexivity |].
        destruct (bool_decide (k1 = k)); [reflexivity | apply IHl]. }
      rewrite Hrev. destruct (dict_get k (rev items)); [reflexivity |].
      simpl. destruct (bool_decide (el = k)) eqn:H1;
        destruct (bool_decide (k = el)) eqn:H2; try reflexivity.
      * apply bool_decide_eq_true_1 in H1.
        apply bool_decide_eq_false_1 in H2. congruence.
      * apply bool_decide_eq_true_1 in H2.
        apply bool_decide_eq_false_1 in H1. congruence.
Qed.

(** X26: the file [write_export3d_option_config_file] writes has one line
    for each option: the fifteen default options come first, in their
    order, no option has two lines, and the value of an option is the
    last one [config_dictionaries] gives it, or else its default. *)
Theorem export_options_file
    (os_path_join : string -> string -> string) (writable : string -> bool)
    (path_to_output : string)
    (config_dictionaries : option (list (string * Z))) :
  let written := option_config config_dictionaries in
  write_export3d_option_config_file os_path_join writable path_to_output
    config_dictionaries =
  (if writable (os_path_join path_to_output "options.config")
   then (RPath (os_path_join path_to_output "options.config"),
         [(os_path_join path_to_output "options.config",
           List.map config_line written)])
   else (RFalse, []))
  /\ NoDup (List.map fst written)
  /\ (exists added : list string,
        List.map fst written =
        List.map fst option_config_defaults ++ added)
  /\ forall k : string,
       dict_get k written =
       match
         dict_get k
           (rev match config_dictionaries with
                | Some items => items
                | None => []
                end)
       with
       | Some val => Some val
       | None => dict_get k option_config_defaults
       end.
Proof.
  intros written. split; [reflexivity |].
  assert (Hdefaults : NoDup (List.map fst option_config_defaults)).
  { apply (bool_decide_unpack _). vm_compute. exact I. }
  subst written. unfold option_config.
  destruct config_dictionaries as [[| item items] |].
  - split; [exact Hdefaults |].
    split; [exists []; symmetry; apply app_nil_r |]. reflexivity.
  - apply update_options_spec. exact Hdefaults.
  - split; [exact Hdefaults |].
    split; [exists []; symmetry; apply app_nil_r |]. reflexivity.
Qed.

End EdbExportSpec.

Module SiwaveSpec.
Import Siwave.

Lemma assign_all_lookup (terms : list string) (value : Z)
    (a : gmap string Z) (el : string) :
  assign_all terms value a !! el =
  if bool_decide (el ∈ terms) then Some value else a !! el.
Proof.
  unfold assign_all. revert a.
  induction terms as [| t terms IH]; intros a; simpl; [reflexivity |].
  rewrite IH. destruct (bool_decide (el ∈ terms)) eqn:Hin.
  - apply bool_decide_eq_true_1 in Hin.
    rewrite bool_decide_eq_true_2; [reflexivity |]. right. exact Hin.
  - apply bool_decide_eq_false_1 in Hin.
    destruct (decide (el = t)) as [-> | Hne].
    + rewrite lookup_insert_eq.
      rewrite bool_decide_eq_true_2; [reflexivity | left].
    + rewrite lookup_insert_ne by congruence.
      rewrite bool_decide_eq_false_2; [reflexivity |].
      intros Hel. apply elem_of_cons in Hel as [Heq | Hel]; contradiction.
Qed.

(** X18: after the two setters, which take a name for the list of that
    name alone, [source_terms_to_ground] maps every positive terminal to
    2, every other negative terminal to 1, and nothing else. *)
Theorem source_terms_to_ground_lookup
    (pos neg : Terms) (t : SiwaveDCSetupTemplate) (el : string) :
  source_terms_to_ground
    (pos_term_to_ground_setter pos (neg_term_to_ground_setter neg t)) !! el =
  if bool_decide (el ∈ as_list pos) then Some 2%Z
  else if bool_decide (el ∈ as_list neg) then Some 1%Z
  else None.
Proof.
  unfold source_terms_to_ground. simpl.
  rewrite !assign_all_lookup. reflexivity.
Qed.

Lemma getattr_in_field (depth : nat) (class : Class) (attr read : string)
    (written : option string) (dict : gmap string Val) :
  property_of class attr = Some (Field read written) ->
  getattr_in depth class attr dict = dict_get read dict.
Proof. intros H. destruct depth; simpl; rewrite H; reflexivity. Qed.

(** X19: [CircuitPort()] is set up by [Source.__init__] alone: its type is
    [SourceType.Port], and reading [impedance] raises [AttributeError]
    until the attribute was assigned, after which it gives the assigned
    value. *)
Theorem circuit_port_has_no_impedance (depth : nat) (value : Val) :
  getattr depth (new CircuitPort) "type" = inl (VInt SourceType.Port)
  /\ getattr depth (new CircuitPort) "impedance" = inr AttributeError
  /\ exists port : Val,
       setattr depth (new CircuitPort) "impedance" value = inl port
       /\ getattr depth port "impedance" = inl value.
Proof.
  split; [| split].
  - destruct depth; reflexivity.
  - destruct depth; reflexivity.
  - eexists. split; [destruct depth; reflexivity |].
    destruct depth; reflexivity.
Qed.

(** X20: the setter of [ResistorSource.rvalue] assigns [_rv] while the
    getter reads [_rvalue]: after an assignment, [rvalue] gives what it
    gave before. *)
Theorem resistor_rvalue_is_not_set
    (depth : nat) (dict : gmap string Val) (value : Val) :
  exists resistor : Val,
    setattr depth (VObject ResistorSource dict) "rvalue" value = inl resistor
    /\ getattr depth resistor "rvalue" =
       getattr depth (VObject ResistorSource dict) "rvalue".
Proof.
  eexists. split; [destruct depth; reflexivity |].
  destruct depth; simpl; unfold dict_get;
    rewrite lookup_insert_ne by discriminate; reflexivity.
Qed.

(** X21: the setter of [Source.type] assigns the property itself: on a
    source of any class, for any limit of the recursion, the assignment
    raises [RecursionError]; so does reading [source_type] on the three
    classes that define it. *)
Theorem source_type_setter_recurses
    (depth : nat) (class : Class) (dict : gmap string Val) (value : Val) :
  class <> PinGroup ->
  setattr depth (VObject class dict) "type" value = inr RecursionError
  /\ (class = VoltageSource \/ class = CurrentSource
      \/ class = ResistorSource ->
      getattr depth (VObject class dict) "source_type" = inr RecursionError).
Proof.
  intros Hclass. split.
  - simpl.
    assert (H : setattr_in depth class "type" value dict = inr RecursionError).
    { induction depth as [| depth IH]; destruct class;
        try contradiction; simpl; try reflexivity; rewrite IH; reflexivity. }
    rewrite H. reflexivity.
  - intros Hc. simpl.
    induction depth as [| depth IH];
      destruct Hc as [-> | [-> | ->]]; simpl; try reflexivity;
      apply IH; auto.
Qed.

Section EdbSiwaveSpec.

Variable depth : nat.
Variable get_component_by_name : Val -> Val.
Variable get_pin_from_component : Val -> Val -> Val.
Variable create_pingroup_from_pins : Val -> Val * Val.
Variable get_net_by_name : Val -> Val.
Variable PinGroupTerminal_Create : Val -> string -> Val -> Val.
Variable Utility_Value : Val -> Val.
Variable str_of_value : Val -> string.

Local Abbreviation create_resistor :=
  (create_resistor depth get_component_by_name get_pin_from_component
     create_pingroup_from_pins get_net_by_name PinGroupTerminal_Create
     Utility_Value str_of_value).
Local Abbreviation create_circuit_port :=
  (create_circuit_port depth get_component_by_name get_pin_from_component
     create_pingroup_from_pins get_net_by_name PinGroupTerminal_Create
     Utility_Value str_of_value).
Local Abbreviation str := (str str_of_value).

(** X22: [create_resistor] returns [True], and the resistance it gives to
    the terminal is ["50"], whatever [rvalue] is: the argument is
    assigned to the attribute [magnitude], which the method that creates
    the terminals does not read. *)
Theorem create_resistor_ignores_rvalue
    (positive_component_name positive_net_name negative_component_name
       negative_net_name rvalue resistor_name : Val) :
  let name :=
    if is_empty_string resistor_name then
      default_name str_of_value "Port" positive_component_name
        positive_net_name negative_component_name negative_net_name
    else resistor_name in
  let pos_group :=
    snd (create_pingroup_from_pins
           (get_pin_from_component positive_component_name
              positive_net_name)) in
  let neg_group :=
    snd (create_pingroup_from_pins
           (get_pin_from_component negative_component_name
              negative_net_name)) in
  let pos_name := str positive_net_name +:+ "_" +:+ str name in
  let neg_name := str negative_net_name +:+ "_" +:+ str name in
  let pos :=
    PinGroupTerminal_Create (get_net_by_name positive_net_name) pos_name
      pos_group in
  let neg :=
    PinGroupTerminal_Create (get_net_by_name negative_net_name) neg_name
      neg_group in
  create_resistor positive_component_name positive_net_name
    negative_component_name negative_net_name rvalue resistor_name =
  (inl (VBool true),
   [ECreatePingroup
      (get_pin_from_component positive_component_name positive_net_name);
    ECreatePingroup
      (get_pin_from_component negative_component_name negative_net_name);
    ECreateTerminal (get_net_by_name positive_net_name) pos_name pos_group;
    ECreateTerminal (get_net_by_name negative_net_name) neg_name neg_group;
    ESetBoundaryType pos "RlcBoundary";
    ESetBoundaryType neg "RlcBoundary";
    ESetReferenceTerminal pos neg;
    ESetSourceAmplitude pos (Utility_Value (VStr "50"));
    ESetIsCircuitPort pos true;
    ESetIsCircuitPort neg true;
    ESetRlcBoundaryParameters pos false false true (VStr "50")]).
Proof.
  intros name. subst name.
  unfold Siwave.create_resistor, create_resistor_body, place_source,
    create_pin_group_terminal, create_pin_group_terminal_body.
  destruct depth; destruct (is_empty_string resistor_name); reflexivity.
Qed.

(** X23: [create_circuit_port] returns [True]; a negative component that
    is [None] or empty is replaced by the positive one, an empty port name
    by ["Port_"] and the four names, and the impedance given is the
    amplitude of the positive terminal. *)
Theorem create_circuit_port_sends_impedance
    (positive_component_name positive_net_name negative_component_name
       negative_net_name impedance_value port_name : Val) :
  let negative_component :=
    if truthy negative_component_name then negative_component_name
    else positive_component_name in
  let name :=
    if is_empty_string port_name then
      default_name str_of_value "Port" positive_component_name
        positive_net_name negative_component negative_net_name
    else port_name in
  let pos_group :=
    snd (create_pingroup_from_pins
           (get_pin_from_component positive_component_name
              positive_net_name)) in
  let neg_group :=
    snd (create_pingroup_from_pins
           (get_pin_from_component negative_component negative_net_name)) in
  let pos_name := str positive_net_name +:+ "_" +:+ str name in
  let neg_name := str negative_net_name +:+ "_" +:+ str name in
  let pos :=
    PinGroupTerminal_Create (get_net_by_name positive_net_name) pos_name
      pos_group in
  let neg :=
    PinGroupTerminal_Create (get_net_by_name negative_net_name) neg_name
      neg_group in
  create_circuit_port positive_component_name positive_net_name
    negative_component_name negative_net_name impedance_value port_name =
  (inl (VBool true),
   [ECreatePingroup
      (get_pin_from_component positive_component_name positive_net_name);
    ECreatePingroup
      (get_pin_from_component negative_component negative_net_name);
    ECreateTerminal (get_net_by_name positive_net_name) pos_name pos_group;
    ECreateTerminal (get_net_by_name negative_net_name) neg_name neg_group;
    ESetBoundaryType pos "PortBoundary";
    ESetBoundaryType neg "PortBoundary";
    ESetSourceAmplitude pos (Utility_Value impedance_value);
    ESetIsCircuitPort pos true;
    ESetIsCircuitPort neg true;
    ESetReferenceTerminal pos neg]).
Proof.
  intros negative_component name. subst negative_component name.
  unfold Siwave.create_circuit_port, create_circuit_port_body, place_source,
    create_pin_group_terminal, create_pin_group_terminal_body.
  destruct depth; destruct (truthy negative_component_name);
    destruct (is_empty_string port_name); reflexivity.
Qed.

End EdbSiwaveSpec.

Lemma source_type_setter_witness :
  setattr 1000 (VObject ResistorSource ∅) "type" (VInt 1) =
  inr RecursionError
  /\ (ResistorSource = VoltageSource \/ ResistorSource = CurrentSource
      \/ ResistorSource = ResistorSource ->
      getattr 1000 (VObject ResistorSource ∅) "source_type" =
      inr RecursionError).
Proof.
  apply (source_type_setter_recurses 1000 ResistorSource ∅ (VInt 1)).
  discriminate.
Defined.

End SiwaveSpec.

Module VariablesSpec.
Import Py Variables.
Local Open Scope R_scope.

(** The conversions of the units the examples use. *)
Lemma conversion_mm : conversion "mm" = factor (1 / 1000).
Proof. reflexivity. Qed.
Lemma conversion_meter : conversion "meter" = factor 1.
Proof. reflexivity. Qed.
Lemma conversion_mA : conversion "mA" = factor (1 / 1000).
Proof. reflexivity. Qed.
Lemma conversion_A : conversion "A" = factor 1.
Proof. reflexivity. Qed.
Lemma conversion_V : conversion "V" = factor 1.
Proof. reflexivity. Qed.
Lemma conversion_W : conversion "W" = factor 1.
Proof. reflexivity. Qed.
Lemma conversion_NewtonMeter : conversion "NewtonMeter" = factor 1.
Proof. reflexivity. Qed.
Lemma conversion_rpm : conversion "rpm" = factor (2 * PI / 60).
Proof. reflexivity. Qed.
Lemma conversion_rad : conversion "rad" = factor 1.
Proof. reflexivity. Qed.
Lemma conversion_deg : conversion "deg" = factor (PI / 180).
Proof. reflexivity. Qed.
Lemma conversion_degmin : conversion "degmin" = factor (PI / 180 / 60).
Proof. reflexivity. Qed.
Lemma conversion_cel :
  conversion "cel" = {| scale := 1; offset := 27315 / 100 |}.
Proof. reflexivity. Qed.
Lemma conversion_fah :
  conversion "fah" =
  {| scale := 5 / 9; offset := 27315 / 100 - 32 * (5 / 9) |}.
Proof. reflexivity. Qed.

(** The SI unit of a system has the scale factor 1 and is of that
    system. *)
Lemma SI_units_system (s : UnitSystem) : unit_system (SI_units s) = s.
Proof. destruct s; reflexivity. Qed.

Lemma SI_units_conversion (s : UnitSystem) :
  conversion (SI_units s) = factor 1.
Proof. destruct s; reflexivity. Qed.

Lemma numeric_value_SI (x : R) (s : UnitSystem) :
  numeric_value {| value := x; units := SI_units s |} = x.
Proof.
  unfold numeric_value. simpl units. rewrite SI_units_conversion.
  unfold from_SI, factor. simpl. field.
Qed.

(** Multiplying two variables of systems that the table resolves. *)
Lemma mul_resolved (a b : VariableT) (s : UnitSystem) :
  system_of a <> NoneSystem ->
  system_of b <> NoneSystem ->
  _resolve_unit_system (system_of a) (system_of b) = Some s ->
  __mul__ a b = {| value := value a * value b; units := SI_units s |}.
Proof.
  intros Ha Hb Hs. unfold __mul__.
  destruct (decide (system_of a = NoneSystem)) as [H | _]; [contradiction |].
  destruct (decide (system_of b = NoneSystem)) as [H | _]; [contradiction |].
  rewrite Hs. reflexivity.
Qed.

Lemma mul_to_power (a b : VariableT) :
  system_of a <> NoneSystem ->
  system_of b <> NoneSystem ->
  _resolve_unit_system (system_of a) (system_of b) = Some Power ->
  system_of (__mul__ a b) = Power
  /\ units (__mul__ a b) = "W"
  /\ value (__mul__ a b) = value a * value b
  /\ numeric_value (__mul__ a b) = value a * value b.
Proof.
  intros Ha Hb Hs. rewrite (mul_resolved a b Power Ha Hb Hs).
  repeat split. apply (numeric_value_SI _ Power).
Qed.

(** C4: a Current variable times a Voltage variable, in either order, is
    a Power variable (in W) whose SI value is the product of the operands'
    SI values, and so is a Torque variable times an AngularSpeed variable;
    3 mA times 40 V is 0.12 W, and 100 N.m times 1000 rpm is
    100 * 1000 * 2*pi/60 W in either order. *)
Theorem C4_multiplication_dimensional :
  (forall a b : VariableT,
      (system_of a = Current /\ system_of b = Voltage)
      \/ (system_of a = Torque /\ system_of b = AngularSpeed) ->
      (system_of (__mul__ a b) = Power
       /\ units (__mul__ a b) = "W"
       /\ value (__mul__ a b) = value a * value b
       /\ numeric_value (__mul__ a b) = value a * value b)
      /\ (system_of (__mul__ b a) = Power
          /\ units (__mul__ b a) = "W"
          /\ value (__mul__ b a) = value a * value b
          /\ numeric_value (__mul__ b a) = value a * value b))
  /\ numeric_value (__mul__ (Variable_ 3 "mA") (Variable_ 40 "V")) = 12 / 100
  /\ numeric_value (__mul__ (Variable_ 40 "V") (Variable_ 3 "mA")) = 12 / 100
  /\ numeric_value
       (__mul__ (Variable_ 100 "NewtonMeter") (Variable_ 1000 "rpm"))
     = 100 * (1000 * (2 * PI / 60))
  /\ numeric_value
       (__mul__ (Variable_ 1000 "rpm") (Variable_ 100 "NewtonMeter"))
     = 100 * (1000 * (2 * PI / 60)).
Proof.
  assert (Hgen : forall a b : VariableT,
             (system_of a = Current /\ system_of b = Voltage)
             \/ (system_of a = Torque /\ system_of b = AngularSpeed) ->
             (system_of (__mul__ a b) = Power
              /\ units (__mul__ a b) = "W"
              /\ value (__mul__ a b) = value a * value b
              /\ numeric_value (__mul__ a b) = value a * value b)
             /\ (system_of (__mul__ b a) = Power
                 /\ units (__mul__ b a) = "W"
                 /\ value (__mul__ b a) = value a * value b
                 /\ numeric_value (__mul__ b a) = value a * value b)).
  { intros a b [[Ha Hb] | [Ha Hb]].
    - split.
      + apply mul_to_power; rewrite ?Ha, ?Hb; try discriminate; reflexivity.
      + rewrite (Rmult_comm (value a) (value b)).
        apply mul_to_power; rewrite ?Ha, ?Hb; try discriminate; reflexivity.
    - split.
      + apply mul_to_power; rewrite ?Ha, ?Hb; try discriminate; reflexivity.
      + rewrite (Rmult_comm (value a) (value b)).
        apply mul_to_power; rewrite ?Ha, ?Hb; try discriminate; reflexivity. }
  split; [exact Hgen |].
  assert (HmA : value (Variable_ 3 "mA") * value (Variable_ 40 "V")
                = 12 / 100).
  { unfold Variable_. simpl value. rewrite conversion_mA, conversion_V.
    unfold to_SI, factor. simpl. field. }
  assert (Hrpm : value (Variable_ 100 "NewtonMeter")
                 * value (Variable_ 1000 "rpm")
                 = 100 * (1000 * (2 * PI / 60))).
  { unfold Variable_. simpl value.
    rewrite conversion_NewtonMeter, conversion_rpm.
    unfold to_SI, factor. simpl. field. }
  destruct (Hgen (Variable_ 3 "mA") (Variable_ 40 "V"))
    as [(_ & _ & _ & H1) (_ & _ & _ & H2)]; [left; split; reflexivity |].
  destruct (Hgen (Variable_ 100 "NewtonMeter") (Variable_ 1000 "rpm"))
    as [(_ & _ & _ & H3) (_ & _ & _ & H4)]; [right; split; reflexivity |].
  rewrite H1, H2, H3, H4, HmA, Hrpm. repeat split.
Qed.

(** C4 on 3 mA and 40 V. *)
Lemma C4_multiplication_witness :
  (system_of (__mul__ (Variable_ 3 "mA") (Variable_ 40 "V")) = Power
   /\ units (__mul__ (Variable_ 3 "mA") (Variable_ 40 "V")) = "W"
   /\ value (__mul__ (Variable_ 3 "mA") (Variable_ 40 "V"))
      = value (Variable_ 3 "mA") * value (Variable_ 40 "V")
   /\ numeric_value (__mul__ (Variable_ 3 "mA") (Variable_ 40 "V"))
      = value (Variable_ 3 "mA") * value (Variable_ 40 "V"))
  /\ (system_of (__mul__ (Variable_ 40 "V") (Variable_ 3 "mA")) = Power
      /\ units (__mul__ (Variable_ 40 "V") (Variable_ 3 "mA")) = "W"
      /\ value (__mul__ (Variable_ 40 "V") (Variable_ 3 "mA"))
         = value (Variable_ 3 "mA") * value (Variable_ 40 "V")
      /\ numeric_value (__mul__ (Variable_ 40 "V") (Variable_ 3 "mA"))
         = value (Variable_ 3 "mA") * value (Variable_ 40 "V")).
Proof.
  apply (proj1 C4_multiplication_dimensional
           (Variable_ 3 "mA") (Variable_ 40 "V")).
  left. split; reflexivity.
Defined.

(** Operands of two unit systems fail the assertion. *)
Lemma additive_mismatch (op : R -> R -> R) (a b : VariableT) :
  system_of a <> system_of b -> additive op a b = Raise AssertionError.
Proof.
  intros H. unfold additive.
  destruct (decide (system_of a = system_of b)); [contradiction | reflexivity].
Qed.

(** Operands of one unit system give a result of that system. *)
Lemma additive_same (op : R -> R -> R) (a b : VariableT) :
  system_of a = system_of b ->
  exists r : VariableT,
    additive op a b = Ok r
    /\ system_of r = system_of a
    /\ value r = op (value a) (value b)
    /\ (units a <> units b -> units r = SI_units (system_of a)).
Proof.
  intros H. unfold additive.
  destruct (decide (system_of a = system_of b)); [| contradiction].
  eexists. split; [reflexivity |]. unfold system_of at 1. simpl.
  destruct (decide (units a = units b)) as [Hu | Hu].
  - repeat split. intros Hne. contradiction.
  - rewrite SI_units_system. repeat split.
Qed.



(** Rescaling keeps the quantity. *)
Lemma rescale_to_ok (u : string) (v r : VariableT) :
  rescale_to u v = Ok r ->
  value r = value v /\ units r = u /\ system_of r = system_of v.
Proof.
  unfold rescale_to.
  destruct (decide (unit_system u = system_of v)) as [H | H];
    [| discriminate].
  intros [= <-]. repeat split. exact H.
Qed.

Lemma rescale_to_same_system (u : string) (v : VariableT) :
  unit_system u = system_of v ->
  rescale_to u v = Ok {| value := value v; units := u |}.
Proof.
  intros H. unfold rescale_to.
  destruct (decide (unit_system u = system_of v)); [reflexivity | contradiction].
Qed.



End VariablesSpec.
